(** * my-backend: image-upload lifecycle, listing and validation

    A shallow embedding of the Express routers of the repository
    (blog, products on local disk, products on Cloudinary, enquiry mailer)
    and the properties of the upload lifecycle, pagination and request
    validation that the specification states about them. *)

From Stdlib Require Import ZArith QArith Qround Ascii String List Lia DecimalString.
From Stdlib Require Qcanon DecimalN.
From stdpp Require Import base option list sorting gmap sets strings.

Local Open Scope string_scope.
Local Open Scope list_scope.

(** ** JavaScript values and coercions used by the routers *)

Module JS.

(** A JavaScript number.  Finite values are kept as exact rationals; the
    routers only compare against zero, subtract one, multiply, divide and
    take a ceiling.  Rounding to a double is written out where a router
    depends on it, in the comparison against zero; the statements on the
    listings bound their integers by 2^53, below which doubles are exact. *)
Inductive Num :=
| NaN
| Inf (negative : bool)
| Fin (q : Q).

Definition Num_opp (n : Num) : Num :=
  match n with
  | NaN => NaN
  | Inf b => Inf (negb b)
  | Fin q => Fin (Qred (- q))
  end.

(** [isNaN(x)] after [ToNumber]. *)
Definition isNaN (n : Num) : bool :=
  match n with NaN => true | _ => false end.

(** The largest number whose double is zero: half the least positive
    double, 2^-1074; the tie goes to the even neighbour, which is zero. *)
Definition underflow : Q := 1 # (2 ^ 1075).

(** [x <= 0] on numbers; any comparison with NaN is false.  The double of
    a finite value is zero or below exactly when the value is at most
    [underflow]; a value too large for a double is Infinity, above zero. *)
Definition le_zero (n : Num) : bool :=
  match n with
  | NaN => false
  | Inf b => b
  | Fin q => Qle_bool q underflow
  end.

(** [a / b] on finite operands. *)
Definition div (a b : Q) : Num :=
  if Qeq_bool b 0 then
    if Qeq_bool a 0 then NaN else Inf (negb (Qle_bool 0 a))
  else Fin (Qred (a / b)).

(** [Math.ceil]. *)
Definition ceil (n : Num) : Num :=
  match n with
  | Fin q => Fin (inject_Z (Qceiling q))
  | _ => n
  end.

(** Truthiness of a form or query field: [undefined] and the empty
    string are falsy, every other string is truthy. *)
Definition truthy (v : option string) : bool :=
  match v with
  | Some EmptyString => false
  | Some _ => true
  | None => false
  end.

(** [s.length], in code units; every character of a Rocq string stands
    for one code unit. *)
Definition str_length (s : string) : nat := String.length s.

(** *** Numeric literals *)

(** White space of the ASCII range (TAB, LF, VT, FF, CR, SP). *)
Definition is_ws (c : ascii) : bool :=
  let n := nat_of_ascii c in
  Nat.eqb n 32 || (Nat.leb 9 n && Nat.leb n 13).

Definition hexdigit (c : ascii) : option N :=
  let n := N_of_ascii c in
  if (48 <=? n)%N && (n <=? 57)%N then Some (n - 48)%N
  else if (97 <=? n)%N && (n <=? 102)%N then Some (n - 87)%N
  else if (65 <=? n)%N && (n <=? 70)%N then Some (n - 55)%N
  else None.

Definition digit_in (radix : N) (c : ascii) : option N :=
  match hexdigit c with
  | Some d => if (d <? radix)%N then Some d else None
  | None => None
  end.

(** The longest run of digits at the head of [l]: its value, the number
    of digits read and what follows. *)
Fixpoint digits (radix acc : N) (cnt : nat) (l : list ascii)
  : N * nat * list ascii :=
  match l with
  | c :: r =>
      match digit_in radix c with
      | Some d => digits radix (acc * radix + d)%N (S cnt) r
      | None => (acc, cnt, l)
      end
  | [] => (acc, cnt, [])
  end.

Definition sign (l : list ascii) : bool * list ascii :=
  match l with
  | "+"%char :: r => (false, r)
  | "-"%char :: r => (true, r)
  | _ => (false, l)
  end.

Fixpoint strip_prefix (p l : list ascii) : option (list ascii) :=
  match p, l with
  | [], _ => Some l
  | a :: p', b :: l' => if Ascii.eqb a b then strip_prefix p' l' else None
  | _ :: _, [] => None
  end.

Fixpoint trim_left (l : list ascii) : list ascii :=
  match l with
  | c :: r => if is_ws c then trim_left r else l
  | [] => []
  end.

Definition trim (l : list ascii) : list ascii :=
  rev (trim_left (rev (trim_left l))).

(** An optional exponent part; it is read only when it is complete. *)
Definition exponent (l : list ascii) : Z * list ascii :=
  match l with
  | c :: r =>
      if Ascii.eqb c "e" || Ascii.eqb c "E" then
        let '(neg, r1) := sign r in
        let '(v, n, r2) := digits 10 0 0 r1 in
        match n with
        | O => (0%Z, l)
        | S _ => ((if neg then - Z.of_N v else Z.of_N v)%Z, r2)
        end
      else (0%Z, l)
  | [] => (0%Z, l)
  end.

(** [m * 10^e] as a reduced fraction. *)
Definition scale (m : N) (e : Z) : Q :=
  if (0 <=? e)%Z then inject_Z (Z.of_N m * 10 ^ e)
  else Qred (Qmake (Z.of_N m) (Z.to_pos (10 ^ (- e)))).

(** The longest unsigned decimal literal at the head of [l]
    ([Infinity], [12], [12.], [12.5], [.5], each but the first with an
    optional exponent). *)
Definition unsigned_decimal (l : list ascii) : option (Num * list ascii) :=
  match strip_prefix (list_ascii_of_string "Infinity") l with
  | Some r => Some (Inf false, r)
  | None =>
      let '(i, ni, r1) := digits 10 0 0 l in
      let '(f, nf, r2) :=
        match r1 with
        | "."%char :: r => digits 10 i 0 r
        | _ => (i, O, r1)
        end in
      match ni, nf with
      | O, O => None
      | _, _ =>
          let '(e, r3) := exponent r2 in
          Some (Fin (scale f (e - Z.of_nat nf)), r3)
      end
  end.

(** [Number(s)]: the whole trimmed string has to be a numeric literal. *)
Definition ToNumber (s : string) : Num :=
  let l := trim (list_ascii_of_string s) in
  match l with
  | [] => Fin 0
  | "0"%char :: x :: r =>
      let radix :=
        if Ascii.eqb x "x" || Ascii.eqb x "X" then Some 16%N
        else if Ascii.eqb x "o" || Ascii.eqb x "O" then Some 8%N
        else if Ascii.eqb x "b" || Ascii.eqb x "B" then Some 2%N
        else None in
      match radix with
      | Some rx =>
          match digits rx 0 0 r with
          | (v, S _, []) => Fin (inject_Z (Z.of_N v))
          | _ => NaN
          end
      | None =>
          match unsigned_decimal l with
          | Some (v, []) => v
          | _ => NaN
          end
      end
  | _ =>
      let '(neg, r) := sign l in
      match unsigned_decimal r with
      | Some (v, []) => if neg then Num_opp v else v
      | _ => NaN
      end
  end.

(** [parseFloat(s)]: the longest decimal literal after leading white
    space; what follows it is ignored. *)
Definition parseFloat (s : string) : Num :=
  let '(neg, r) := sign (trim_left (list_ascii_of_string s)) in
  match unsigned_decimal r with
  | Some (v, _) => if neg then Num_opp v else v
  | None => NaN
  end.

(** [parseInt(s)] without a radix; [None] is NaN. *)
Definition parseInt (s : string) : option Z :=
  let '(neg, r) := sign (trim_left (list_ascii_of_string s)) in
  let '(radix, r1) :=
    match r with
    | "0"%char :: x :: r' =>
        if Ascii.eqb x "x" || Ascii.eqb x "X" then (16%N, r') else (10%N, r)
    | _ => (10%N, r)
    end in
  match digits radix 0 0 r1 with
  | (_, O, _) => None
  | (v, S _, _) => Some (if neg then - Z.of_N v else Z.of_N v)%Z
  end.

(** [parseInt(v)] of a query field; [undefined] reads as the text
    [undefined], which is NaN. *)
Definition parseInt_field (v : option string) : option Z :=
  match v with
  | Some s => parseInt s
  | None => None
  end.

End JS.

#[global] Arguments JS.truthy : simpl never.
#[global] Arguments JS.underflow : simpl never.
#[global] Arguments JS.ToNumber : simpl never.
#[global] Arguments JS.parseFloat : simpl never.
#[global] Arguments JS.parseInt : simpl never.


(** ** Paths *)

Module Path.

(** [path.join(dir, rel)] for a normalised directory [dir] and a
    relative part without dot segments or doubled separators, which is
    what every call site of the routers passes: the two are glued with
    exactly one separator. *)
Definition join (dir rel : string) : string :=
  match rel with
  | EmptyString => dir
  | String "/"%char _ => dir +:+ rel
  | _ => dir +:+ "/" +:+ rel
  end.

(** What follows the last separator. *)
Fixpoint basename (l : list ascii) : list ascii :=
  match l with
  | [] => []
  | c :: r =>
      if existsb (Ascii.eqb "/"%char) r then basename r
      else if Ascii.eqb c "/" then r else l
  end.

(** The suffix that starts at the last dot, when there is one. *)
Fixpoint last_dot_suffix (l : list ascii) : option (list ascii) :=
  match l with
  | [] => None
  | c :: r =>
      match last_dot_suffix r with
      | Some s => Some s
      | None => if Ascii.eqb c "." then Some l else None
      end
  end.

(** [path.extname]: from the last dot of the base name to its end;
    empty when there is no dot, when the only dot leads the name, and
    for the name made of two dots. *)
Definition extname (p : string) : string :=
  match basename (list_ascii_of_string p) with
  | [] => EmptyString
  | c :: r =>
      if Ascii.eqb c "." && forallb (Ascii.eqb "."%char) r && Nat.eqb (List.length r) 1
      then EmptyString
      else match last_dot_suffix r with
           | Some e => string_of_list_ascii e
           | None => EmptyString
           end
  end.

End Path.

(** [s.toLowerCase()] on the ASCII letters. *)
Definition lower_ascii (c : ascii) : ascii :=
  let n := nat_of_ascii c in
  if Nat.leb 65 n && Nat.leb n 90 then ascii_of_nat (n + 32) else c.

Definition toLowerCase (s : string) : string :=
  string_of_list_ascii (map lower_ascii (list_ascii_of_string s)).

(** [s.includes(t)]. *)
Fixpoint includes (t s : string) : bool :=
  String.prefix t s ||
  match s with
  | EmptyString => false
  | String _ r => includes t r
  end.

(** [s.split(',')]. *)
Fixpoint split_on (sep : ascii) (s : string) : list string :=
  match s with
  | EmptyString => [EmptyString]
  | String c r =>
      if Ascii.eqb c sep then EmptyString :: split_on sep r
      else match split_on sep r with
           | h :: t => String c h :: t
           | [] => [String c EmptyString]
           end
  end.

(** [s.trim()]. *)
Definition trim (s : string) : string :=
  string_of_list_ascii (JS.trim (list_ascii_of_string s)).


(** [String(n)] for a non-negative integer. *)
Definition Number_toString (n : N) : string :=
  NilZero.string_of_uint (N.to_uint n).

#[global] Arguments Number_toString : simpl never.
#[global] Arguments Path.extname : simpl never.
#[global] Arguments toLowerCase : simpl never.

(** ** Documents, as the three schemas declare them *)

(** [blogSchema]. *)
Record BlogDoc := {
  b_title : string;
  b_content : string;
  b_category : option string;
  b_date : Z;
  b_readTime : string;
  b_images : list string
}.

(** [productSchema] of the router that keeps images on the local disk. *)
Record ProductDoc := {
  p_title : string;
  p_tagline : option string;
  p_price : JS.Num;
  p_category : option string;
  p_description : string;
  p_features : list string;
  p_specifications : list string;
  p_tags : list string;
  p_images : list string;
  p_createdAt : Z;
  p_updatedAt : Z
}.

(** An entry of [images] in the Cloudinary schema. *)
Record CloudImage := {
  url : option string;
  public_id : option string
}.

(** [productSchema] of the router that keeps images on Cloudinary. *)
Record CloudProductDoc := {
  c_title : string;
  c_tagline : option string;
  c_price : JS.Num;
  c_category : option string;
  c_description : string;
  c_features : list string;
  c_specifications : list string;
  c_tags : list string;
  c_images : list CloudImage;
  c_createdAt : Z;
  c_updatedAt : Z
}.

#[global] Instance CloudImage_eq_dec : EqDecision CloudImage.
Proof. solve_decision. Defined.

(** ** Errors, effects and the world *)

Record Error := {
  err_name : string;
  err_message : string;
  err_code : option string;
  err_response : option string;
  err_responseCode : option Z
}.

Definition mkError (name message : string) : Error :=
  {| err_name := name; err_message := message; err_code := None;
     err_response := None; err_responseCode := None |}.

Record MailOptions := {
  mail_from : string;
  mail_to : string;
  mail_subject : string;
  mail_html : string
}.

#[global] Instance MailOptions_eq_dec : EqDecision MailOptions.
Proof. solve_decision. Defined.

(** What a request does to the outside, in the order it happens. *)
Inductive Event :=
| WriteFile (path : string)
| Unlink (path : string)
| CloudUpload (source : string)
| CloudDestroy (id : string)
| ConsoleError (msg : string)
| ConsoleLog (msg : string)
| SendMail (opts : MailOptions).

#[global] Instance Event_eq_dec : EqDecision Event.
Proof. solve_decision. Defined.

Record World := {
  disk : gset string;                            (* files on the local disk *)
  locked : gset string;                          (* what else exists there and cannot be
                                                    unlinked: directories, protected files *)
  cloud : gset string;                           (* public ids held by Cloudinary *)
  blogs : gmap string BlogDoc;
  products : gmap string ProductDoc;
  cloud_products : gmap string CloudProductDoc;
  events : list Event
}.

Definition with_disk (f : gset string → gset string) (w : World) : World :=
  {| disk := f (disk w); locked := locked w;
     cloud := cloud w; blogs := blogs w;
     products := products w; cloud_products := cloud_products w;
     events := events w |}.

Definition with_cloud (f : gset string → gset string) (w : World) : World :=
  {| disk := disk w; locked := locked w;
     cloud := f (cloud w); blogs := blogs w;
     products := products w; cloud_products := cloud_products w;
     events := events w |}.

Definition with_blogs (f : gmap string BlogDoc → gmap string BlogDoc) (w : World) : World :=
  {| disk := disk w; locked := locked w;
     cloud := cloud w; blogs := f (blogs w);
     products := products w; cloud_products := cloud_products w;
     events := events w |}.

Definition with_products (f : gmap string ProductDoc → gmap string ProductDoc) (w : World) : World :=
  {| disk := disk w; locked := locked w;
     cloud := cloud w; blogs := blogs w;
     products := f (products w); cloud_products := cloud_products w;
     events := events w |}.

Definition with_cloud_products
  (f : gmap string CloudProductDoc → gmap string CloudProductDoc) (w : World) : World :=
  {| disk := disk w; locked := locked w;
     cloud := cloud w; blogs := blogs w;
     products := products w; cloud_products := f (cloud_products w);
     events := events w |}.

Definition emit (ev : Event) (w : World) : World :=
  {| disk := disk w; locked := locked w;
     cloud := cloud w; blogs := blogs w;
     products := products w; cloud_products := cloud_products w;
     events := events w ++ [ev] |}.

(** How the datastore answers a [save]: after [latency] milliseconds it
    resolves or rejects. *)
Inductive SaveAnswer :=
| SaveOk (latency : N)
| SaveFails (latency : N) (e : Error).

(** What the surroundings of one request decide: the clock, the process
    environment, and the answers of the datastore, of Cloudinary, of the
    JSON parser and of the mail relay. *)
Record Env := {
  now : Z;                                        (* Date.now() in the handler *)
  fresh_id : string;                              (* _id of a document made by this request *)
  isValid : string → bool;                        (* mongoose.Types.ObjectId.isValid *)
  save_answer : SaveAnswer;
  destroy_rejects : string → option Error;        (* cloudinary.uploader.destroy *)
  upload_answer : string → Error + (string * string);  (* ... .upload: secure_url, public_id *)
  JSON_parse : string → Error + list string;
  EMAIL_USER : option string;
  EMAIL_PASSWORD : option string;
  sendMail_answer : Error + string                (* the messageId on success *)
}.

(** ** Handlers as state-and-exception computations *)

Inductive Outcome (A : Type) :=
| Ok (a : A)
| Thrown (e : Error).
Arguments Ok {A} a.
Arguments Thrown {A} e.

Definition M (A : Type) : Type := World → Outcome A * World.

#[global] Instance M_ret : MRet M := λ A a w, (Ok a, w).
#[global] Instance M_bind : MBind M := λ A B k m w,
  match m w with
  | (Ok a, w') => k a w'
  | (Thrown e, w') => (Thrown e, w')
  end.

Definition throw {A} (e : Error) : M A := λ w, (Thrown e, w).

(** [try { m } catch (error) { h error }]. *)
Definition try_catch {A} (m : M A) (h : Error → M A) : M A := λ w,
  match m w with
  | (Ok a, w') => (Ok a, w')
  | (Thrown e, w') => h e w'
  end.

Definition effect (f : World → World) : M unit := λ w, (Ok (), f w).
Definition read {A} (f : World → A) : M A := λ w, (Ok (f w), w).

(** [for (const x of l) { await f x }]. *)
Fixpoint for_each {A} (l : list A) (f : A → M unit) : M unit :=
  match l with
  | [] => mret ()
  | x :: r => f x ;; for_each r f
  end.

(** [await Promise.all([a, b])] of two computations. *)
Definition Promise_all2 {A B} (a : M A) (b : M B) : M (A * B) :=
  x ← a; y ← b; mret (x, y).

(** *** The local disk *)

(** [fs.existsSync]: true of a file and of anything else at the path. *)
Definition existsSync (path : string) : M bool :=
  read (λ w, bool_decide (path ∈ disk w) || bool_decide (path ∈ locked w)).

(** The error of a file-system call on a path that does not exist. *)
Definition ENOENT : Error :=
  {| err_name := "Error"; err_message := "ENOENT: no such file or directory";
     err_code := Some "ENOENT"; err_response := None;
     err_responseCode := None |}.

(** The error of an unlink that the file system refuses: the path is a
    directory, or the file may not be removed (EPERM here; EISDIR, EACCES
    and EBUSY are handled alike, no handler looks at the code). *)
Definition EPERM : Error :=
  {| err_name := "Error"; err_message := "EPERM: operation not permitted";
     err_code := Some "EPERM"; err_response := None;
     err_responseCode := None |}.

(** [fs.promises.unlink]: removes a file; rejects with ENOENT when nothing
    is at the path, and with EPERM when what is there cannot be unlinked. *)
Definition unlink (path : string) : M unit :=
  effect (emit (Unlink path)) ;;
  file ← read (λ w, bool_decide (path ∈ disk w));
  if file : bool then effect (with_disk (λ d, d ∖ {[path]}))
  else
    refused ← read (λ w, bool_decide (path ∈ locked w));
    if refused : bool then throw EPERM else throw ENOENT.

Definition writeFile (path : string) : M unit :=
  effect (emit (WriteFile path)) ;;
  effect (with_disk (λ d, d ∪ {[path]})).

Definition console_error (msg : string) : M unit :=
  effect (emit (ConsoleError msg)).

Definition console_log (msg : string) : M unit :=
  effect (emit (ConsoleLog msg)).

(** *** Cloudinary *)

Definition cloud_destroy (env : Env) (id : string) : M unit :=
  effect (emit (CloudDestroy id)) ;;
  match destroy_rejects env id with
  | Some e => throw e
  | None => effect (with_cloud (λ c, c ∖ {[id]}))
  end.

Definition cloud_upload (env : Env) (source : string) : M CloudImage :=
  effect (emit (CloudUpload source)) ;;
  match upload_answer env source with
  | inl e => throw e
  | inr (secure_url, id) =>
      effect (with_cloud (λ c, c ∪ {[id]})) ;;
      mret {| url := Some secure_url; public_id := Some id |}
  end.

(** *** The datastore *)

(** Queries and removals answer.  Of the failures of the datastore the one
    of a [save] is represented, which is the one the handlers react to,
    together with the rejection of an identifier that cannot be cast. *)

Definition CastError : Error :=
  mkError "CastError" "Cast to ObjectId failed".

(** [Model.findById(id)]: an identifier that is no ObjectId cannot be
    cast and the query rejects; otherwise the document or [null]. *)
Definition findById {D} (env : Env) (coll : World → gmap string D) (id : string)
  : M (option D) :=
  if isValid env id then read (λ w, coll w !! id) else throw CastError.

(** [x] comes no later than [y] in a descending sort on [key]. *)
Definition newer {D} (key : D → Z) (x y : string * D) : Prop :=
  (key (snd y) ≤ key (snd x))%Z.

#[global] Instance newer_dec {D} (key : D → Z) : RelDecision (newer key).
Proof. intros x y. unfold newer. apply _. Defined.

(** [Model.find().sort({key: -1})]: every document, newest first. *)
Definition newest_first {D} (key : D → Z) (docs : gmap string D) : list (string * D) :=
  merge_sort (newer key) (map_to_list docs).

(** [.skip(s).limit(n)]; a limit of zero means no limit.  [None] marks
    values whose treatment by the driver is not part of this model
    (negative ones). *)
Definition skip_limit {A} (s n : Z) (l : list A) : option (list A) :=
  if (s <? 0)%Z || (n <? 0)%Z then None
  else if (n =? 0)%Z then Some (drop (Z.to_nat s) l)
  else Some (take (Z.to_nat n) (drop (Z.to_nat s) l)).

(** The answer of the datastore within a time budget, as
    [Promise.race([save, timer])] sees it.  The race does not cancel a
    save that answers late: what such a save still does after the
    response is [Products.late_save]. *)
Definition timeoutMs : N := 30000.

Definition race (budget : N) (a : SaveAnswer) : SaveAnswer :=
  match a with
  | SaveOk t =>
      if (t <? budget)%N then a
      else SaveFails budget (mkError "Error" "Database operation timed out")
  | SaveFails t e =>
      if (t <? budget)%N then a
      else SaveFails budget (mkError "Error" "Database operation timed out")
  end.

(** ** Responses *)

Inductive Json :=
| JBool (b : bool)
| JNum (n : JS.Num)
| JStr (s : string)
| JBlog (id : string) (d : BlogDoc)
| JProduct (id : string) (d : ProductDoc)
| JCloudProduct (id : string) (d : CloudProductDoc)
| JBlogs (l : list (string * BlogDoc))
| JProducts (l : list (string * ProductDoc))
| JCloudProducts (l : list (string * CloudProductDoc)).

(** A body is a document sent as it is, or an object literal; a field
    whose value is [undefined] is left out, as [JSON.stringify] does.  Where
    the [error] field of a failure body is chosen by [NODE_ENV] (a generic
    text, the message or the stack trace), the field is not represented. *)
Inductive Body :=
| Whole (j : Json)
| Fields (l : list (string * Json)).

Record Response := {
  status : nat;
  body : Body
}.

Definition json (code : nat) (b : Body) : Response :=
  {| status := code; body := b |}.

Definition message_body (msg : string) : Body := Fields [("message", JStr msg)].

(** ** The upload middleware (multer with disk storage) *)

(** A file part of a multipart request.  [stamp] is what [Date.now()]
    returns when the storage engine names the file. *)
Record Part := {
  originalname : string;
  mimetype : string;
  bytes : N;                 (* its [size] *)
  stamp : N
}.

(** An entry of [req.files]. *)
Record File := {
  filename : string;
  path : string
}.

Record Storage := {
  destination : string;
  name_for : Part → string;
  fileFilter : Part → option Error;
  fileSize : N
}.

(** On an error multer removes what it has stored for this request and
    hands the error on. *)
Definition abort_upload {A} (stored : list File) (e : Error) : M A :=
  for_each stored (λ f, try_catch (unlink (path f)) (λ _, mret ())) ;;
  throw e.

Fixpoint store_parts (st : Storage) (room : nat) (parts : list Part)
  (stored : list File) {struct parts} : M (list File) :=
  match parts with
  | [] => mret stored
  | p :: rest =>
      match room with
      | O => abort_upload stored (mkError "MulterError" "Unexpected field")
      | S room' =>
          match fileFilter st p with
          | Some e => abort_upload stored e
          | None =>
              let f := {| filename := name_for st p;
                          path := Path.join (destination st) (name_for st p) |} in
              writeFile (path f) ;;
              if (fileSize st <? bytes p)%N
              then abort_upload (stored ++ [f]) (mkError "MulterError" "File too large")
              else store_parts st room' rest (stored ++ [f])
          end
      end
  end.

(** [upload.array(field, maxCount)]. *)
Definition upload_array (st : Storage) (maxCount : nat) (parts : list Part)
  : M (list File) :=
  store_parts st maxCount parts [].

(** ** The error-handling middleware of the server *)

Definition error_middleware (err : Error) : Response :=
  if String.eqb (err_name err) "MongoServerError" then
    json 503 (message_body "Database operation failed")
  else if String.eqb (err_name err) "ValidationError" then
    json 400 (message_body "Validation failed")
  else if String.eqb (err_name err) "MongooseError"
          && includes "buffering timed out" (err_message err) then
    json 504 (message_body "Database operation timed out")
  else json 500 (message_body "Something went wrong!").

(** A route [router.verb(path, upload, validate, handler)]: the upload
    middleware runs first, then the validator, which answers itself or
    calls [next()], then the handler.  An error of the upload middleware
    goes to the error-handling middleware. *)
Definition route (upload : M (list File)) (validate : option Response)
  (handler : list File → M Response) : M Response :=
  try_catch
    (files ← upload;
     match validate with
     | Some rejection => mret rejection
     | None => handler files
     end)
    (λ err, mret (error_middleware err)).

(** Where the process runs: it is started in the project root, and the
    routers live two directories below it. *)
Definition project_root : string := "/app".
Definition public_dir : string := project_root +:+ "/public".

(** ** The blog router *)

Module Blog.

Record ReqBody := {
  title : option string;
  content : option string;
  category : option string
}.

Record Request := {
  params_id : string;
  req_body : ReqBody;
  parts : list Part;
  query_page : option string;
  query_limit : option string
}.

Definition validateBlogPost (b : ReqBody) : option Response :=
  if negb (JS.truthy (title b)) || negb (JS.truthy (content b)) then
    Some (json 400 (message_body "Title and content are required"))
  else
    let title := default EmptyString (title b) in
    let content := default EmptyString (content b) in
    if Nat.ltb (JS.str_length title) 3 || Nat.ltb 100 (JS.str_length title) then
      Some (json 400 (message_body "Title must be between 3 and 100 characters"))
    else if Nat.ltb (JS.str_length content) 10 then
      Some (json 400 (message_body "Content must be at least 10 characters long"))
    else None.

(** The file a reference of [images] stands for: the reference is a
    path below the public directory. *)
Definition image_file (img : string) : string := Path.join public_dir img.

Definition cleanupUnusedImages (oldImages newImages : list string) : M unit :=
  let imagesToDelete := filter (λ img, img ∉ newImages) oldImages in
  for_each imagesToDelete (λ img,
    let imagePath := Path.join public_dir img in
    try_catch
      (present ← existsSync imagePath;
       if present : bool then unlink imagePath else mret ())
      (λ error, console_error "Error deleting unused image:")).

(** [multer.diskStorage]: the directory [public/uploads/] of the working
    directory, and the time of day followed by the extension of the
    original name. *)
Definition storage : Storage :=
  {| destination := project_root +:+ "/public/uploads";
     name_for := λ file, Number_toString (stamp file) +:+ Path.extname (originalname file);
     fileFilter := λ _, None;
     fileSize := 5 * 1024 * 1024 |}.

Definition upload (parts : list Part) : M (list File) :=
  upload_array storage 10 parts.

Definition save (env : Env) (id : string) (d : BlogDoc) : M BlogDoc :=
  match save_answer env with
  | SaveOk _ => effect (with_blogs (<[id := d]>)) ;; mret d
  | SaveFails _ e => throw e
  end.

(** [`${Math.ceil(content.length / 1000)} min read`]; the ceiling of the
    quotient of two naturals is written with integer division. *)
Definition readTime (content : string) : string :=
  Number_toString (N.of_nat ((JS.str_length content + 999) / 1000)) +:+ " min read".

(** [parseInt(v) || d]: NaN and zero are falsy. *)
Definition or_default (v : option Z) (d : Z) : Z :=
  match v with
  | Some 0%Z | None => d
  | Some z => z
  end.

Definition find_page (skip limit : Z) : M (option (list (string * BlogDoc))) :=
  read (λ w, skip_limit skip limit (newest_first b_date (blogs w))).

Definition countDocuments : M nat := read (λ w, size (blogs w)).

(** [router.get('/')].  The result is [None] where the query leaves
    the modelled domain of the driver. *)
Definition list_handler (req : Request) : M (option Response) :=
  let page := or_default (JS.parseInt_field (query_page req)) 1 in
  let limit := or_default (JS.parseInt_field (query_limit req)) 10 in
  let skip := ((page - 1) * limit)%Z in
  try_catch
    ('(blogs, total) ← Promise_all2 (find_page skip limit) countDocuments;
     match blogs with
     | None => mret None
     | Some blogs =>
         mret (Some (json 200 (Fields [
           ("blogs", JBlogs blogs);
           ("currentPage", JNum (JS.Fin (inject_Z page)));
           ("totalPages", JNum (JS.ceil (JS.div (inject_Z (Z.of_nat total)) (inject_Z limit))));
           ("totalBlogs", JNum (JS.Fin (inject_Z (Z.of_nat total))))])))
     end)
    (λ error, mret (Some (json 500 (message_body (err_message error))))).

(** The handler of [router.post('/')]. *)
Definition create (env : Env) (b : ReqBody) (files : list File) : M Response :=
  try_catch
    (let title := default EmptyString (title b) in
     let content := default EmptyString (content b) in
     let images := map (λ file, "/uploads/" +:+ filename file) files in
     let blog :=
       {| b_title := title;
          b_content := content;
          b_category := Some (default "corporate" (category b));
          b_date := now env;
          b_readTime := readTime content;
          b_images := images |} in
     newBlog ← save env (fresh_id env) blog;
     mret (json 201 (Whole (JBlog (fresh_id env) newBlog))))
    (λ error, mret (json 400 (message_body (err_message error)))).

Definition post (env : Env) (req : Request) : M Response :=
  route (upload (parts req)) (validateBlogPost (req_body req))
        (create env (req_body req)).

(** The handler of [router.put('/:id')]. *)
Definition update (env : Env) (id : string) (b : ReqBody) (files : list File)
  : M Response :=
  try_catch
    (let title := default EmptyString (title b) in
     let content := default EmptyString (content b) in
     let newImages := map (λ file, "/uploads/" +:+ filename file) files in
     found ← findById env blogs id;
     match found with
     | None => mret (json 404 (message_body "Blog not found"))
     | Some blog =>
         let oldImages := b_images blog in
         let blog :=
           {| b_title := title;
              b_content := content;
              b_category := category b;
              b_date := b_date blog;
              b_readTime := readTime content;
              b_images := b_images blog ++ newImages |} in
         cleanupUnusedImages oldImages (b_images blog) ;;
         updatedBlog ← save env id blog;
         mret (json 200 (Whole (JBlog id updatedBlog)))
     end)
    (λ error, mret (json 400 (message_body (err_message error)))).

Definition put (env : Env) (req : Request) : M Response :=
  route (upload (parts req)) (validateBlogPost (req_body req))
        (update env (params_id req) (req_body req)).

(** [router.delete('/:id')]. *)
Definition delete (env : Env) (req : Request) : M Response :=
  try_catch
    (found ← findById env blogs (params_id req);
     match found with
     | None => mret (json 404 (message_body "Blog not found"))
     | Some blog =>
         cleanupUnusedImages (b_images blog) [] ;;
         effect (with_blogs (base.delete (params_id req))) ;;
         mret (json 200 (message_body "Blog deleted"))
     end)
    (λ error, mret (json 500 (message_body (err_message error)))).

End Blog.

(** ** What the product routers share *)

(** The fields of a product form.  [deletedImages] is an array when the
    field is repeated and a plain string otherwise; only the Cloudinary
    router reads it. *)
Record ProductBody := {
  title : option string;
  tagline : option string;
  price : option string;
  category : option string;
  description : option string;
  features : option string;
  specifications : option string;
  tags : option string;
  deletedImages : option (string + list string)
}.

(** The validator, which each product router declares in the same words. *)
Definition validateProduct (b : ProductBody) : option Response :=
  if negb (JS.truthy (title b)) || negb (JS.truthy (price b))
     || negb (JS.truthy (description b)) then
    Some (json 400 (message_body "Title, price, and description are required"))
  else
    let title := default EmptyString (title b) in
    let price := default EmptyString (price b) in
    let description := default EmptyString (description b) in
    if Nat.ltb (JS.str_length title) 3 || Nat.ltb 100 (JS.str_length title) then
      Some (json 400 (message_body "Title must be between 3 and 100 characters"))
    else if Nat.ltb (JS.str_length description) 10 then
      Some (json 400 (message_body "Description must be at least 10 characters long"))
    else if JS.isNaN (JS.ToNumber price) || JS.le_zero (JS.ToNumber price) then
      Some (json 400 (message_body "Price must be a positive number"))
    else None.

(** [v ? v.split(',').map(x => x.trim()) : []]. *)
Definition comma_list (v : option string) : list string :=
  if JS.truthy v then map trim (split_on "," (default EmptyString v)) else [].

(** The query of a listing: [page] and [limit] default to the numbers 1
    and 10 when absent and are used as numbers. *)
Definition field_number (v : option string) (d : Q) : JS.Num :=
  match v with
  | Some s => JS.ToNumber s
  | None => JS.Fin d
  end.

Definition field_parseInt (v : option string) (d : Z) : option Z :=
  match v with
  | Some s => JS.parseInt s
  | None => Some d
  end.

(** An integer among the rationals. *)
Definition as_integer (q : Q) : option Z :=
  if Pos.eqb (Qden (Qred q)) 1 then Some (Qnum (Qred q)) else None.

Definition parseInt_json (v : option Z) : Json :=
  match v with
  | Some z => JNum (JS.Fin (inject_Z z))
  | None => JNum JS.NaN
  end.

(** The documents a listing query selects. *)
Definition selected {D} (category_of : D → option string) (category : option string)
  (docs : gmap string D) : gmap string D :=
  if JS.truthy category && negb (String.eqb (default EmptyString category) "all")
  then filter (λ kv, category_of (snd kv) = category) docs
  else docs.

(** The slice and the numbers of a listing, from the query strings.
    [None] where the skip or the limit leaves the modelled domain of the
    driver (not a number, not finite, fractional or negative). *)
Definition listing_slice {D} (key : D → Z) (page limit : option string)
  (docs : gmap string D) : option (list (string * D)) :=
  match field_number page 1, field_number limit 10 with
  | JS.Fin p, JS.Fin l =>
      match as_integer ((p - 1) * l), field_parseInt limit 10 with
      | Some skip, Some n => skip_limit skip n (newest_first key docs)
      | _, _ => None
      end
  | _, _ => None
  end.

Definition listing_totalPages (limit : option string) (total : nat) : JS.Num :=
  match field_number limit 10 with
  | JS.Fin l => JS.ceil (JS.div (inject_Z (Z.of_nat total)) l)
  | JS.Inf _ => JS.Fin 0
  | JS.NaN => JS.NaN
  end.

(** ** The product router with images on the local disk *)

Module Products.

Record Request := {
  params_id : string;
  req_body : ProductBody;
  parts : list Part;
  query_category : option string;
  query_page : option string;
  query_limit : option string
}.

Definition uploadDir : string := public_dir +:+ "/uploads/products".

Definition allowedTypes : list string :=
  ["image/jpeg"; "image/png"; "image/gif"; "image/webp"].

Definition storage : Storage :=
  {| destination := uploadDir;
     name_for := λ file,
       "product-" +:+ Number_toString (stamp file)
         +:+ toLowerCase (Path.extname (originalname file));
     fileFilter := λ file,
       if bool_decide (mimetype file ∈ allowedTypes) then None
       else Some (mkError "Error"
              "Invalid file type. Only JPEG, PNG, GIF, and WebP images are allowed.");
     fileSize := 5 * 1024 * 1024 |}.

Definition upload (parts : list Part) : M (list File) :=
  upload_array storage 10 parts.

(** The file that a reference made by [create] stands for: the
    reference is the bare file name in the upload directory. *)
Definition image_file (img : string) : string := Path.join uploadDir img.

(** [product.save()], alone or raced against a timer.  The schema
    requires a category; the other required paths have passed the
    validator. *)
Definition save (env : Env) (budget : option N) (id : string) (d : ProductDoc)
  : M ProductDoc :=
  if negb (JS.truthy (p_category d)) then
    throw (mkError "ValidationError"
             "Product validation failed: category: Path `category` is required.")
  else
    match from_option (λ b, race b (save_answer env)) (save_answer env) budget with
    | SaveOk _ => effect (with_products (<[id := d]>)) ;; mret d
    | SaveFails _ e => throw e
    end.

(** What a raced save does once the race is over.  A save that resolves
    after the budget has lost the race, and the handler has answered; the
    save itself goes on and stores the document.  A save that rejects, and
    one that has won the race, leave nothing to be done. *)
Definition late_save (env : Env) (budget : N) (id : string) (d : ProductDoc)
  (w : World) : World :=
  if negb (JS.truthy (p_category d)) then w
  else
    match save_answer env with
    | SaveOk t => if (t <? budget)%N then w else with_products (<[id := d]>) w
    | SaveFails _ _ => w
    end.

(** [router.get('/:id')]. *)
Definition get (env : Env) (req : Request) : M Response :=
  try_catch
    (if negb (isValid env (params_id req)) then
       mret (json 400 (Fields [("success", JBool false);
                               ("message", JStr "Invalid product ID format");
                               ("error", JStr "The provided product ID is not in the correct format")]))
     else
       found ← findById env products (params_id req);
       match found with
       | None =>
           mret (json 404 (Fields [("success", JBool false);
                                   ("message", JStr "Product not found");
                                   ("error", JStr "The requested product could not be found in the database")]))
       | Some product =>
           mret (json 200 (Fields [("success", JBool true);
                                   ("data", JProduct (params_id req) product)]))
       end)
    (λ error,
       console_error "Error fetching product:" ;;
       mret (json 500 (Fields [("success", JBool false);
                               ("message", JStr "Failed to fetch product")]))).

Definition find_page (category page limit : option string)
  : M (option (list (string * ProductDoc))) :=
  read (λ w, listing_slice p_createdAt page limit
               (selected p_category category (products w))).

Definition countDocuments (category : option string) : M nat :=
  read (λ w, size (selected p_category category (products w))).

(** [router.get('/')]. *)
Definition list_handler (req : Request) : M (option Response) :=
  try_catch
    ('(products, total) ← Promise_all2
         (find_page (query_category req) (query_page req) (query_limit req))
         (countDocuments (query_category req));
     match products with
     | None => mret None
     | Some products =>
         mret (Some (json 200 (Fields [
           ("products", JProducts products);
           ("currentPage", parseInt_json (field_parseInt (query_page req) 1));
           ("totalPages", JNum (listing_totalPages (query_limit req) total));
           ("totalProducts", JNum (JS.Fin (inject_Z (Z.of_nat total))))])))
     end)
    (λ error,
       console_error "Error fetching products:" ;;
       mret (Some (json 500 (message_body "Failed to fetch products")))).

(** [new Product({...})] of [router.post('/')]. *)
Definition new_product (env : Env) (b : ProductBody) (files : list File) : ProductDoc :=
  {| p_title := default EmptyString (title b);
     p_tagline := tagline b;
     p_price := JS.parseFloat (default EmptyString (price b));
     p_category := category b;
     p_description := default EmptyString (description b);
     p_features := comma_list (features b);
     p_specifications := comma_list (specifications b);
     p_tags := comma_list (tags b);
     p_images := map filename files;
     p_createdAt := now env;
     p_updatedAt := now env |}.

(** The handler of [router.post('/')]. *)
Definition create (env : Env) (b : ProductBody) (files : list File) : M Response :=
  let uploadedFiles := files in
  try_catch
    (let images := map filename uploadedFiles in
     let product :=
       {| p_title := default EmptyString (title b);
          p_tagline := tagline b;
          p_price := JS.parseFloat (default EmptyString (price b));
          p_category := category b;
          p_description := default EmptyString (description b);
          p_features := comma_list (features b);
          p_specifications := comma_list (specifications b);
          p_tags := comma_list (tags b);
          p_images := images;
          p_createdAt := now env;
          p_updatedAt := now env |} in
     savedProduct ← save env (Some timeoutMs) (fresh_id env) product;
     mret (json 201 (Whole (JProduct (fresh_id env) savedProduct))))
    (λ error,
       for_each uploadedFiles (λ file,
         let filePath := Path.join uploadDir (filename file) in
         try_catch (unlink filePath)
                   (λ unlinkError, console_error "Error deleting file:")) ;;
       console_error "Product creation error:" ;;
       let statusCode :=
         if String.eqb (err_message error) "Database operation timed out"
         then 504 else 500 in
       mret (json statusCode
               (message_body (if JS.truthy (Some (err_message error))
                              then err_message error
                              else "Failed to create product")))).

Definition post (env : Env) (req : Request) : M Response :=
  route (upload (parts req)) (validateProduct (req_body req))
        (create env (req_body req)).

(** [router.delete('/:id')]. *)
Definition delete (env : Env) (req : Request) : M Response :=
  try_catch
    (if negb (isValid env (params_id req)) then
       mret (json 400 (Fields [("success", JBool false);
                               ("message", JStr "Invalid product ID format")]))
     else
       found ← findById env products (params_id req);
       match found with
       | None =>
           mret (json 404 (Fields [("success", JBool false);
                                   ("message", JStr "Product not found")]))
       | Some product =>
           for_each (p_images product) (λ imagePath,
             let fullPath := Path.join public_dir imagePath in
             try_catch
               (present ← existsSync fullPath;
                if present : bool then unlink fullPath else mret ())
               (λ unlinkError, console_error "Error deleting image file:")) ;;
           effect (with_products (base.delete (params_id req))) ;;
           mret (json 200 (Fields [("success", JBool true);
                                   ("message", JStr "Product deleted successfully")]))
       end)
    (λ error,
       console_error "Error deleting product:" ;;
       mret (json 500 (Fields [("success", JBool false);
                               ("message", JStr "Failed to delete product")]))).

(** The handler of [router.put('/:id')]. *)
Definition update (env : Env) (id : string) (b : ProductBody) (files : list File)
  : M Response :=
  try_catch
    (found ← findById env products id;
     match found with
     | None => mret (json 404 (message_body "Product not found"))
     | Some product =>
         let newImages := map filename files in
         let updatedImages := p_images product ++ newImages in
         let product :=
           {| p_title := default EmptyString (title b);
              p_tagline := tagline b;
              p_price := JS.parseFloat (default EmptyString (price b));
              p_category := category b;
              p_description := default EmptyString (description b);
              p_features := comma_list (features b);
              p_specifications := comma_list (specifications b);
              p_tags := comma_list (tags b);
              p_images := updatedImages;
              p_createdAt := p_createdAt product;
              p_updatedAt := now env |} in
         updatedProduct ← save env None id product;
         mret (json 200 (Whole (JProduct id updatedProduct)))
     end)
    (λ error,
       console_error "Error updating product:" ;;
       mret (json 500
               (message_body (if JS.truthy (Some (err_message error))
                              then err_message error
                              else "Failed to update product")))).

Definition put (env : Env) (req : Request) : M Response :=
  route (upload (parts req)) (validateProduct (req_body req))
        (update env (params_id req) (req_body req)).

End Products.

(** ** The product router with images on Cloudinary *)

Module CloudProducts.

(** [req.files] is what the upload middleware of [config/cloudinary]
    leaves; that middleware is a parameter of the routes. *)
Record Request := {
  params_id : string;
  req_body : ProductBody
}.

Definition save (env : Env) (id : string) (d : CloudProductDoc)
  : M CloudProductDoc :=
  if negb (JS.truthy (c_category d)) then
    throw (mkError "ValidationError"
             "Product validation failed: category: Path `category` is required.")
  else
    match save_answer env with
    | SaveOk _ => effect (with_cloud_products (<[id := d]>)) ;; mret d
    | SaveFails _ e => throw e
    end.

(** [router.get('/:id')]. *)
Definition get (env : Env) (req : Request) : M Response :=
  try_catch
    (if negb (isValid env (params_id req)) then
       mret (json 400 (Fields [("success", JBool false);
                               ("message", JStr "Invalid product ID format");
                               ("error", JStr "The provided product ID is not in the correct format")]))
     else
       found ← findById env cloud_products (params_id req);
       match found with
       | None =>
           mret (json 404 (Fields [("success", JBool false);
                                   ("message", JStr "Product not found");
                                   ("error", JStr "The requested product could not be found in the database")]))
       | Some product =>
           mret (json 200 (Fields [("success", JBool true);
                                   ("data", JCloudProduct (params_id req) product)]))
       end)
    (λ error,
       console_error "Error fetching product:" ;;
       mret (json 500 (Fields [("success", JBool false);
                               ("message", JStr "Failed to fetch product")]))).

(** One entry of [deletePromises] in the delete route:
    [destroy(id).catch(log)] for an image with an identifier. *)
Definition destroy_image (env : Env) (image : CloudImage) : M unit :=
  if JS.truthy (public_id image) then
    let id := default EmptyString (public_id image) in
    try_catch (cloud_destroy env id)
              (λ error, console_error ("Error deleting image " +:+ id +:+ ":"))
  else mret ().

(** [router.delete('/:id')].  The calls of [deletePromises] are issued
    together and none depends on another; they are run in the order of
    the list. *)
Definition delete (env : Env) (req : Request) : M Response :=
  try_catch
    (found ← findById env cloud_products (params_id req);
     match found with
     | None => mret (json 404 (message_body "Product not found"))
     | Some product =>
         for_each (c_images product) (destroy_image env) ;;
         effect (with_cloud_products (base.delete (params_id req))) ;;
         mret (json 200 (Fields [("success", JBool true);
                                 ("message", JStr "Product deleted successfully")]))
     end)
    (λ error,
       console_error "Error deleting product:" ;;
       mret (json 500 (Fields [("success", JBool false);
                               ("message", JStr "Failed to delete product");
                               ("error", JStr (err_message error))]))).

(** One entry of [deletePromises] in the update route.  The image is
    looked up in the images the record has when the calls are issued,
    [original]; the reference is filtered out of the current images when
    the call has succeeded, and a failure is logged. *)
Definition delete_marked_one (env : Env) (original : list CloudImage)
  (images : list CloudImage) (imageId : string) : M (list CloudImage) :=
  match find (λ img, bool_decide (public_id img = Some imageId)) original with
  | Some image =>
      try_catch
        (cloud_destroy env (default EmptyString (public_id image)) ;;
         mret (filter (λ img, public_id img ≠ Some imageId) images))
        (λ error,
           console_error ("Error deleting image " +:+ imageId +:+ ":") ;;
           mret images)
  | None => mret images
  end.

Fixpoint delete_marked_from (env : Env) (original images : list CloudImage)
  (ids : list string) : M (list CloudImage) :=
  match ids with
  | [] => mret images
  | imageId :: rest =>
      images' ← delete_marked_one env original images imageId;
      delete_marked_from env original images' rest
  end.

(** [if (deletedImages && Array.isArray(deletedImages)) { ... }]. *)
Definition delete_marked (env : Env) (deleted : option (string + list string))
  (images : list CloudImage) : M (list CloudImage) :=
  match deleted with
  | Some (inr ids) => delete_marked_from env images images ids
  | _ => mret images
  end.

(** [await Promise.all(files.map(upload))]: every upload is started;
    the first rejection, if any, is what the await throws. *)
Fixpoint upload_each (env : Env) (sources : list string)
  : M (list (Error + CloudImage)) :=
  match sources with
  | [] => mret []
  | s :: rest =>
      r ← try_catch (img ← cloud_upload env s; mret (inr img))
                    (λ e, mret (inl e));
      rs ← upload_each env rest;
      mret (r :: rs)
  end.

Fixpoint all_or_first_error (rs : list (Error + CloudImage))
  : Error + list CloudImage :=
  match rs with
  | [] => inr []
  | inl e :: _ => inl e
  | inr img :: rest =>
      match all_or_first_error rest with
      | inl e => inl e
      | inr imgs => inr (img :: imgs)
      end
  end.

Definition upload_all (env : Env) (sources : list string) : M (list CloudImage) :=
  rs ← upload_each env sources;
  match all_or_first_error rs with
  | inl e => throw e
  | inr imgs => mret imgs
  end.

(** [v ? JSON.parse(v) : []]. *)
Definition json_list (env : Env) (v : option string) : M (list string) :=
  if JS.truthy v then
    match JSON_parse env (default EmptyString v) with
    | inl e => throw e
    | inr l => mret l
    end
  else mret [].

(** The handler of [router.put('/:id')]. *)
Definition update (env : Env) (id : string) (b : ProductBody) (files : list File)
  : M Response :=
  try_catch
    (found ← findById env cloud_products id;
     match found with
     | None => mret (json 404 (message_body "Product not found"))
     | Some product =>
         images ← delete_marked env (deletedImages b) (c_images product);
         images ← match files with
                  | [] => mret images
                  | _ :: _ =>
                      newImages ← upload_all env (map path files);
                      mret (images ++ newImages)
                  end;
         features ← json_list env (features b);
         specifications ← json_list env (specifications b);
         tags ← json_list env (tags b);
         let product :=
           {| c_title := default EmptyString (title b);
              c_tagline := tagline b;
              c_price := JS.parseFloat (default EmptyString (price b));
              c_category := category b;
              c_description := default EmptyString (description b);
              c_features := features;
              c_specifications := specifications;
              c_tags := tags;
              c_images := images;
              c_createdAt := c_createdAt product;
              c_updatedAt := now env |} in
         updatedProduct ← save env id product;
         mret (json 200 (Fields [("success", JBool true);
                                 ("message", JStr "Product updated successfully");
                                 ("data", JCloudProduct id updatedProduct)]))
     end)
    (λ error,
       console_error "Error updating product:" ;;
       mret (json 500 (Fields [("success", JBool false);
                               ("message", JStr "Failed to update product");
                               ("error", JStr (err_message error))]))).

Definition put (upload : M (list File)) (env : Env) (req : Request) : M Response :=
  route upload (validateProduct (req_body req))
        (update env (params_id req) (req_body req)).

(** The handler of [router.post('/')].  Every file of the request is
    uploaded to Cloudinary from its [path]; when anything fails, a destroy
    is tried for the [filename] of every file of the request. *)
Definition create (env : Env) (b : ProductBody) (files : list File) : M Response :=
  try_catch
    (uploadedImages ← upload_all env (map path files);
     let images := uploadedImages in
     features ← json_list env (features b);
     specifications ← json_list env (specifications b);
     tags ← json_list env (tags b);
     let product :=
       {| c_title := default EmptyString (title b);
          c_tagline := tagline b;
          c_price := JS.parseFloat (default EmptyString (price b));
          c_category := category b;
          c_description := default EmptyString (description b);
          c_features := features;
          c_specifications := specifications;
          c_tags := tags;
          c_images := images;
          c_createdAt := now env;
          c_updatedAt := now env |} in
     product ← save env (fresh_id env) product;
     mret (json 201 (Fields [("success", JBool true);
                             ("message", JStr "Product created successfully");
                             ("data", JCloudProduct (fresh_id env) product)])))
    (λ error,
       for_each files (λ file,
         try_catch (cloud_destroy env (filename file))
                   (λ deleteError, console_error "Error deleting uploaded image:")) ;;
       console_error "Error creating product:" ;;
       mret (json 500 (Fields [("success", JBool false);
                               ("message", JStr "Failed to create product");
                               ("error", JStr (err_message error))]))).

Definition post (upload : M (list File)) (env : Env) (req : Request) : M Response :=
  route upload (validateProduct (req_body req))
        (create env (req_body req)).

End CloudProducts.

(** ** The enquiry mailer *)

Module Enquiry.

Record ReqBody := {
  name : option string;
  email : option string;
  phone : option string;
  companyName : option string;
  message : option string;
  productName : option string;
  to : option string;
  formType : option string
}.

(** A field inside a template literal: [undefined] prints as its name. *)
Definition show (v : option string) : string := default "undefined" v.

(** [a || b] on fields. *)
Definition or_else (v : option string) (d : string) : string :=
  if JS.truthy v then default EmptyString v else d.

Definition nl : string := String (ascii_of_nat 10) EmptyString.

Definition html (b : ReqBody) : string :=
  nl +:+ "        <h2>New Enquiry Form Submission</h2>" +:+
  nl +:+ "        <p><strong>Name:</strong> " +:+ show (name b) +:+ "</p>" +:+
  nl +:+ "        <p><strong>Email:</strong> " +:+ show (email b) +:+ "</p>" +:+
  nl +:+ "        <p><strong>Phone:</strong> " +:+ show (phone b) +:+ "</p>" +:+
  nl +:+ "        <p><strong>Company Name:</strong> "
     +:+ or_else (companyName b) "Not provided" +:+ "</p>" +:+
  nl +:+ "        <p><strong>Message:</strong> " +:+ show (message b) +:+ "</p>" +:+
  nl +:+ "        "
     +:+ (if JS.truthy (productName b)
          then "<p><strong>Product:</strong> " +:+ show (productName b) +:+ "</p>"
          else EmptyString) +:+
  nl +:+ "      ".

Definition subject (b : ReqBody) : string :=
  if bool_decide (formType b = Some "contact") then "New Contact Form Submission"
  else if JS.truthy (productName b)
       then "New Enquiry for " +:+ show (productName b)
       else "New Enquiry".

Definition sendMail (env : Env) (opts : MailOptions) : M string :=
  effect (emit (SendMail opts)) ;;
  match sendMail_answer env with
  | inl e => throw e
  | inr messageId => mret messageId
  end.

Definition missing (b : ReqBody) : bool :=
  negb (JS.truthy (name b)) || negb (JS.truthy (email b))
  || negb (JS.truthy (phone b)) || negb (JS.truthy (message b)).

Definition Z_toString (z : Z) : string :=
  if (z <? 0)%Z then "-" +:+ Number_toString (Z.to_N (- z))
  else Number_toString (Z.to_N z).

Definition errorMessage (error : Error) : string :=
  if bool_decide (err_code error = Some "EAUTH") then
    "Email authentication failed. Please check credentials."
  else if bool_decide (err_code error = Some "ESOCKET") then
    "Network error while sending email."
  else match err_responseCode error with
       | Some 0%Z | None => "Failed to submit form"
       | Some c => "SMTP Error: " +:+ show (err_response error)
                     +:+ " (Code: " +:+ Z_toString c +:+ ")"
       end.

Definition optional_field (k : string) (v : option string) : list (string * Json) :=
  match v with
  | Some s => [(k, JStr s)]
  | None => []
  end.

(** [router.post('/')]. *)
Definition post (env : Env) (b : ReqBody) : M Response :=
  try_catch
    (if bool_decide (formType b = Some "contact") && missing b then
       mret (json 400 (message_body "Required fields are missing for contact form"))
     else if bool_decide (formType b = Some "enquiry") && missing b then
       mret (json 400 (message_body "Required fields are missing"))
     else if negb (JS.truthy (EMAIL_USER env)) || negb (JS.truthy (EMAIL_PASSWORD env)) then
       console_error "Email configuration missing" ;;
       mret (json 500 (message_body "Email service not configured properly"))
     else
       let mailOptions :=
         {| mail_from := default EmptyString (EMAIL_USER env);
            mail_to := or_else (to b) "info@bombaygifthouse.com";
            mail_subject := subject b;
            mail_html := html b |} in
       info ← sendMail env mailOptions;
       console_log "Email sent successfully:" ;;
       mret (json 200 (message_body "Form submitted successfully")))
    (λ error,
       console_error "Error sending email:" ;;
       console_error "Error details:" ;;
       mret (json 500 (Fields ([("message", JStr (errorMessage error));
                                ("error", JStr (err_message error))]
                               ++ optional_field "code" (err_code error))))).

End Enquiry.

(** ** The product router whose upload middleware stores on Cloudinary *)

Module UploadedProducts.

(** The upload middleware of [config/cloudinary] has put the files on
    Cloudinary: [file.path] is the address of an image and [file.filename]
    its identifier.  [upload.destroy] belongs to that middleware and is a
    parameter of the delete route. *)

(** The handler of [router.post('/')]. *)
Definition create (env : Env) (b : ProductBody) (files : list File) : M Response :=
  try_catch
    (let images := map (λ file, {| url := Some (path file);
                                   public_id := Some (filename file) |}) files in
     features ← CloudProducts.json_list env (features b);
     specifications ← CloudProducts.json_list env (specifications b);
     tags ← CloudProducts.json_list env (tags b);
     let product :=
       {| c_title := default EmptyString (title b);
          c_tagline := tagline b;
          c_price := JS.parseFloat (default EmptyString (price b));
          c_category := category b;
          c_description := default EmptyString (description b);
          c_features := features;
          c_specifications := specifications;
          c_tags := tags;
          c_images := images;
          c_createdAt := now env;
          c_updatedAt := now env |} in
     product ← CloudProducts.save env (fresh_id env) product;
     mret (json 201 (Fields [("success", JBool true);
                             ("message", JStr "Product created successfully");
                             ("data", JCloudProduct (fresh_id env) product)])))
    (λ error,
       console_error "Error creating product:" ;;
       mret (json 500 (Fields [("success", JBool false);
                               ("message", JStr "Failed to create product")]))).

(** [router.delete('/:id')]: the images are destroyed one after the
    other, each call awaited, none guarded. *)
Definition delete (destroy : option string → M unit) (env : Env)
  (req : CloudProducts.Request) : M Response :=
  try_catch
    (if negb (isValid env (CloudProducts.params_id req)) then
       mret (json 400 (Fields [("success", JBool false);
                               ("message", JStr "Invalid product ID format")]))
     else
       found ← findById env cloud_products (CloudProducts.params_id req);
       match found with
       | None =>
           mret (json 404 (Fields [("success", JBool false);
                                   ("message", JStr "Product not found")]))
       | Some product =>
           for_each (c_images product) (λ image, destroy (public_id image)) ;;
           effect (with_cloud_products (base.delete (CloudProducts.params_id req))) ;;
           mret (json 200 (Fields [("success", JBool true);
                                   ("message", JStr "Product deleted successfully")]))
       end)
    (λ error,
       console_error "Error deleting product:" ;;
       mret (json 500 (Fields [("success", JBool false);
                               ("message", JStr "Failed to delete product")]))).

End UploadedProducts.

(** ** The sitemap *)

Module Sitemap.

(** An entry handed to the sitemap stream. *)
Record Link := {
  url : string;
  changefreq : string;
  priority : Q;
  lastmod : option string
}.

(** What [Model.find({}, '_id updatedAt')] returns of a document. *)
Record Doc := {
  _id : string;
  updatedAt : option Z
}.

(** What the surroundings of the generator decide: the process
    environment, the answers of the two queries, the text of a date and
    the XML the sitemap stream makes of a host name and the links. *)
Record Env := {
  BASE_URL : option string;
  find_products : Error + list Doc;
  find_blogs : Error + list Doc;
  toISOString : Z → string;
  streamToPromise : string → list Link → Error + string
}.

Definition baseUrl (env : Env) : string :=
  if JS.truthy (BASE_URL env) then default EmptyString (BASE_URL env)
  else "https://bngifthouse.com".

Definition staticPages : list Link :=
  [ {| url := "/"; changefreq := "daily"; priority := 1; lastmod := None |};
    {| url := "/shop"; changefreq := "daily"; priority := 9 # 10; lastmod := None |};
    {| url := "/about"; changefreq := "monthly"; priority := 7 # 10; lastmod := None |};
    {| url := "/contact"; changefreq := "monthly"; priority := 7 # 10; lastmod := None |};
    {| url := "/blog"; changefreq := "weekly"; priority := 8 # 10; lastmod := None |} ].

Definition categories : list string :=
  [ "gift-hampers"; "diwali-gifts"; "tech-gadgets"; "home-living"; "bags-luggage";
    "joining-kits"; "gift-combo-sets"; "logo-printed-tshirts"; "customized-gifts";
    "drinkware" ].

Definition categoryPages : list Link :=
  map (λ category,
         {| url := "/shop?category=" +:+ category; changefreq := "daily";
            priority := 8 # 10; lastmod := None |}) categories.

(** Reading a property of [undefined]. *)
Definition TypeError : Error :=
  {| err_name := "TypeError";
     err_message := "Cannot read properties of undefined (reading 'toISOString')";
     err_code := None; err_response := None; err_responseCode := None |}.

(** [docs.map(doc => ({ url, changefreq, priority, lastmod:
    doc.updatedAt.toISOString() }))]: the first document without an
    [updatedAt] makes the callback throw. *)
Fixpoint pages (env : Env) (prefix freq : string) (prio : Q) (docs : list Doc)
  : Error + list Link :=
  match docs with
  | [] => inr []
  | doc :: rest =>
      match updatedAt doc with
      | None => inl TypeError
      | Some t =>
          match pages env prefix freq prio rest with
          | inl e => inl e
          | inr links =>
              inr ({| url := prefix +:+ _id doc; changefreq := freq;
                      priority := prio; lastmod := Some (toISOString env t) |} :: links)
          end
      end
  end.

Definition settle {A} (r : Error + A) : M A :=
  match r with
  | inl e => throw e
  | inr a => mret a
  end.

(** [generateSitemap()].  The promise of the stream is returned without
    an [await]: when it rejects, the rejection passes by the [catch] of the
    function, which sees the failures of the queries and of the callbacks
    only. *)
Definition generateSitemap (env : Env) : M string :=
  links ← try_catch
    (products ← settle (find_products env);
     blogs ← settle (find_blogs env);
     productPages ← settle (pages env "/products/" "weekly" (9 # 10) products);
     blogPages ← settle (pages env "/blog/" "monthly" (7 # 10) blogs);
     mret (staticPages ++ categoryPages ++ productPages ++ blogPages))
    (λ error, console_error "Error generating sitemap:" ;; throw error);
  settle (streamToPromise env (baseUrl env) links).

(** [router.get('/sitemap.xml')]. *)
Definition get (env : Env) : M Response :=
  try_catch
    (sitemap ← generateSitemap env;
     mret (json 200 (Whole (JStr sitemap))))
    (λ error,
       console_error "Error serving sitemap:" ;;
       mret (json 500 (Whole (JStr "Error generating sitemap")))).

(** The links of a sitemap whose documents all have a date. *)
Definition links_of (env : Env) (products blogs : list (string * Z)) : list Link :=
  staticPages ++ categoryPages
  ++ map (λ d, {| url := "/products/" +:+ fst d; changefreq := "weekly";
                  priority := 9 # 10; lastmod := Some (toISOString env (snd d)) |}) products
  ++ map (λ d, {| url := "/blog/" +:+ fst d; changefreq := "monthly";
                  priority := 7 # 10; lastmod := Some (toISOString env (snd d)) |}) blogs.

(** A document with a date. *)
Definition dated (d : string * Z) : Doc := {| _id := fst d; updatedAt := Some (snd d) |}.

(** Surroundings with one product and one blog, and a stream that lists
    the absolute addresses. *)
Definition sample : Env :=
  {| BASE_URL := None;
     find_products := inr [dated ("65a000000000000000000001", 1700000000000%Z)];
     find_blogs := inr [dated ("65a0000000000000000000b1", 1690000000000%Z)];
     toISOString := λ t, if (t =? 1700000000000)%Z then "2023-11-14T22:13:20.000Z"
                         else "2023-07-22T04:26:40.000Z";
     streamToPromise := λ hostname links,
       inr (String.concat " " (map (λ l, hostname +:+ url l) links)) |}.

End Sitemap.

(** ** Static files below [/uploads] *)

Module Static.

(** The object literal [contentTypes]. *)
Definition contentTypes : list (string * string) :=
  [ ("jpg", "image/jpeg"); ("jpeg", "image/jpeg"); ("png", "image/png");
    ("gif", "image/gif"); ("webp", "image/webp") ].

(** The names an object literal inherits from [Object.prototype]. *)
Definition Object_prototype : list string :=
  [ "constructor"; "__defineGetter__"; "__defineSetter__"; "hasOwnProperty";
    "__lookupGetter__"; "__lookupSetter__"; "isPrototypeOf";
    "propertyIsEnumerable"; "toString"; "valueOf"; "__proto__";
    "toLocaleString" ].

(** [contentTypes[key]]: a text of the literal, a member inherited from
    the prototype (a function or an object, neither a text), or
    [undefined]. *)
Inductive Member :=
| Own (value : string)
| Inherited (key : string)
| Undefined.

Definition member (key : string) : Member :=
  match List.find (λ kv, String.eqb (fst kv) key) contentTypes with
  | Some kv => Own (snd kv)
  | None =>
      if existsb (String.eqb key) Object_prototype then Inherited key else Undefined
  end.

(** [path.split('.').pop().toLowerCase()]. *)
Definition ext (path : string) : string :=
  toLowerCase (default EmptyString (last (split_on "." path))).

(** [setHeaders]: what [Content-Type] is set to, if it is set.  Every
    text of the literal and every inherited member is truthy. *)
Definition setHeaders (path : string) : option Member :=
  match member (ext path) with
  | Undefined => None
  | m => Some m
  end.

End Static.

(** ** Reading the result of a request *)

Definition response {A} (r : Outcome A * World) : option A :=
  match fst r with
  | Ok a => Some a
  | Thrown _ => None
  end.

(** The request was answered with this status code. *)
Definition answered (r : Outcome Response * World) (code : nat) : Prop :=
  status <$> response r = Some code.

Definition world_after {A} (r : Outcome A * World) : World := snd r.



(** ** Concrete requests used to exercise the statements *)

Module Sample.

(** Identifiers of 24 hexadecimal digits. *)
Definition hex24 (s : string) : bool :=
  Nat.eqb (String.length s) 24
  && forallb (λ c, match JS.hexdigit c with Some _ => true | None => false end)
             (list_ascii_of_string s).

Definition env : Env :=
  {| now := 1700000000000;
     fresh_id := "65a000000000000000000001";
     isValid := hex24;
     save_answer := SaveOk 5;
     destroy_rejects := λ _, None;
     upload_answer := λ s, inr ("https://res.cloudinary.com/" +:+ s, "products/" +:+ s);
     JSON_parse := λ _, inr [];
     EMAIL_USER := Some "shop@example.com";
     EMAIL_PASSWORD := Some "secret";
     sendMail_answer := inr "message-1" |}.

(** The same surroundings with a datastore that rejects the save. *)
Definition env_save_fails : Env :=
  {| now := now env; fresh_id := fresh_id env; isValid := isValid env;
     save_answer := SaveFails 5 (mkError "MongoServerError" "connection lost");
     destroy_rejects := destroy_rejects env; upload_answer := upload_answer env;
     JSON_parse := JSON_parse env; EMAIL_USER := EMAIL_USER env;
     EMAIL_PASSWORD := EMAIL_PASSWORD env; sendMail_answer := sendMail_answer env |}.

(** The same surroundings with a datastore that answers after 31 seconds. *)
Definition env_save_slow : Env :=
  {| now := now env; fresh_id := fresh_id env; isValid := isValid env;
     save_answer := SaveOk 31000;
     destroy_rejects := destroy_rejects env; upload_answer := upload_answer env;
     JSON_parse := JSON_parse env; EMAIL_USER := EMAIL_USER env;
     EMAIL_PASSWORD := EMAIL_PASSWORD env; sendMail_answer := sendMail_answer env |}.

Definition empty_world : World :=
  {| disk := ∅; locked := ∅; cloud := ∅; blogs := ∅; products := ∅;
     cloud_products := ∅; events := [] |}.

Definition photo : Part :=
  {| originalname := "Photo.PNG"; mimetype := "image/png";
     bytes := 1000; stamp := 1700000000000 |}.

Definition product_body (t p d : string) : ProductBody :=
  {| title := Some t; tagline := None; price := Some p;
     category := Some "gifts"; description := Some d;
     features := Some "boxed, engraved"; specifications := None;
     tags := None; deletedImages := None |}.

Definition blog_body (t c : string) : Blog.ReqBody :=
  {| Blog.title := Some t; Blog.content := Some c; Blog.category := None |}.

Definition product_request (id : string) (b : ProductBody) (ps : list Part)
  : Products.Request :=
  {| Products.params_id := id; Products.req_body := b; Products.parts := ps;
     Products.query_category := None; Products.query_page := None;
     Products.query_limit := None |}.

Definition blog_request (id : string) (b : Blog.ReqBody) (ps : list Part)
  : Blog.Request :=
  {| Blog.params_id := id; Blog.req_body := b; Blog.parts := ps;
     Blog.query_page := None; Blog.query_limit := None |}.

End Sample.

(** The query field, used as a number and read through [parseInt], is the
    integer [z]; [d] is the default of the destructuring. *)
Definition reads_as (v : option string) (d z : Z) : Prop :=
  (∃ q, field_number v (inject_Z d) = JS.Fin q ∧ (q == inject_Z z)%Q)
  ∧ field_parseInt v d = Some z.

Module Catalogue.

(** Fifteen products, created one second apart. *)
Definition product (n : nat) : ProductDoc :=
  {| p_title := "Gift " +:+ Number_toString (N.of_nat n);
     p_tagline := None;
     p_price := JS.Fin 10;
     p_category := Some "gifts";
     p_description := "A boxed gift";
     p_features := []; p_specifications := []; p_tags := [];
     p_images := [];
     p_createdAt := 1700000000000 + 1000 * Z.of_nat n;
     p_updatedAt := 1700000000000 + 1000 * Z.of_nat n |}.

Definition entry (n : nat) : string * ProductDoc :=
  ("65a0000000000000000000" +:+ Number_toString (N.of_nat (10 + n)), product n).

Definition world : World :=
  {| disk := ∅; locked := ∅; cloud := ∅; blogs := ∅;
     products := list_to_map (entry <$> seq 1 15);
     cloud_products := ∅; events := [] |}.

Definition second_page : Products.Request :=
  {| Products.params_id := EmptyString;
     Products.req_body := Sample.product_body "abc" "1" "0123456789";
     Products.parts := [];
     Products.query_category := None;
     Products.query_page := Some "2";
     Products.query_limit := Some "10" |}.

(** Fifteen blog posts, written one second apart. *)
Definition post (n : nat) : BlogDoc :=
  {| b_title := "Post " +:+ Number_toString (N.of_nat n);
     b_content := "A post of the catalogue";
     b_category := Some "corporate";
     b_date := 1700000000000 + 1000 * Z.of_nat n;
     b_readTime := "1 min read";
     b_images := [] |}.

Definition post_entry (n : nat) : string * BlogDoc :=
  ("65b0000000000000000000" +:+ Number_toString (N.of_nat (10 + n)), post n).

Definition blog_world : World :=
  {| disk := ∅; locked := ∅; cloud := ∅;
     blogs := list_to_map (post_entry <$> seq 1 15);
     products := ∅; cloud_products := ∅; events := [] |}.


End Catalogue.

(** ** Running handlers *)

Ltac run_monad :=
  unfold try_catch, mbind, M_bind, mret, M_ret, effect, read, throw,
    console_error, console_log, existsSync in *;
  simpl in *.

(** ** Vocabulary of the explicit deletions of the Cloudinary update *)

(** The call for [id] is made: an image of the record carries it. *)
Definition marked_in (original : list CloudImage) (id : string) : Prop :=
  ∃ img, img ∈ original ∧ public_id img = Some id.

(** The call for [id] takes the image out of the record. *)
Definition taken_out (env : Env) (original : list CloudImage) (id : string) (img : CloudImage) : Prop :=
  marked_in original id ∧ destroy_rejects env id = None ∧ public_id img = Some id.

(** What one run of the deletions leaves untouched and what it adds. *)
Definition deletion_frame (env : Env) (ids : list string) (w w' : World) : Prop :=
  disk w' = disk w ∧ blogs w' = blogs w ∧ products w' = products w
  ∧ cloud_products w' = cloud_products w
  ∧ (∀ ev, ev ∈ events w → ev ∈ events w')
  ∧ (∀ x, x ∈ cloud w' → x ∈ cloud w)
  ∧ (∀ x, x ∈ cloud w → x ∉ cloud w' → x ∈ ids ∧ destroy_rejects env x = None).

(** A record with two Cloudinary images, and surroundings in which
    Cloudinary refuses to destroy the second. *)
Module Gallery.

Definition image (n : string) : CloudImage :=
  {| url := Some ("https://res.cloudinary.com/" +:+ n);
     public_id := Some ("products/" +:+ n) |}.

Definition product : CloudProductDoc :=
  {| c_title := "Gift box"; c_tagline := None; c_price := JS.Fin 10;
     c_category := Some "gifts"; c_description := "A boxed gift";
     c_features := []; c_specifications := []; c_tags := [];
     c_images := [image "a"; image "b"];
     c_createdAt := 1700000000000; c_updatedAt := 1700000000000 |}.

Definition id : string := "65a000000000000000000001".

Definition world : World :=
  {| disk := ∅; locked := ∅; cloud := {["products/a"; "products/b"]}; blogs := ∅; products := ∅;
     cloud_products := {[id := product]}; events := [] |}.

Definition env : Env :=
  {| now := 1700000360000; fresh_id := fresh_id Sample.env; isValid := isValid Sample.env;
     save_answer := SaveOk 5;
     destroy_rejects := λ x, if String.eqb x "products/b"
                             then Some (mkError "Error" "network down") else None;
     upload_answer := upload_answer Sample.env;
     JSON_parse := JSON_parse Sample.env; EMAIL_USER := None;
     EMAIL_PASSWORD := None; sendMail_answer := sendMail_answer Sample.env |}.

Definition body : ProductBody :=
  {| title := Some "Gift box"; tagline := None; price := Some "12.50";
     category := Some "gifts"; description := Some "A boxed gift";
     features := None; specifications := None; tags := None;
     deletedImages := Some (inr ["products/a"; "products/b"]) |}.

End Gallery.

(** ** Vocabulary of the upload lifecycle *)

(** The upload middleware takes the parts: there are at most [room] of
    them, the filter lets each through and none is above the size limit. *)
Definition accepted (st : Storage) (room : nat) (parts : list Part) : Prop :=
(length parts ≤ room)%nat
  ∧ Forall (λ p, fileFilter st p = None ∧ (bytes p ≤ fileSize st)%N) parts.

(** The entry of [req.files] for a part. *)
Definition stored_file (st : Storage) (p : Part) : File :=
  {| filename := name_for st p;
     path := Path.join (destination st) (name_for st p) |}.

(** The world once the files at [paths] have been written, in this order. *)
Definition written (paths : list string) (w : World) : World :=
  foldl (λ w p, with_disk (λ d, d ∪ {[p]}) (emit (WriteFile p) w)) w paths.

(** No event of [w'] that [w] does not have is a deletion on the disk. *)
Definition no_new_unlink (w w' : World) : Prop :=
  ∀ p, Unlink p ∈ events w' → Unlink p ∈ events w.

(** The collections and Cloudinary are as they were. *)
Definition same_collections (w w' : World) : Prop :=
  cloud w' = cloud w ∧ blogs w' = blogs w ∧ products w' = products w
  ∧ cloud_products w' = cloud_products w.

(** A loop over [paths] that unlinks what exists and logs [msg] for an
    unlink that fails takes [w] to [w']: the files among the paths are
    gone and nothing else is; an unlink is attempted on every path that
    has a file; a path that holds something unlink refuses is attempted,
    logged and left; a path that holds nothing gives no event. *)
Definition unlinked_best_effort (msg : string) (paths : list string) (w w' : World)
  : Prop :=
  disk w' = disk w ∖ list_to_set paths
  ∧ locked w' = locked w
  ∧ (∀ p, p ∈ paths → p ∈ disk w → Unlink p ∈ events w')
  ∧ (∀ p, p ∈ paths → p ∉ disk w → p ∈ locked w →
       Unlink p ∈ events w' ∧ ConsoleError msg ∈ events w')
  ∧ (∀ ev, ev ∈ events w' →
       ev ∈ events w
       ∨ (∃ p, p ∈ paths ∧ (p ∈ disk w ∨ p ∈ locked w) ∧ ev = Unlink p)
       ∨ (ev = ConsoleError msg ∧ ∃ p, p ∈ paths ∧ p ∈ locked w)).

(** The world of a product create once the save it raced has settled
    too; [w'] is the world as the handler has made it when the response
    is sent, without the write of a save that is still under way. *)
Definition settled (env : Env) (req : Products.Request) (w' : World) : World :=
  Products.late_save env timeoutMs (fresh_id env)
    (Products.new_product env (Products.req_body req)
       (stored_file Products.storage <$> Products.parts req)) w'.

(** Requests and worlds for the upload lifecycle. *)
Module Uploads.

(** A product form with a title of two characters and one image. *)
Definition short_title : Products.Request :=
  Sample.product_request EmptyString
    (Sample.product_body "ab" "12.50" "0123456789") [Sample.photo].

(** A valid blog form with one image. *)
Definition blog_form : Blog.ReqBody := Sample.blog_body "Gift ideas" "0123456789".

Definition new_blog : Blog.Request :=
  Sample.blog_request EmptyString blog_form [Sample.photo].

(** An update of a blog that does not exist. *)
Definition absent_id : string := "65a0000000000000000000ff".

Definition update_absent_blog : Blog.Request :=
  Sample.blog_request absent_id blog_form [Sample.photo].

(** A blog with the images a, b and c on the disk. *)
Definition blog_id : string := "65a0000000000000000000b1".

Definition old_blog : BlogDoc :=
  {| b_title := "Gift ideas"; b_content := "0123456789";
     b_category := Some "corporate"; b_date := 1690000000000;
     b_readTime := "1 min read";
     b_images := ["/uploads/a.png"; "/uploads/b.png"; "/uploads/c.png"] |}.

Definition blog_world : World :=
  {| disk := {["/app/public/uploads/a.png"; "/app/public/uploads/b.png";
               "/app/public/uploads/c.png"]};
     locked := ∅; cloud := ∅; blogs := {[blog_id := old_blog]}; products := ∅;
     cloud_products := ∅; events := [] |}.

Definition update_blog : Blog.Request :=
  Sample.blog_request blog_id blog_form [Sample.photo].

(** A product whose images are a and b, of which only a is on the disk
    where the delete route looks. *)
Definition product_id : string := "65a0000000000000000000c1".

Definition two_images : ProductDoc :=
  {| p_title := "Gift box"; p_tagline := None; p_price := JS.Fin 10;
     p_category := Some "gifts"; p_description := "A boxed gift";
     p_features := []; p_specifications := []; p_tags := [];
     p_images := ["a.png"; "b.png"];
     p_createdAt := 1690000000000; p_updatedAt := 1690000000000 |}.

Definition product_world : World :=
  {| disk := {["/app/public/a.png"]};
     locked := ∅; cloud := ∅; blogs := ∅; products := {[product_id := two_images]};
     cloud_products := ∅; events := [] |}.

Definition delete_product : Products.Request :=
  Sample.product_request product_id
    (Sample.product_body "abc" "1" "0123456789") [].








End Uploads.

(** ** Decimal texts *)

(** The value of a decimal numeral read from the left. *)
Fixpoint uint_value (u : Decimal.uint) (acc : N) : N :=
  match u with
  | Decimal.Nil => acc
  | Decimal.D0 u => uint_value u (acc * 10 + 0)
  | Decimal.D1 u => uint_value u (acc * 10 + 1)
  | Decimal.D2 u => uint_value u (acc * 10 + 2)
  | Decimal.D3 u => uint_value u (acc * 10 + 3)
  | Decimal.D4 u => uint_value u (acc * 10 + 4)
  | Decimal.D5 u => uint_value u (acc * 10 + 5)
  | Decimal.D6 u => uint_value u (acc * 10 + 6)
  | Decimal.D7 u => uint_value u (acc * 10 + 7)
  | Decimal.D8 u => uint_value u (acc * 10 + 8)
  | Decimal.D9 u => uint_value u (acc * 10 + 9)
  end%N.

(** A decimal digit. *)
Definition dec_digit (c : ascii) : Prop :=
  c ∈ ["0"; "1"; "2"; "3"; "4"; "5"; "6"; "7"; "8"; "9"]%char.

Definition uint_chars (u : Decimal.uint) : list ascii :=
  list_ascii_of_string (NilEmpty.string_of_uint u).


(** ** Vocabulary of the file names *)


(** A text made of decimal digits. *)
Definition numeral (s : string) : Prop :=
  Forall dec_digit (list_ascii_of_string s).




(** ** Vocabulary of the listings *)

(** The same request for another page. *)
Definition with_page (req : Products.Request) (page : option string)
  : Products.Request :=
  {| Products.params_id := Products.params_id req;
     Products.req_body := Products.req_body req;
     Products.parts := Products.parts req;
     Products.query_category := Products.query_category req;
     Products.query_page := page;
     Products.query_limit := Products.query_limit req |}.


(** The records in the body of a product listing. *)
Definition listed_products (r : Outcome (option Response) * World)
  : option (list (string * ProductDoc)) :=
  match fst r with
  | Ok (Some {| status := 200;
                body := Fields (("products", JProducts l) :: _) |}) => Some l
  | _ => None
  end.

(** A field of an object body. *)
Definition body_field (k : string) (r : Outcome (option Response) * World)
  : option Json :=
  match fst r with
  | Ok (Some {| body := Fields l |}) => snd <$> List.find (λ kv, String.eqb (fst kv) k) l
  | _ => None
  end.






(** ** Vocabulary of the creates and updates *)

(** How long the datastore takes to answer the save. *)
Definition latency (a : SaveAnswer) : N :=
  match a with
  | SaveOk t => t
  | SaveFails t _ => t
  end.

(** The paths of the files the upload middleware stores for the parts. *)
Definition stored_paths (st : Storage) (parts : list Part) : list string :=
  path <$> (stored_file st <$> parts).


(** ** Vocabulary of the enquiry mailer *)

(** The mails among the events, in the order they were handed to the
    relay. *)
Definition mails (l : list Event) : list MailOptions :=
  omap (λ ev, match ev with SendMail opts => Some opts | _ => None end) l.

(** The form is of a type that has required fields and lacks one. *)
Definition rejected_form (b : Enquiry.ReqBody) : bool :=
  (bool_decide (Enquiry.formType b = Some "contact")
   || bool_decide (Enquiry.formType b = Some "enquiry"))
  && Enquiry.missing b.

(** Both variables of the mail account are set and not empty. *)
Definition configured (env : Env) : bool :=
  JS.truthy (EMAIL_USER env) && JS.truthy (EMAIL_PASSWORD env).

(** The mail the handler makes of a form. *)
Definition mail_of (env : Env) (b : Enquiry.ReqBody) : MailOptions :=
  {| mail_from := default EmptyString (EMAIL_USER env);
     mail_to := Enquiry.or_else (Enquiry.to b) "info@bombaygifthouse.com";
     mail_subject := Enquiry.subject b;
     mail_html := Enquiry.html b |}.


(** ** Vocabulary of the life of a product *)

(** A request that addresses the record [id]. *)
Definition product_at (id : string) : Products.Request :=
  {| Products.params_id := id;
     Products.req_body :=
       {| title := None; tagline := None; price := None; category := None;
          description := None; features := None; specifications := None;
          tags := None; deletedImages := None |};
     Products.parts := [];
     Products.query_category := None; Products.query_page := None;
     Products.query_limit := None |}.

(** The reference was made by the storage of the product router. *)
Definition router_made (img : string) : Prop :=
  ∃ p : Part, img = name_for Products.storage p.

(** The file lies in the upload directory of the product router. *)
Definition in_upload_dir (f : string) : Prop :=
  ∃ name, f = Products.uploadDir +:+ "/" +:+ name.


(** ** Vocabulary of the Cloudinary create *)

(** What [cloudinary.uploader.upload] answers for a source, as the
    handler keeps it. *)
Definition uploaded_image (env : Env) (source : string) : Error + CloudImage :=
  match upload_answer env source with
  | inl e => inl e
  | inr (secure_url, id) => inr {| url := Some secure_url; public_id := Some id |}
  end.

(** The identifiers Cloudinary hands out for the uploads that succeed. *)
Definition uploaded_ids (env : Env) (sources : list string) : list string :=
  omap (λ s, match upload_answer env s with
             | inl _ => None
             | inr (_, id) => Some id
             end) sources.

(** The identifiers of the destroy calls among the events. *)
Definition destroyed (l : list Event) : list string :=
  omap (λ ev, match ev with CloudDestroy id => Some id | _ => None end) l.


(** ** Vocabulary of the comma-separated fields *)



(** ** Vocabulary of the sitemap *)

(** The addresses of the fixed pages of the sitemap. *)
Definition fixed_urls : list string :=
  Sitemap.url <$> (Sitemap.staticPages ++ Sitemap.categoryPages).

(** The queries and the stream answer, and every document has a date:
    [products] and [blogs] are the identifiers and dates read, [xml] the
    text made of the links. *)
Definition sitemap_made (env : Sitemap.Env) (products blogs : list (string * Z))
  (xml : string) : Prop :=
  Sitemap.find_products env = inr (Sitemap.dated <$> products)
  ∧ Sitemap.find_blogs env = inr (Sitemap.dated <$> blogs)
  ∧ Sitemap.streamToPromise env (Sitemap.baseUrl env)
      (Sitemap.links_of env products blogs) = inr xml.

(** ** Vocabulary of the static files *)

(** The text has no dot. *)
Definition dot_free (s : string) : Prop :=
  "."%char ∉ list_ascii_of_string s.

(** ** Vocabulary of the router whose middleware uploads *)

(** The images the files of a request stand for. *)
Definition uploaded_by_middleware (files : list File) : list CloudImage :=
  (λ file, {| url := Some (path file); public_id := Some (filename file) |}) <$> files.

(** A destroy that is the one of Cloudinary. *)
Definition destroy_on_cloudinary (env : Env) (id : option string) : M unit :=
  cloud_destroy env (default "undefined" id).

(** * Properties *)

(** ** Validation *)

Section Validation.

Lemma truthy_Some (s : string) : JS.truthy (Some s) = true ↔ s ≠ EmptyString.
Proof. destruct s; unfold JS.truthy; split; congruence. Qed.




Lemma validateProduct_rejects (b : ProductBody) (r : Response) :
  validateProduct b = Some r → status r = 400.
Proof.
  unfold validateProduct.
  repeat match goal with |- context [if ?c then _ else _] => destruct c end;
    intros [= <-]; reflexivity.
Qed.


Lemma validateBlogPost_rejects (b : Blog.ReqBody) (r : Response) :
  Blog.validateBlogPost b = Some r → status r = 400.
Proof.
  unfold Blog.validateBlogPost.
  repeat match goal with |- context [if ?c then _ else _] => destruct c end;
    intros [= <-]; reflexivity.
Qed.

End Validation.




(** ** The enquiry mailer *)

Lemma bool_decide_Some_ne (v : option string) (s : string) :
  v ≠ Some s → bool_decide (v = Some s) = false.
Proof. intros H. by apply bool_decide_eq_false. Qed.

(** C10.  The required-field check of the enquiry endpoint runs only for
    the form types [contact] and [enquiry]: the request is answered 400
    exactly when the form type is one of the two and a required field is
    missing.  For any other form type, or none, the request is never
    answered 400, whatever is missing, and once the mail account is
    configured the handler goes on to send the mail. *)
Theorem enquiry_formType_gate (env : Env) (b : Enquiry.ReqBody) (w : World) :
  (answered (Enquiry.post env b w) 400 ↔
     (Enquiry.formType b = Some "contact" ∨ Enquiry.formType b = Some "enquiry")
     ∧ Enquiry.missing b = true)
  ∧ (Enquiry.formType b ≠ Some "contact" → Enquiry.formType b ≠ Some "enquiry" →
     ¬ answered (Enquiry.post env b w) 400
     ∧ (JS.truthy (EMAIL_USER env) = true → JS.truthy (EMAIL_PASSWORD env) = true →
        SendMail {| mail_from := default EmptyString (EMAIL_USER env);
                    mail_to := Enquiry.or_else (Enquiry.to b) "info@bombaygifthouse.com";
                    mail_subject := Enquiry.subject b;
                    mail_html := Enquiry.html b |}
          ∈ events (world_after (Enquiry.post env b w)))).
Proof.
  assert (gate : answered (Enquiry.post env b w) 400 ↔
     (Enquiry.formType b = Some "contact" ∨ Enquiry.formType b = Some "enquiry")
     ∧ Enquiry.missing b = true).
  { unfold answered, response, Enquiry.post, Enquiry.sendMail. run_monad.
    destruct (decide (Enquiry.formType b = Some "contact")) as [C|C].
    - rewrite (bool_decide_eq_true_2 _ C).
      destruct (Enquiry.missing b); simpl; [split; [tauto | done] |].
      rewrite C. simpl.
      split; [| intros [_ ?]; done].
      destruct (negb (JS.truthy (EMAIL_USER env)) || negb (JS.truthy (EMAIL_PASSWORD env)));
        simpl; [done |].
      destruct (sendMail_answer env); simpl; done.
    - rewrite (bool_decide_Some_ne _ _ C). simpl.
      destruct (decide (Enquiry.formType b = Some "enquiry")) as [E|E].
      + rewrite (bool_decide_eq_true_2 _ E).
        destruct (Enquiry.missing b); simpl; [split; [tauto | done] |].
        split; [| intros [_ ?]; done].
        destruct (negb (JS.truthy (EMAIL_USER env)) || negb (JS.truthy (EMAIL_PASSWORD env)));
          simpl; [done |].
        destruct (sendMail_answer env); simpl; done.
      + rewrite (bool_decide_Some_ne _ _ E). simpl.
        split; [| intros [[?|?] _]; done].
        destruct (negb (JS.truthy (EMAIL_USER env)) || negb (JS.truthy (EMAIL_PASSWORD env)));
          simpl; [done |].
        destruct (sendMail_answer env); simpl; done. }
  split; [exact gate |].
  intros C E. split.
  - rewrite gate. intros [[?|?] _]; done.
  - intros HU HP.
    unfold world_after, Enquiry.post, Enquiry.sendMail. run_monad.
    rewrite (bool_decide_Some_ne _ _ C), (bool_decide_Some_ne _ _ E), HU, HP. simpl.
    destruct (sendMail_answer env); simpl;
      rewrite !elem_of_app, !list_elem_of_singleton; tauto.
Qed.

Lemma enquiry_formType_gate_witness :
  let b := {| Enquiry.name := None; Enquiry.email := None; Enquiry.phone := None;
              Enquiry.companyName := None; Enquiry.message := None;
              Enquiry.productName := None; Enquiry.to := None;
              Enquiry.formType := Some "newsletter" |} in
  Enquiry.missing b = true
  ∧ ¬ answered (Enquiry.post Sample.env b Sample.empty_world) 400
  ∧ SendMail {| mail_from := "shop@example.com";
                mail_to := "info@bombaygifthouse.com";
                mail_subject := "New Enquiry";
                mail_html := Enquiry.html b |}
      ∈ events (world_after (Enquiry.post Sample.env b Sample.empty_world)).
Proof.
  intros b.
  destruct (enquiry_formType_gate Sample.env b Sample.empty_world) as [_ H].
  destruct H as [H400 Hsend]; [done | done |].
  split; [reflexivity |]. split; [exact H400 |].
  apply Hsend; reflexivity.
Defined.

(** ** Identifiers that are not well formed *)

Section MalformedIdentifier.

Variables (env : Env) (w : World).

Lemma products_get_malformed (req : Products.Request) :
  isValid env (Products.params_id req) = false →
  answered (Products.get env req w) 400.
Proof. intros H. unfold answered, response, Products.get. run_monad. by rewrite H. Qed.

Lemma products_delete_malformed (req : Products.Request) :
  isValid env (Products.params_id req) = false →
  answered (Products.delete env req w) 400.
Proof. intros H. unfold answered, response, Products.delete. run_monad. by rewrite H. Qed.

Lemma cloud_get_malformed (req : CloudProducts.Request) :
  isValid env (CloudProducts.params_id req) = false →
  answered (CloudProducts.get env req w) 400.
Proof. intros H. unfold answered, response, CloudProducts.get. run_monad. by rewrite H. Qed.

(** The delete routes of the Cloudinary router and of the blog router
    query the datastore without the check; the cast fails and the catch
    clause answers. *)
Lemma cloud_delete_malformed (req : CloudProducts.Request) :
  isValid env (CloudProducts.params_id req) = false →
  answered (CloudProducts.delete env req w) 500.
Proof.
  intros H. unfold answered, response, CloudProducts.delete, findById.
  run_monad. by rewrite H.
Qed.

Lemma blog_delete_malformed (req : Blog.Request) :
  isValid env (Blog.params_id req) = false →
  answered (Blog.delete env req w) 500.
Proof.
  intros H. unfold answered, response, Blog.delete, findById.
  run_monad. by rewrite H.
Qed.

End MalformedIdentifier.

(** C8.  An identifier that is not well formed on [GET /:id] and
    [DELETE /:id] is to be answered 400.  The delete route of the
    Cloudinary product router answers 500 to [DELETE /not-an-id]. *)
Theorem cloud_delete_malformed_id :
  isValid Sample.env "not-an-id" = false
  ∧ answered
      (CloudProducts.delete Sample.env
         {| CloudProducts.params_id := "not-an-id";
            CloudProducts.req_body := Sample.product_body "abc" "1" "0123456789" |}
         Sample.empty_world)
      500.
Proof. split; reflexivity. Qed.

(** ** Paginated listing *)

Section Sorting.

Context {D : Type} (key : D → Z).

#[local] Instance newer_transitive : Transitive (newer key).
Proof. intros x y z. unfold newer. lia. Qed.

#[local] Instance newer_total : Total (newer key).
Proof. intros x y. unfold newer. lia. Qed.


Lemma newest_first_perm (docs : gmap string D) :
  newest_first key docs ≡ₚ map_to_list docs.
Proof. unfold newest_first. apply merge_sort_Permutation. Qed.

Lemma newest_first_length (docs : gmap string D) :
  length (newest_first key docs) = size docs.
Proof. rewrite newest_first_perm. apply length_map_to_list. Qed.

End Sorting.

Section Numbers.

Lemma as_integer_of_Z (q : Q) (z : Z) :
  (q == inject_Z z)%Q → as_integer q = Some z.
Proof.
  intros H. unfold as_integer. rewrite (Qred_complete _ _ H).
  rewrite Qcanon.Qred_identity by (simpl; apply Z.gcd_1_r).
  reflexivity.
Qed.

(** [Math.ceil(total / limit)] is the least number of pages of [l]
    records that hold [t] records. *)
Lemma ceil_div_pages (t l : Z) (ql : Q) :
  (1 ≤ l)%Z → (ql == inject_Z l)%Q →
  ∃ n : Z, JS.ceil (JS.div (inject_Z t) ql) = JS.Fin (inject_Z n)
           ∧ ((n - 1) * l < t ≤ n * l)%Z.
Proof.
  intros Hl Hq.
  assert (Hpos : (0 < ql)%Q).
  { rewrite Hq. change 0%Q with (inject_Z 0). rewrite <- Zlt_Qlt. lia. }
  assert (Hne : ¬ (ql == 0)%Q).
  { intros E. rewrite E in Hpos. by apply Qlt_irrefl in Hpos. }
  unfold JS.div.
  destruct (Qeq_bool ql 0) eqn:E; [apply Qeq_bool_iff in E; done |].
  simpl. exists (Qceiling (inject_Z t / ql)). split.
  - do 2 f_equal. apply Qceiling_comp, Qred_correct.
  - pose proof (Qle_ceiling (inject_Z t / ql)) as Hup.
    pose proof (Qceiling_lt (inject_Z t / ql)) as Hlo.
    set (n := Qceiling (inject_Z t / ql)) in *.
    apply (Qmult_le_r _ _ ql Hpos) in Hup.
    apply (Qmult_lt_r _ _ ql Hpos) in Hlo.
    assert (Hd : (inject_Z t / ql * ql == inject_Z t)%Q).
    { unfold Qdiv. rewrite <- Qmult_assoc, (Qmult_comm (/ ql)), Qmult_inv_r by done.
      apply Qmult_1_r. }
    rewrite Hd, Hq, <- inject_Z_mult in Hup, Hlo.
    rewrite <- Zle_Qle in Hup. rewrite <- Zlt_Qlt in Hlo. lia.
Qed.

Lemma skip_limit_page {A} (s n : Z) (l : list A) :
  (0 ≤ s)%Z → (1 ≤ n)%Z →
  skip_limit s n l = Some (take (Z.to_nat n) (drop (Z.to_nat s) l)).
Proof.
  intros Hs Hn. unfold skip_limit.
  destruct (Z.ltb_spec s 0); [lia |].
  destruct (Z.ltb_spec n 0); [lia |].
  destruct (Z.eqb_spec n 0); [lia | done].
Qed.

End Numbers.


Section Listing.


Lemma products_listing (req : Products.Request) (w : World) (p l : Z) :
  reads_as (Products.query_page req) 1 p →
  reads_as (Products.query_limit req) 10 l →
  (1 ≤ p)%Z → (1 ≤ l)%Z →
  let matching := selected p_category (Products.query_category req) (products w) in
  ∃ n : Z,
    Products.list_handler req w =
      (Ok (Some (json 200 (Fields [
         ("products", JProducts (take (Z.to_nat l) (drop (Z.to_nat ((p - 1) * l))
                                   (newest_first p_createdAt matching))));
         ("currentPage", JNum (JS.Fin (inject_Z p)));
         ("totalPages", JNum (JS.Fin (inject_Z n)));
         ("totalProducts", JNum (JS.Fin (inject_Z (Z.of_nat (size matching)))))]))), w)
    ∧ ((n - 1) * l < Z.of_nat (size matching) ≤ n * l)%Z.
Proof.
  intros [(qp & Hp & Hqp) Hpi] [(ql & Hl & Hql) Hli] Hp1 Hl1 matching.
  unfold inject_Z in Hp, Hl.
  destruct (ceil_div_pages (Z.of_nat (size matching)) l ql Hl1 Hql) as (n & Hn & Hbounds).
  exists n. split; [| exact Hbounds].
  unfold Products.list_handler, Promise_all2, Products.find_page,
    Products.countDocuments, listing_slice, listing_totalPages.
  run_monad. fold matching.
  rewrite Hp, Hl, Hpi, Hli.
  rewrite (as_integer_of_Z _ ((p - 1) * l)).
  2:{ rewrite Hqp, Hql, inject_Z_mult. unfold Z.sub.
      rewrite inject_Z_plus, inject_Z_opp. reflexivity. }
  rewrite skip_limit_page by nia. simpl. rewrite Hn. reflexivity.
Qed.


End Listing.








(** ** Running a handler step by step *)

Section Steps.

Context {A B : Type}.

Lemma bind_Ok (m : M A) (k : A → M B) (w w' : World) (a : A) :
  m w = (Ok a, w') → (m ≫= k) w = k a w'.
Proof. intros H. unfold mbind, M_bind. by rewrite H. Qed.

Lemma bind_Thrown (m : M A) (k : A → M B) (w w' : World) (e : Error) :
  m w = (Thrown e, w') → (m ≫= k) w = (Thrown e, w').
Proof. intros H. unfold mbind, M_bind. by rewrite H. Qed.

Lemma try_Ok (m : M A) (h : Error → M A) (w w' : World) (a : A) :
  m w = (Ok a, w') → try_catch m h w = (Ok a, w').
Proof. intros H. unfold try_catch. by rewrite H. Qed.

Lemma try_Thrown (m : M A) (h : Error → M A) (w w' : World) (e : Error) :
  m w = (Thrown e, w') → try_catch m h w = h e w'.
Proof. intros H. unfold try_catch. by rewrite H. Qed.

End Steps.

(** ** Explicit deletions of the Cloudinary update *)

Section MarkedDeletions.

Variable env : Env.

#[local] Abbreviation taken_out := (taken_out env).
#[local] Abbreviation deletion_frame := (deletion_frame env).

Lemma find_marked (original : list CloudImage) (id : string) :
  match find (λ img, bool_decide (public_id img = Some id)) original with
  | Some image => public_id image = Some id ∧ marked_in original id
  | None => ¬ marked_in original id
  end.
Proof.
  destruct (find _ original) as [image|] eqn:F.
  - apply find_some in F as [Hin Hid]. apply bool_decide_eq_true in Hid.
    split; [done |]. exists image. by rewrite list_elem_of_In.
  - intros (img & Hin & Hid). apply list_elem_of_In in Hin.
    pose proof (find_none _ _ F img Hin) as Hf. simpl in Hf.
    apply bool_decide_eq_false in Hf. done.
Qed.

Lemma delete_marked_one_run (original images : list CloudImage) (id : string) (w : World) :
  ∃ images' w',
    CloudProducts.delete_marked_one env original images id w = (Ok images', w')
    ∧ (∀ img, img ∈ images' ↔ img ∈ images ∧ ¬ taken_out original id img)
    ∧ images' `sublist_of` images
    ∧ (marked_in original id → CloudDestroy id ∈ events w')
    ∧ (marked_in original id → is_Some (destroy_rejects env id) →
       ConsoleError ("Error deleting image " +:+ id +:+ ":") ∈ events w')
    ∧ deletion_frame [id] w w'.
Proof.
  unfold CloudProducts.delete_marked_one, deletion_frame.
  pose proof (find_marked original id) as F.
  destruct (find _ original) as [image|].
  - destruct F as [Hid Hm]. rewrite Hid. simpl.
    unfold cloud_destroy. run_monad.
    destruct (destroy_rejects env id) as [e|] eqn:R; simpl.
    + exists images, (emit (ConsoleError ("Error deleting image " +:+ id +:+ ":"))
                       (emit (CloudDestroy id) w)).
      split; [done |]. split.
      { intros img. unfold taken_out. rewrite R. split; [| tauto].
        intros H. split; [done |]. intros (_ & ? & _). done. }
      split; [done |]. simpl.
      split; [intros _; rewrite !elem_of_app, !list_elem_of_singleton; tauto |].
      split; [intros _ _; rewrite !elem_of_app, !list_elem_of_singleton; tauto |].
      do 4 (split; [done |]).
      split; [intros ev; rewrite !elem_of_app; tauto |].
      split; [done |]. intros x Hx Hnx. done.
    + exists (filter (λ img, public_id img ≠ Some id) images),
             (with_cloud (λ c, c ∖ {[id]}) (emit (CloudDestroy id) w)).
      split; [done |]. split.
      { intros img. rewrite list_elem_of_filter. unfold taken_out. rewrite R.
        split; [intros [? ?]; split; [done | tauto] |].
        intros [? Hn]. split; [| done]. intros Hp. apply Hn. done. }
      split; [apply sublist_filter |]. simpl.
      split; [intros _; rewrite !elem_of_app, !list_elem_of_singleton; tauto |].
      split; [intros _ [? ?]; done |].
      do 4 (split; [done |]).
      split; [intros ev; rewrite !elem_of_app; tauto |].
      split; [intros x; rewrite elem_of_difference; tauto |].
      intros x Hx Hnx. rewrite elem_of_difference, elem_of_singleton in Hnx.
      rewrite list_elem_of_singleton.
      destruct (decide (x = id)) as [->|Hne]; [done | tauto].
  - exists images, w. split; [done |]. split.
    { intros img. unfold taken_out. tauto. }
    do 3 (split; [done |]).
    do 4 (split; [done |]).
    split; [done |]. split; [done |]. intros x Hx Hnx. done.
Qed.

Lemma delete_marked_from_run (original : list CloudImage) (ids : list string) :
  ∀ (images : list CloudImage) (w : World),
  ∃ images' w',
    CloudProducts.delete_marked_from env original images ids w = (Ok images', w')
    ∧ (∀ img, img ∈ images' ↔
         img ∈ images ∧ ∀ id, id ∈ ids → ¬ taken_out original id img)
    ∧ images' `sublist_of` images
    ∧ (∀ id, id ∈ ids → marked_in original id → CloudDestroy id ∈ events w')
    ∧ (∀ id, id ∈ ids → marked_in original id → is_Some (destroy_rejects env id) →
       ConsoleError ("Error deleting image " +:+ id +:+ ":") ∈ events w')
    ∧ deletion_frame ids w w'.
Proof.
  induction ids as [|id rest IH]; intros images w.
  - exists images, w. split; [done |].
    split; [intros img; split; [intros ?; split; [done |]; intros ? Hnil; inversion Hnil | tauto] |].
    split; [done |].
    split; [intros ? Hnil; inversion Hnil |].
    split; [intros ? Hnil; inversion Hnil |].
    unfold deletion_frame. do 6 (split; [done |]). intros x Hx Hnx. done.
  - destruct (delete_marked_one_run original images id w)
      as (images1 & w1 & Hrun1 & Hin1 & Hsub1 & Hcall1 & Hlog1 & Hframe1).
    destruct (IH images1 w1)
      as (images2 & w2 & Hrun2 & Hin2 & Hsub2 & Hcall2 & Hlog2 & Hframe2).
    exists images2, w2.
    split.
    { simpl. rewrite (bind_Ok _ _ _ _ _ Hrun1). exact Hrun2. }
    destruct Hframe1 as (D1 & B1 & P1 & C1 & E1 & S1 & X1).
    destruct Hframe2 as (D2 & B2 & P2 & C2 & E2 & S2 & X2).
    split.
    { intros img. rewrite Hin2, Hin1. split.
      - intros [[Hi Hn] Hr]. split; [done |].
        intros id' [->|Hid']%elem_of_cons; [done | by apply Hr].
      - intros [Hi Hr]. split; [split; [done |] |].
        + apply Hr. left.
        + intros id' Hid'. apply Hr. by right. }
    split; [by etrans |].
    split.
    { intros id' [->|Hid']%elem_of_cons Hm; [apply E2; by apply Hcall1 | by apply Hcall2]. }
    split.
    { intros id' [->|Hid']%elem_of_cons Hm Hr;
        [apply E2; by apply Hlog1 | by apply Hlog2]. }
    unfold deletion_frame.
    split; [congruence |]. split; [congruence |]. split; [congruence |].
    split; [congruence |].
    split; [intros ev Hev; by apply E2, E1 |].
    split; [intros x Hx; by apply S1, S2 |].
    intros x Hx Hnx. destruct (decide (x ∈ cloud w1)) as [Hx1|Hx1].
    + destruct (X2 x Hx1 Hnx) as [? ?]. split; [by right | done].
    + destruct (X1 x Hx Hx1) as [Hx' ?]. apply list_elem_of_singleton in Hx' as ->.
      split; [left | done].
Qed.

End MarkedDeletions.

Lemma json_list_run (env : Env) (v : option string) (w : World) :
  (∀ s, ∃ l, JSON_parse env s = inr l) →
  ∃ l, CloudProducts.json_list env v w = (Ok l, w).
Proof.
  intros H. unfold CloudProducts.json_list.
  destruct (JS.truthy v); [| by exists []].
  destruct (H (default EmptyString v)) as [l ->]. by exists l.
Qed.

(** C9.  Explicit deletions of the Cloudinary update.  For a list of
    identifiers marked for removal, the destroy call is made for every
    marked identifier that an image of the record carries, whatever the
    other calls answer; a call that fails is logged and nothing is
    thrown; an image stays in the image set exactly when no call for its
    identifier has succeeded, so a reference is removed only after a
    successful destroy; and the update goes on: when the rest of the
    request succeeds it is answered 200 and the saved record holds the
    images that were kept. *)
Theorem remote_update_explicit_deletions
  (env : Env) (id : string) (b : ProductBody) (w : World)
  (product : CloudProductDoc) (ids : list string) :
  isValid env id = true →
  cloud_products w !! id = Some product →
  deletedImages b = Some (inr ids) →
  ∃ images' w1,
    CloudProducts.delete_marked env (deletedImages b) (c_images product) w = (Ok images', w1)
    ∧ (∀ x, x ∈ ids → marked_in (c_images product) x → CloudDestroy x ∈ events w1)
    ∧ (∀ x, x ∈ ids → marked_in (c_images product) x →
         is_Some (destroy_rejects env x) →
         ConsoleError ("Error deleting image " +:+ x +:+ ":") ∈ events w1)
    ∧ (∀ img, img ∈ images' ↔
         img ∈ c_images product
         ∧ ∀ x, x ∈ ids → public_id img = Some x → is_Some (destroy_rejects env x))
    ∧ images' `sublist_of` c_images product
    ∧ (∀ t, JS.truthy (category b) = true →
         (∀ s, ∃ l, JSON_parse env s = inr l) →
         save_answer env = SaveOk t →
         answered (CloudProducts.update env id b [] w) 200
         ∧ c_images <$> (cloud_products (world_after (CloudProducts.update env id b [] w)) !! id)
           = Some images').
Proof.
  intros Hvalid Hfound Hdel.
  destruct (delete_marked_from_run env (c_images product) ids (c_images product) w)
    as (images' & w1 & Hrun & Hin & Hsub & Hcall & Hlog & Hframe).
  exists images', w1.
  assert (Hrun' : CloudProducts.delete_marked env (deletedImages b) (c_images product) w
                  = (Ok images', w1)) by (by rewrite Hdel).
  split; [exact Hrun' |].
  split; [exact Hcall |]. split; [exact Hlog |].
  split.
  { intros img. rewrite Hin. split; intros [Hi Hk]; (split; [done |]).
    - intros x Hx Hp. destruct (destroy_rejects env x) eqn:R; [done |].
      exfalso. apply (Hk x Hx). split; [by exists img | done].
    - intros x Hx (_ & R & Hp). specialize (Hk x Hx Hp). rewrite R in Hk.
      by destruct Hk. }
  split; [exact Hsub |].
  intros t Hcat Hjson Hsave.
  destruct (json_list_run env (features b) w1 Hjson) as [fs Hfs].
  destruct (json_list_run env (specifications b) w1 Hjson) as [ss Hss].
  destruct (json_list_run env (tags b) w1 Hjson) as [ts Hts].
  assert (Hupdate : ∃ doc, c_images doc = images' ∧
    CloudProducts.update env id b [] w =
      (Ok (json 200 (Fields [("success", JBool true);
                             ("message", JStr "Product updated successfully");
                             ("data", JCloudProduct id doc)])),
       with_cloud_products (<[id := doc]>) w1)).
  { eexists. split; [| unfold CloudProducts.update, findById; rewrite Hvalid;
      apply try_Ok;
      rewrite (bind_Ok _ _ w w (Some product)) by (unfold read; by rewrite Hfound);
      rewrite (bind_Ok _ _ _ _ _ Hrun');
      rewrite (bind_Ok _ _ w1 w1 images') by reflexivity;
      rewrite (bind_Ok _ _ _ _ _ Hfs), (bind_Ok _ _ _ _ _ Hss), (bind_Ok _ _ _ _ _ Hts);
      unfold CloudProducts.save; simpl; rewrite Hcat, Hsave; reflexivity].
    reflexivity. }
  destruct Hupdate as (doc & Hdoc & Hupdate). rewrite Hupdate.
  split; [reflexivity |].
  unfold world_after. simpl. rewrite lookup_insert_eq. simpl. by rewrite Hdoc.
Qed.

Lemma remote_update_explicit_deletions_witness :
  answered (CloudProducts.update Gallery.env Gallery.id Gallery.body [] Gallery.world) 200
  ∧ c_images <$>
      (cloud_products
         (world_after (CloudProducts.update Gallery.env Gallery.id Gallery.body []
                         Gallery.world)) !! Gallery.id)
    = Some [Gallery.image "b"]
  ∧ CloudDestroy "products/b"
      ∈ events (world_after (CloudProducts.update Gallery.env Gallery.id Gallery.body []
                               Gallery.world)).
Proof.
  destruct (remote_update_explicit_deletions Gallery.env Gallery.id Gallery.body
              Gallery.world Gallery.product ["products/a"; "products/b"])
    as (images' & w1 & Hrun & _ & _ & _ & _ & Hgo); try reflexivity.
  destruct (Hgo 5%N) as [H200 Himages]; try reflexivity.
  { intros s. by exists []. }
  split; [exact H200 |]. split.
  - rewrite Himages. f_equal.
    vm_compute in Hrun. by injection Hrun as <- _.
  - apply (proj2 (list_elem_of_In _ _)). vm_compute. right. left. reflexivity.
Defined.

(** ** The upload middleware *)

Section Upload.

Lemma written_snoc (paths : list string) (p : string) (w : World) :
  written (paths ++ [p]) w
  = with_disk (λ d, d ∪ {[p]}) (emit (WriteFile p) (written paths w)).
Proof. unfold written. by rewrite foldl_snoc. Qed.

Lemma written_cons (paths : list string) (p : string) (w : World) :
  written (p :: paths) w
  = written paths (with_disk (λ d, d ∪ {[p]}) (emit (WriteFile p) w)).
Proof. reflexivity. Qed.

Lemma written_disk (paths : list string) (w : World) :
  disk (written paths w) = disk w ∪ list_to_set paths.
Proof.
  revert w. induction paths as [|p paths IH]; intros w.
  - simpl. by rewrite (right_id_L ∅ (∪)).
  - rewrite written_cons, IH. simpl. by rewrite (assoc_L (∪)).
Qed.

Lemma written_events (paths : list string) (w : World) :
  events (written paths w) = events w ++ (WriteFile <$> paths).
Proof.
  revert w. induction paths as [|p paths IH]; intros w.
  - simpl. by rewrite app_nil_r.
  - rewrite written_cons, IH. simpl. by rewrite <- app_assoc.
Qed.

Lemma written_frame (paths : list string) (w : World) :
  cloud (written paths w) = cloud w
  ∧ blogs (written paths w) = blogs w
  ∧ products (written paths w) = products w
  ∧ cloud_products (written paths w) = cloud_products w.
Proof.
  revert w. induction paths as [|p paths IH]; intros w; [done |].
  rewrite written_cons. destruct (IH (with_disk (λ d, d ∪ {[p]}) (emit (WriteFile p) w)))
    as (? & ? & ? & ?). done.
Qed.

Lemma written_no_unlink (paths : list string) (w : World) :
  no_new_unlink w (written paths w).
Proof.
  intros p. rewrite written_events, elem_of_app, list_elem_of_fmap.
  intros [H | (q & Hq & _)]; [done | discriminate].
Qed.

Lemma store_parts_accepted (st : Storage) (parts : list Part) :
  ∀ (room : nat) (stored : list File) (w : World),
  accepted st room parts →
  store_parts st room parts stored w
  = (Ok (stored ++ (stored_file st <$> parts)),
     written (path <$> (stored_file st <$> parts)) w).
Proof.
  induction parts as [|p parts IH]; intros room stored w [Hlen Hall].
  - simpl. rewrite app_nil_r. reflexivity.
  - apply Forall_cons in Hall as [[Hfilter Hsize] Hall].
    destruct room as [|room]; [simpl in Hlen; lia |].
    simpl. rewrite Hfilter. unfold writeFile. run_monad.
    destruct (N.ltb_spec (fileSize st) (bytes p)); [lia |].
    rewrite IH by (split; [simpl in Hlen; lia | done]).
    by rewrite <- app_assoc.
Qed.

Lemma upload_array_accepted (st : Storage) (room : nat) (parts : list Part) (w : World) :
  accepted st room parts →
  upload_array st room parts w
  = (Ok (stored_file st <$> parts), written (path <$> (stored_file st <$> parts)) w).
Proof. intros H. unfold upload_array. by rewrite store_parts_accepted. Qed.

(** A route after an upload that went through. *)
Lemma route_run (upload : M (list File)) (validate : option Response)
  (handler : list File → M Response) (files : list File) (w w1 : World) :
  upload w = (Ok files, w1) →
  route upload validate handler w
  = match validate with
    | Some rejection => (Ok rejection, w1)
    | None =>
        match handler files w1 with
        | (Ok r, w2) => (Ok r, w2)
        | (Thrown e, w2) => (Ok (error_middleware e), w2)
        end
    end.
Proof.
  intros H. unfold route, try_catch. rewrite (bind_Ok _ _ _ _ _ H).
  destruct validate; [done |]. by destruct (handler files w1) as [[r|e] w2].
Qed.

End Upload.

(** ** Deleting files *)

Section Unlinking.

Lemma unlink_run (p : string) (w : World) :
  unlink p w
  = if bool_decide (p ∈ disk w)
    then (Ok (), with_disk (λ d, d ∖ {[p]}) (emit (Unlink p) w))
    else (Thrown (if bool_decide (p ∈ locked w) then EPERM else ENOENT),
          emit (Unlink p) w).
Proof.
  unfold unlink. run_monad.
  destruct (bool_decide (p ∈ disk w)); [done |].
  change (locked (emit (Unlink p) w)) with (locked w).
  by destruct (bool_decide (p ∈ locked w)).
Qed.

Lemma difference_absent (d : gset string) (p : string) : p ∉ d → d ∖ {[p]} = d.
Proof. intros H. apply set_eq. intros x. rewrite elem_of_difference, elem_of_singleton.
  split; [tauto |]. intros Hx. split; [done |]. intros ->. done. Qed.

Lemma difference_cons (d : gset string) (p : string) (ps : list string) :
  d ∖ {[p]} ∖ list_to_set ps = d ∖ list_to_set (p :: ps).
Proof.
  apply set_eq. intros x.
  rewrite list_to_set_cons, !elem_of_difference, elem_of_union. tauto.
Qed.

(** One turn of the loop of the delete routes and of
    [cleanupUnusedImages]. *)
Lemma unlink_present_step (p msg : string) (w : World) :
  ∃ w1,
    try_catch
      (present ← existsSync p;
       if present : bool then unlink p else mret ())
      (λ _, console_error msg) w = (Ok (), w1)
    ∧ disk w1 = disk w ∖ {[p]}
    ∧ locked w1 = locked w
    ∧ same_collections w w1
    ∧ (∀ ev, ev ∈ events w1 ↔
         (ev ∈ events w
          ∨ ((p ∈ disk w ∨ p ∈ locked w) ∧ ev = Unlink p)
          ∨ ((p ∉ disk w) ∧ p ∈ locked w ∧ ev = ConsoleError msg))).
Proof.
  unfold try_catch, mbind, M_bind, existsSync, read.
  destruct (bool_decide (p ∈ disk w)) eqn:E; cbv beta iota.
  - rewrite orb_true_l, unlink_run, E.
    apply bool_decide_eq_true in E. eexists. split; [reflexivity |]. simpl.
    do 3 (split; [done |]). intros ev.
    rewrite elem_of_app, list_elem_of_singleton. tauto.
  - rewrite orb_false_l. apply bool_decide_eq_false in E.
    destruct (bool_decide (p ∈ locked w)) eqn:L.
    + rewrite unlink_run, L, (bool_decide_eq_false_2 _ E).
      apply bool_decide_eq_true in L. eexists. split; [reflexivity |]. simpl.
      split; [by rewrite difference_absent |]. do 2 (split; [done |]). intros ev.
      rewrite !elem_of_app, !list_elem_of_singleton. tauto.
    + apply bool_decide_eq_false in L. eexists. split; [reflexivity |].
      split; [by rewrite difference_absent |]. do 2 (split; [done |]). intros ev.
      tauto.
Qed.

(** The loop of the delete routes and of [cleanupUnusedImages]: each
    file is unlinked when it exists, and an unlink that fails is logged. *)
Lemma unlink_present_run {A} (f : A → string) (msg : string) (l : list A) :
  ∀ w : World,
  ∃ w',
    for_each l (λ x,
      try_catch
        (present ← existsSync (f x);
         if present : bool then unlink (f x) else mret ())
        (λ _, console_error msg)) w = (Ok (), w')
    ∧ disk w' = disk w ∖ list_to_set (f <$> l)
    ∧ same_collections w w'
    ∧ (∀ ev, ev ∈ events w → ev ∈ events w')
    ∧ (∀ ev, ev ∈ events w' →
         ev ∈ events w
         ∨ (∃ x, x ∈ l ∧ (f x ∈ disk w ∨ f x ∈ locked w) ∧ ev = Unlink (f x))
         ∨ (ev = ConsoleError msg ∧ ∃ x, x ∈ l ∧ f x ∈ locked w))
    ∧ (∀ x, x ∈ l → f x ∈ disk w → Unlink (f x) ∈ events w')
    ∧ locked w' = locked w
    ∧ (∀ x, x ∈ l → f x ∉ disk w → f x ∈ locked w →
         Unlink (f x) ∈ events w' ∧ ConsoleError msg ∈ events w').
Proof.
  induction l as [|x l IH]; intros w.
  - exists w. split; [done |]. split.
    { simpl. by rewrite difference_empty_L. }
    split; [done |]. split; [done |]. split; [by left |].
    split; [intros ? Hnil; inversion Hnil |]. split; [done |].
    intros ? Hnil. inversion Hnil.
  - destruct (unlink_present_step (f x) msg w)
      as (w1 & Hstep & Hdisk1 & Hlocked1 & Hframe1 & Hev1).
    destruct (IH w1)
      as (w2 & Hrun & Hdisk & Hframe & Hmono & Hnew & Hdone & Hlocked & Hlogged).
    assert (Hsub : ∀ p, p ∈ disk w1 → p ∈ disk w).
    { intros p. rewrite Hdisk1, elem_of_difference. tauto. }
    exists w2. split.
    { simpl. rewrite (bind_Ok _ _ _ _ _ Hstep). exact Hrun. }
    split.
    { rewrite Hdisk, Hdisk1. rewrite fmap_cons. apply difference_cons. }
    split.
    { destruct Hframe1 as (? & ? & ? & ?), Hframe as (? & ? & ? & ?).
      unfold same_collections. repeat split; congruence. }
    split; [intros ev Hev; apply Hmono, Hev1; by left |].
    split.
    { intros ev Hev.
      destruct (Hnew ev Hev) as [H1 | [(y & Hy & Hex & ->) | (-> & y & Hy & Hl)]].
      - apply Hev1 in H1 as [? | [[Hex ->] | (Hn & Hl & ->)]]; [by left | |].
        + right. left. exists x. split; [left | done].
        + right. right. split; [done |]. exists x. split; [left | done].
      - right. left. exists y. split; [by right |]. split; [| done].
        rewrite Hlocked1 in Hex. destruct Hex as [Hd | Hl]; [left; by apply Hsub | by right].
      - right. right. split; [done |]. exists y. split; [by right |].
        by rewrite <- Hlocked1. }
    split.
    { intros y [->|Hy]%elem_of_cons Hin.
      + apply Hmono, Hev1. right. left. split; [by left | done].
      + destruct (decide (f y = f x)) as [Heq|Hne].
        * rewrite Heq in *. apply Hmono, Hev1. right. left. split; [by left | done].
        * apply Hdone; [done |]. rewrite Hdisk1, elem_of_difference, elem_of_singleton.
          done. }
    split; [congruence |].
    intros y [->|Hy]%elem_of_cons Hout Hin.
    + split; apply Hmono, Hev1; right; [left | right]; [split; [by right | done] | done].
    + apply Hlogged; [done | | by rewrite Hlocked1].
      intros Hd. apply Hout. by apply Hsub.
Qed.

(** The same in the words of [unlinked_best_effort]. *)
Lemma unlink_present_best_effort {A} (f : A → string) (msg : string) (l : list A)
  (w : World) :
  ∃ w',
    for_each l (λ x,
      try_catch
        (present ← existsSync (f x);
         if present : bool then unlink (f x) else mret ())
        (λ _, console_error msg)) w = (Ok (), w')
    ∧ same_collections w w'
    ∧ unlinked_best_effort msg (f <$> l) w w'.
Proof.
  destruct (unlink_present_run f msg l w)
    as (w' & Hrun & Hdisk & Hframe & _ & Hnew & Hdone & Hlocked & Hlogged).
  exists w'. split; [exact Hrun |]. split; [exact Hframe |].
  split; [exact Hdisk |]. split; [exact Hlocked |].
  split.
  { intros p (x & -> & Hx)%list_elem_of_fmap. by apply Hdone. }
  split.
  { intros p (x & -> & Hx)%list_elem_of_fmap. by apply Hlogged. }
  intros ev Hev.
  destruct (Hnew ev Hev) as [? | [(x & Hx & Hex & ->) | (-> & x & Hx & Hl)]].
  - by left.
  - right. left. exists (f x). split; [by apply list_elem_of_fmap_2 | done].
  - right. right. split; [done |]. exists (f x).
    split; [by apply list_elem_of_fmap_2 | done].
Qed.

(** The loop of the compensation in the product create: each file is
    unlinked, and a failure is logged. *)
Lemma unlink_logged_run {A} (f : A → string) (msg : string) (l : list A) :
  ∀ w : World,
  ∃ w',
    for_each l (λ x, try_catch (unlink (f x)) (λ _, console_error msg)) w = (Ok (), w')
    ∧ disk w' = disk w ∖ list_to_set (f <$> l)
    ∧ same_collections w w'
    ∧ (∀ ev, ev ∈ events w → ev ∈ events w')
    ∧ (∀ x, x ∈ l → Unlink (f x) ∈ events w').
Proof.
  induction l as [|x l IH]; intros w.
  - exists w. split; [done |]. split.
    { simpl. by rewrite difference_empty_L. }
    split; [done |]. split; [done |]. intros ? Hnil. inversion Hnil.
  - set (w1 := if bool_decide (f x ∈ disk w)
               then with_disk (λ d, d ∖ {[f x]}) (emit (Unlink (f x)) w)
               else emit (ConsoleError msg) (emit (Unlink (f x)) w)).
    assert (Hstep : try_catch (unlink (f x)) (λ _, console_error msg) w = (Ok (), w1)).
    { unfold try_catch. rewrite unlink_run. subst w1.
      by destruct (bool_decide (f x ∈ disk w)). }
    assert (Hdisk1 : disk w1 = disk w ∖ {[f x]}).
    { subst w1. destruct (bool_decide (f x ∈ disk w)) eqn:E; [done |].
      apply bool_decide_eq_false in E. simpl. by rewrite difference_absent. }
    assert (Hframe1 : same_collections w w1).
    { subst w1. by destruct (bool_decide (f x ∈ disk w)). }
    assert (Hev1 : Unlink (f x) ∈ events w1 ∧ ∀ ev, ev ∈ events w → ev ∈ events w1).
    { subst w1. destruct (bool_decide (f x ∈ disk w)); simpl;
        (split; [| intros ev]); rewrite !elem_of_app, ?list_elem_of_singleton; tauto. }
    destruct Hev1 as [Hev1 Hmono1].
    destruct (IH w1) as (w2 & Hrun & Hdisk & Hframe & Hmono & Hdone).
    exists w2. split.
    { simpl. rewrite (bind_Ok _ _ _ _ _ Hstep). exact Hrun. }
    split.
    { rewrite Hdisk, Hdisk1. rewrite fmap_cons. apply difference_cons. }
    split.
    { destruct Hframe1 as (? & ? & ? & ?), Hframe as (? & ? & ? & ?).
      unfold same_collections. repeat split; congruence. }
    split; [intros ev Hev; by apply Hmono, Hmono1 |].
    intros y [->|Hy]%elem_of_cons; [by apply Hmono | by apply Hdone].
Qed.

End Unlinking.

(** ** The handlers of the local routers, case by case *)

Section LocalHandlers.

Variable env : Env.

Lemma filter_none {A} (P : A → Prop) `{!∀ x, Decision (P x)} (l : list A) :
  (∀ x, x ∈ l → ¬ P x) → filter P l = [].
Proof.
  induction l as [|x l IH]; intros Hall; [done |].
  rewrite filter_cons_False by (apply Hall; left).
  apply IH. intros y Hy. apply Hall. by right.
Qed.

(** The cleanup call of the blog update compares the old images with a
    list that contains them all: there is nothing to delete. *)
Lemma cleanup_after_append (old new : list string) (w : World) :
  Blog.cleanupUnusedImages old (old ++ new) w = (Ok (), w).
Proof.
  unfold Blog.cleanupUnusedImages.
  rewrite filter_none; [done |].
  intros x Hx Hn. apply Hn, elem_of_app. by left.
Qed.

Lemma blog_save_cases (id : string) (d : BlogDoc) (w : World) :
  (∃ t, save_answer env = SaveOk t
        ∧ Blog.save env id d w = (Ok d, with_blogs (<[id := d]>) w))
  ∨ (∃ t e, save_answer env = SaveFails t e ∧ Blog.save env id d w = (Thrown e, w)).
Proof.
  unfold Blog.save. destruct (save_answer env) as [t|t e].
  - left. by exists t.
  - right. by exists t, e.
Qed.

Lemma blog_create_run (b : Blog.ReqBody) (files : list File) (w : World) :
  (∃ t doc, save_answer env = SaveOk t
        ∧ b_images doc = (λ file, "/uploads/" +:+ filename file) <$> files
        ∧ Blog.create env b files w
          = (Ok (json 201 (Whole (JBlog (fresh_id env) doc))),
             with_blogs (<[fresh_id env := doc]>) w))
  ∨ (∃ t e, save_answer env = SaveFails t e
        ∧ Blog.create env b files w = (Ok (json 400 (message_body (err_message e))), w)).
Proof.
  unfold Blog.create.
  match goal with |- context [Blog.save env ?i ?d] =>
    destruct (blog_save_cases i d w) as [(t & Ha & Hs) | (t & e & Ha & Hs)];
    [left; exists t, d | right; exists t, e]
  end.
  - split; [done |]. split; [done |].
    apply try_Ok. by rewrite (bind_Ok _ _ _ _ _ Hs).
  - split; [done |]. rewrite (try_Thrown _ _ w w e); [done |].
    by rewrite (bind_Thrown _ _ _ _ _ Hs).
Qed.

Lemma blog_update_run (id : string) (b : Blog.ReqBody) (files : list File)
  (w : World) (old : BlogDoc) :
  isValid env id = true → blogs w !! id = Some old →
  (∃ t doc, save_answer env = SaveOk t
        ∧ b_images doc = b_images old ++ ((λ file, "/uploads/" +:+ filename file) <$> files)
        ∧ Blog.update env id b files w
          = (Ok (json 200 (Whole (JBlog id doc))), with_blogs (<[id := doc]>) w))
  ∨ (∃ t e, save_answer env = SaveFails t e
        ∧ Blog.update env id b files w = (Ok (json 400 (message_body (err_message e))), w)).
Proof.
  intros Hvalid Hfound. unfold Blog.update, findById, try_catch. rewrite Hvalid.
  rewrite (bind_Ok _ _ w w (Some old)) by (unfold read; by rewrite Hfound).
  cbv beta iota zeta.
  rewrite (bind_Ok _ _ w w ()) by apply cleanup_after_append.
  match goal with |- context [Blog.save env ?i ?d] =>
    destruct (blog_save_cases i d w) as [(t & Ha & Hs) | (t & e & Ha & Hs)];
    [left; exists t, d | right; exists t, e]
  end.
  - split; [done |]. split; [done |]. by rewrite (bind_Ok _ _ _ _ _ Hs).
  - split; [done |]. by rewrite (bind_Thrown _ _ _ _ _ Hs).
Qed.

Lemma blog_update_not_found (id : string) (b : Blog.ReqBody) (files : list File)
  (w : World) :
  isValid env id = true → blogs w !! id = None →
  Blog.update env id b files w = (Ok (json 404 (message_body "Blog not found")), w).
Proof.
  intros Hvalid Hfound. unfold Blog.update, findById. rewrite Hvalid.
  apply try_Ok.
  by rewrite (bind_Ok _ _ w w None) by (unfold read; by rewrite Hfound).
Qed.

Lemma products_save_cases (budget : option N) (id : string) (d : ProductDoc) (w : World) :
  Products.save env budget id d w = (Ok d, with_products (<[id := d]>) w)
  ∨ (∃ e, Products.save env budget id d w = (Thrown e, w)).
Proof.
  unfold Products.save. destruct (negb (JS.truthy (p_category d))).
  - right. by eexists.
  - destruct (from_option _ _ budget) as [t|t e]; [by left | right; by eexists].
Qed.

Lemma products_create_run (b : ProductBody) (files : list File) (w : World) :
  (∃ doc, p_images doc = filename <$> files
        ∧ Products.create env b files w
          = (Ok (json 201 (Whole (JProduct (fresh_id env) doc))),
             with_products (<[fresh_id env := doc]>) w))
  ∨ (∃ (code : nat) (msg : string) (w' : World),
        Products.create env b files w = (Ok (json code (message_body msg)), w')
        ∧ (code = 500 ∨ code = 504)
        ∧ disk w' = disk w ∖ list_to_set
                      ((λ file, Path.join Products.uploadDir (filename file)) <$> files)
        ∧ same_collections w w'
        ∧ (∀ file, file ∈ files →
             Unlink (Path.join Products.uploadDir (filename file)) ∈ events w')).
Proof.
  unfold Products.create.
  match goal with |- context [Products.save env ?bd ?i ?d] =>
    destruct (products_save_cases bd i d w) as [Hs | (e & Hs)]; [left; exists d | right]
  end.
  - split; [done |]. apply try_Ok. by rewrite (bind_Ok _ _ _ _ _ Hs).
  - destruct (unlink_logged_run
                (λ file, Path.join Products.uploadDir (filename file))
                "Error deleting file:" files w)
      as (w1 & Hloop & Hdisk & Hframe & Hmono & Hdone).
    eexists _, _, _. split.
    { rewrite (try_Thrown _ _ w w e) by (by rewrite (bind_Thrown _ _ _ _ _ Hs)).
      rewrite (bind_Ok _ _ _ _ _ Hloop). reflexivity. }
    split; [destruct (String.eqb _ _); tauto |].
    split; [exact Hdisk |]. split; [exact Hframe |].
    intros file Hfile. simpl. apply elem_of_app. left. by apply Hdone.
Qed.

Lemma products_update_run (id : string) (b : ProductBody) (files : list File)
  (w : World) (old : ProductDoc) :
  isValid env id = true → products w !! id = Some old →
  (∃ doc, p_images doc = p_images old ++ (filename <$> files)
        ∧ Products.update env id b files w
          = (Ok (json 200 (Whole (JProduct id doc))), with_products (<[id := doc]>) w))
  ∨ (∃ (msg : string),
        Products.update env id b files w
        = (Ok (json 500 (message_body msg)), emit (ConsoleError "Error updating product:") w)).
Proof.
  intros Hvalid Hfound. unfold Products.update, findById, try_catch. rewrite Hvalid.
  rewrite (bind_Ok _ _ w w (Some old)) by (unfold read; by rewrite Hfound).
  cbv beta iota zeta.
  match goal with |- context [Products.save env ?bd ?i ?d] =>
    destruct (products_save_cases bd i d w) as [Hs | (e & Hs)]; [left; exists d | right]
  end.
  - split; [done |]. by rewrite (bind_Ok _ _ _ _ _ Hs).
  - eexists. rewrite (bind_Thrown _ _ _ _ _ Hs). reflexivity.
Qed.

End LocalHandlers.

(** ** Validation and the upload middleware *)

Section ValidationAfterUpload.

Variables (env : Env) (w : World).

Lemma products_rejected_after_upload (req : Products.Request) :
  accepted Products.storage 10 (Products.parts req) →
  validateProduct (Products.req_body req) ≠ None →
  let stored := path <$> (stored_file Products.storage <$> Products.parts req) in
  (answered (Products.post env req w) 400
   ∧ world_after (Products.post env req w) = written stored w)
  ∧ (answered (Products.put env req w) 400
     ∧ world_after (Products.put env req w) = written stored w).
Proof.
  intros Hacc Hrej stored.
  destruct (validateProduct (Products.req_body req)) as [r|] eqn:V; [| done].
  pose proof (validateProduct_rejects _ _ V) as H400.
  pose proof (upload_array_accepted _ _ _ w Hacc) as Hup.
  unfold Products.post, Products.put, Products.upload.
  rewrite !(route_run _ _ _ _ _ _ Hup), V.
  unfold answered, response, world_after. simpl. by rewrite H400.
Qed.

Lemma blog_rejected_after_upload (req : Blog.Request) :
  accepted Blog.storage 10 (Blog.parts req) →
  Blog.validateBlogPost (Blog.req_body req) ≠ None →
  let stored := path <$> (stored_file Blog.storage <$> Blog.parts req) in
  (answered (Blog.post env req w) 400
   ∧ world_after (Blog.post env req w) = written stored w)
  ∧ (answered (Blog.put env req w) 400
     ∧ world_after (Blog.put env req w) = written stored w).
Proof.
  intros Hacc Hrej stored.
  destruct (Blog.validateBlogPost (Blog.req_body req)) as [r|] eqn:V; [| done].
  pose proof (validateBlogPost_rejects _ _ V) as H400.
  pose proof (upload_array_accepted _ _ _ w Hacc) as Hup.
  unfold Blog.post, Blog.put, Blog.upload.
  rewrite !(route_run _ _ _ _ _ _ Hup), V.
  unfold answered, response, world_after. simpl. by rewrite H400.
Qed.

End ValidationAfterUpload.

(** The product and the blog upload take the sample image. *)
Lemma photo_accepted :
  accepted Products.storage 10 [Sample.photo] ∧ accepted Blog.storage 10 [Sample.photo].
Proof.
  split; (split; [simpl; lia |]); apply Forall_cons;
    (split; [split; [reflexivity | by vm_compute] | constructor]).
Qed.

(** C3, as stated, fails: a product form with a title of two characters
    and one image is answered 400 and the image is on the disk. *)
Lemma validation_before_storage_counterexample :
  ¬ (∀ (env : Env) (req : Products.Request) (w : World),
       validateProduct (Products.req_body req) ≠ None →
       answered (Products.post env req w) 400
       ∧ disk (world_after (Products.post env req w)) = disk w).
Proof.
  intros H.
  destruct (H Sample.env Uploads.short_title Sample.empty_world) as [_ Hdisk].
  { vm_compute. discriminate. }
  assert (Hin : "/app/public/uploads/products/product-1700000000000.png"
                ∈ disk (world_after
                          (Products.post Sample.env Uploads.short_title Sample.empty_world))).
  { apply (bool_decide_unpack _). vm_compute. exact I. }
  rewrite Hdisk in Hin. simpl in Hin. by apply not_elem_of_empty in Hin.
Qed.

(** C3, amended.  The validators run after the upload middleware.  When
    the upload has gone through and the validator rejects the form, the
    request is answered 400 and the world is the one the upload left: the
    files of the request are in the store, nothing has been deleted (no
    cleanup is triggered), and the collections are untouched. *)
Theorem validation_after_upload (env : Env) (w : World) :
  (∀ req : Products.Request,
      accepted Products.storage 10 (Products.parts req) →
      validateProduct (Products.req_body req) ≠ None →
      let stored := path <$> (stored_file Products.storage <$> Products.parts req) in
      (answered (Products.post env req w) 400
       ∧ world_after (Products.post env req w) = written stored w)
      ∧ (answered (Products.put env req w) 400
         ∧ world_after (Products.put env req w) = written stored w))
  ∧ (∀ req : Blog.Request,
      accepted Blog.storage 10 (Blog.parts req) →
      Blog.validateBlogPost (Blog.req_body req) ≠ None →
      let stored := path <$> (stored_file Blog.storage <$> Blog.parts req) in
      (answered (Blog.post env req w) 400
       ∧ world_after (Blog.post env req w) = written stored w)
      ∧ (answered (Blog.put env req w) 400
         ∧ world_after (Blog.put env req w) = written stored w))
  ∧ (∀ paths : list string,
      disk (written paths w) = disk w ∪ list_to_set paths
      ∧ events (written paths w) = events w ++ (WriteFile <$> paths)
      ∧ no_new_unlink w (written paths w)
      ∧ same_collections w (written paths w)).
Proof.
  split; [exact (products_rejected_after_upload env w) |].
  split; [exact (blog_rejected_after_upload env w) |].
  intros paths.
  split; [apply written_disk |]. split; [apply written_events |].
  split; [apply written_no_unlink |]. apply written_frame.
Qed.

Lemma validation_after_upload_witness :
  answered (Products.post Sample.env Uploads.short_title Sample.empty_world) 400
  ∧ world_after (Products.post Sample.env Uploads.short_title Sample.empty_world)
    = written ["/app/public/uploads/products/product-1700000000000.png"]
        Sample.empty_world.
Proof.
  destruct (validation_after_upload Sample.env Sample.empty_world) as (H & _ & _).
  destruct (H Uploads.short_title) as [Hpost _].
  - apply photo_accepted.
  - vm_compute. discriminate.
  - exact Hpost.
Defined.

(** ** The upload lifecycle of the local routers *)

Section Lifecycle.

Variable env : Env.

(** A blog reference resolves to the file the upload middleware wrote. *)
Lemma blog_image_file (p : Part) :
  Blog.image_file ("/uploads/" +:+ filename (stored_file Blog.storage p))
  = path (stored_file Blog.storage p).
Proof.
  unfold Blog.image_file, stored_file. simpl. unfold Number_toString.
  destruct (N.to_uint (stamp p)); reflexivity.
Qed.

(** A product reference made by the create resolves to the file the
    upload middleware wrote. *)
Lemma product_image_file (p : Part) :
  Products.image_file (filename (stored_file Products.storage p))
  = path (stored_file Products.storage p).
Proof. reflexivity. Qed.

Lemma status_of_Ok (r : Response) (w : World) (code : nat) :
  answered (Ok r, w) code ↔ status r = code.
Proof. unfold answered, response. simpl. split; [by intros [= ?] | by intros ->]. Qed.

Lemma blog_post_success (req : Blog.Request) (w : World) :
  accepted Blog.storage 10 (Blog.parts req) →
  answered (Blog.post env req w) 201 →
  let files := stored_file Blog.storage <$> Blog.parts req in
  let w' := world_after (Blog.post env req w) in
  ∃ doc, blogs w' !! fresh_id env = Some doc
         ∧ b_images doc = (λ f, "/uploads/" +:+ filename f) <$> files
         ∧ disk w' = disk w ∪ list_to_set (path <$> files)
         ∧ no_new_unlink w w'.
Proof.
  intros Hacc H201 files w'. subst w'.
  pose proof (upload_array_accepted _ _ _ w Hacc) as Hup. fold files in Hup.
  unfold Blog.post, Blog.upload in *. rewrite (route_run _ _ _ _ _ _ Hup) in *.
  destruct (Blog.validateBlogPost (Blog.req_body req)) as [r|] eqn:V.
  { apply status_of_Ok in H201. rewrite (validateBlogPost_rejects _ _ V) in H201. done. }
  destruct (blog_create_run env (Blog.req_body req) files (written (path <$> files) w))
    as [(t & doc & _ & Himg & Hrun) | (t & e & _ & Hrun)]; rewrite Hrun in *.
  - exists doc. unfold world_after. simpl.
    split; [apply lookup_insert_eq |]. split; [exact Himg |].
    split; [apply written_disk | apply written_no_unlink].
  - apply status_of_Ok in H201. done.
Qed.

Lemma blog_put_success (req : Blog.Request) (w : World) (old : BlogDoc) :
  isValid env (Blog.params_id req) = true →
  blogs w !! Blog.params_id req = Some old →
  accepted Blog.storage 10 (Blog.parts req) →
  answered (Blog.put env req w) 200 →
  let files := stored_file Blog.storage <$> Blog.parts req in
  let w' := world_after (Blog.put env req w) in
  ∃ doc, blogs w' !! Blog.params_id req = Some doc
         ∧ b_images doc = b_images old ++ ((λ f, "/uploads/" +:+ filename f) <$> files)
         ∧ disk w' = disk w ∪ list_to_set (path <$> files)
         ∧ no_new_unlink w w'.
Proof.
  intros Hvalid Hfound Hacc H200 files w'. subst w'.
  pose proof (upload_array_accepted _ _ _ w Hacc) as Hup. fold files in Hup.
  unfold Blog.put, Blog.upload in *. rewrite (route_run _ _ _ _ _ _ Hup) in *.
  destruct (Blog.validateBlogPost (Blog.req_body req)) as [r|] eqn:V.
  { apply status_of_Ok in H200. rewrite (validateBlogPost_rejects _ _ V) in H200. done. }
  destruct (written_frame (path <$> files) w) as (_ & Hblogs & _).
  destruct (blog_update_run env (Blog.params_id req) (Blog.req_body req) files
              (written (path <$> files) w) old Hvalid)
    as [(t & doc & _ & Himg & Hrun) | (t & e & _ & Hrun)];
    [by rewrite Hblogs | |]; rewrite Hrun in *.
  - exists doc. unfold world_after. simpl.
    split; [apply lookup_insert_eq |]. split; [exact Himg |].
    split; [apply written_disk | apply written_no_unlink].
  - apply status_of_Ok in H200. done.
Qed.

Lemma products_post_success (req : Products.Request) (w : World) :
  accepted Products.storage 10 (Products.parts req) →
  answered (Products.post env req w) 201 →
  let files := stored_file Products.storage <$> Products.parts req in
  let w' := world_after (Products.post env req w) in
  ∃ doc, products w' !! fresh_id env = Some doc
         ∧ p_images doc = filename <$> files
         ∧ disk w' = disk w ∪ list_to_set (path <$> files)
         ∧ no_new_unlink w w'.
Proof.
  intros Hacc H201 files w'. subst w'.
  pose proof (upload_array_accepted _ _ _ w Hacc) as Hup. fold files in Hup.
  unfold Products.post, Products.upload in *. rewrite (route_run _ _ _ _ _ _ Hup) in *.
  destruct (validateProduct (Products.req_body req)) as [r|] eqn:V.
  { apply status_of_Ok in H201. rewrite (validateProduct_rejects _ _ V) in H201. done. }
  destruct (products_create_run env (Products.req_body req) files
              (written (path <$> files) w))
    as [(doc & Himg & Hrun) | (code & msg & w2 & Hrun & Hcode & _)]; rewrite Hrun in *.
  - exists doc. unfold world_after. simpl.
    split; [apply lookup_insert_eq |]. split; [exact Himg |].
    split; [apply written_disk | apply written_no_unlink].
  - apply status_of_Ok in H201. simpl in H201. lia.
Qed.

Lemma products_put_success (req : Products.Request) (w : World) (old : ProductDoc) :
  isValid env (Products.params_id req) = true →
  products w !! Products.params_id req = Some old →
  accepted Products.storage 10 (Products.parts req) →
  answered (Products.put env req w) 200 →
  let files := stored_file Products.storage <$> Products.parts req in
  let w' := world_after (Products.put env req w) in
  ∃ doc, products w' !! Products.params_id req = Some doc
         ∧ p_images doc = p_images old ++ (filename <$> files)
         ∧ disk w' = disk w ∪ list_to_set (path <$> files)
         ∧ no_new_unlink w w'.
Proof.
  intros Hvalid Hfound Hacc H200 files w'. subst w'.
  pose proof (upload_array_accepted _ _ _ w Hacc) as Hup. fold files in Hup.
  unfold Products.put, Products.upload in *. rewrite (route_run _ _ _ _ _ _ Hup) in *.
  destruct (validateProduct (Products.req_body req)) as [r|] eqn:V.
  { apply status_of_Ok in H200. rewrite (validateProduct_rejects _ _ V) in H200. done. }
  destruct (written_frame (path <$> files) w) as (_ & _ & Hproducts & _).
  destruct (products_update_run env (Products.params_id req) (Products.req_body req) files
              (written (path <$> files) w) old Hvalid)
    as [(doc & Himg & Hrun) | (msg & Hrun)];
    [by rewrite Hproducts | |]; rewrite Hrun in *.
  - exists doc. unfold world_after. simpl.
    split; [apply lookup_insert_eq |]. split; [exact Himg |].
    split; [apply written_disk | apply written_no_unlink].
  - apply status_of_Ok in H200. done.
Qed.

(** The compensation of the product create: when the upload has gone
    through, the form is valid and the request is not answered 201, every
    file of the request has been unlinked and is gone, and the collections
    are as they were. *)
Lemma products_create_compensation (req : Products.Request) (w : World) :
  accepted Products.storage 10 (Products.parts req) →
  validateProduct (Products.req_body req) = None →
  ¬ answered (Products.post env req w) 201 →
  let files := stored_file Products.storage <$> Products.parts req in
  let w' := world_after (Products.post env req w) in
  (answered (Products.post env req w) 500 ∨ answered (Products.post env req w) 504)
  ∧ disk w' = disk w ∖ list_to_set (path <$> files)
  ∧ (∀ f, f ∈ files → (path f ∉ disk w') ∧ Unlink (path f) ∈ events w')
  ∧ same_collections w w'.
Proof.
  intros Hacc V Hnot files w'. subst w'.
  pose proof (upload_array_accepted _ _ _ w Hacc) as Hup. fold files in Hup.
  unfold Products.post, Products.upload in *. rewrite (route_run _ _ _ _ _ _ Hup), V in *.
  destruct (products_create_run env (Products.req_body req) files
              (written (path <$> files) w))
    as [(doc & Himg & Hrun) | (code & msg & w2 & Hrun & Hcode & Hdisk & Hframe & Hunl)];
    rewrite Hrun in *.
  - exfalso. apply Hnot. by apply status_of_Ok.
  - assert (Hpaths : (λ file, Path.join Products.uploadDir (filename file)) <$> files
                     = path <$> files).
    { subst files. rewrite <- !list_fmap_compose. reflexivity. }
    rewrite Hpaths in Hdisk. rewrite written_disk in Hdisk.
    assert (Hdisk' : disk w2 = disk w ∖ list_to_set (path <$> files)).
    { rewrite Hdisk. apply set_eq. intros x.
      rewrite !elem_of_difference, elem_of_union. tauto. }
    unfold world_after. simpl.
    split; [rewrite !status_of_Ok; simpl; tauto |].
    split; [exact Hdisk' |]. split.
    + intros f Hf. split.
      * rewrite Hdisk', elem_of_difference, elem_of_list_to_set.
        intros [_ Hn]. apply Hn. by apply list_elem_of_fmap_2.
      * destruct (list_elem_of_fmap_1 _ _ _ Hf) as (p & -> & Hp).
        apply (Hunl (stored_file Products.storage p)).
        by apply list_elem_of_fmap_2.
    + destruct (written_frame (path <$> files) w) as (? & ? & ? & ?).
      destruct Hframe as (? & ? & ? & ?).
      unfold same_collections. repeat split; congruence.
Qed.

Lemma products_save_raced (id : string) (d : ProductDoc) (w : World) (t : N) :
  JS.truthy (p_category d) = true → save_answer env = SaveOk t →
  Products.save env (Some timeoutMs) id d w
  = if (t <? timeoutMs)%N then (Ok d, with_products (<[id := d]>) w)
    else (Thrown (mkError "Error" "Database operation timed out"), w).
Proof.
  intros Hc Ha. unfold Products.save. rewrite Hc, Ha. simpl.
  by destruct (t <? timeoutMs)%N.
Qed.

(** The create, by what the raced save of its document answers. *)
Lemma products_create_by_save (b : ProductBody) (files : list File) (w : World) :
  let doc := Products.new_product env b files in
  match Products.save env (Some timeoutMs) (fresh_id env) doc w with
  | (Ok saved, w1) =>
      Products.create env b files w
      = (Ok (json 201 (Whole (JProduct (fresh_id env) saved))), w1)
  | (Thrown e, w1) =>
      ∃ msg w',
        Products.create env b files w
        = (Ok (json (if String.eqb (err_message e) "Database operation timed out"
                     then 504 else 500) (message_body msg)), w')
  end.
Proof.
  intros doc. unfold Products.create.
  match goal with |- context [Products.save env ?bd ?i ?d] => change d with doc end.
  destruct (Products.save env (Some timeoutMs) (fresh_id env) doc w)
    as [[saved | e] w1] eqn:Hs.
  - apply try_Ok. by rewrite (bind_Ok _ _ _ _ _ Hs).
  - destruct (unlink_logged_run
                (λ file, Path.join Products.uploadDir (filename file))
                "Error deleting file:" files w1)
      as (w2 & Hloop & _).
    eexists _, _.
    rewrite (try_Thrown _ _ w w1 e) by (by rewrite (bind_Thrown _ _ _ _ _ Hs)).
    rewrite (bind_Ok _ _ _ _ _ Hloop). reflexivity.
Qed.

Lemma products_post_accepted (req : Products.Request) (w : World) :
  accepted Products.storage 10 (Products.parts req) →
  validateProduct (Products.req_body req) = None →
  let files := stored_file Products.storage <$> Products.parts req in
  ∃ r w', Products.create env (Products.req_body req) files (written (path <$> files) w)
          = (Ok r, w')
          ∧ Products.post env req w = (Ok r, w').
Proof.
  intros Hacc V files.
  pose proof (upload_array_accepted _ _ _ w Hacc) as Hup. fold files in Hup.
  unfold Products.post, Products.upload. rewrite (route_run _ _ _ _ _ _ Hup), V.
  destruct (products_create_run env (Products.req_body req) files
              (written (path <$> files) w))
    as [(doc & _ & Hrun) | (code & msg & w2 & Hrun & _)]; rewrite Hrun; by eexists _, _.
Qed.

(** The record of a create answered 201 is the document of the form. *)
Lemma products_post_stores (req : Products.Request) (w : World) :
  accepted Products.storage 10 (Products.parts req) →
  answered (Products.post env req w) 201 →
  let files := stored_file Products.storage <$> Products.parts req in
  products (world_after (Products.post env req w))
  = <[fresh_id env := Products.new_product env (Products.req_body req) files]> (products w).
Proof.
  intros Hacc H201 files.
  destruct (validateProduct (Products.req_body req)) as [r|] eqn:V.
  { exfalso. pose proof (upload_array_accepted _ _ _ w Hacc) as Hup.
    unfold Products.post, Products.upload in H201.
    rewrite (route_run _ _ _ _ _ _ Hup), V in H201.
    apply status_of_Ok in H201. rewrite (validateProduct_rejects _ _ V) in H201. done. }
  destruct (products_post_accepted req w Hacc V) as (r & w' & Hcreate & Hpost).
  fold files in Hcreate. rewrite Hpost in *. apply status_of_Ok in H201.
  pose proof (products_create_by_save (Products.req_body req) files
                (written (path <$> files) w)) as H. cbv zeta in H.
  destruct (products_save_cases env (Some timeoutMs) (fresh_id env)
              (Products.new_product env (Products.req_body req) files)
              (written (path <$> files) w)) as [Hs | (e & Hs)]; rewrite Hs in H.
  - rewrite H in Hcreate. injection Hcreate as _ <-. unfold world_after. simpl.
    destruct (written_frame (path <$> files) w) as (_ & _ & -> & _). done.
  - destruct H as (msg & w2 & H). rewrite H in Hcreate. injection Hcreate as <- _.
    simpl in H201. destruct (String.eqb _ _); done.
Qed.

(** A create answered 201 has won the race: nothing is left to settle. *)
Lemma products_post_settled (req : Products.Request) (w : World) :
  accepted Products.storage 10 (Products.parts req) →
  answered (Products.post env req w) 201 →
  settled env req (world_after (Products.post env req w))
  = world_after (Products.post env req w).
Proof.
  intros Hacc H201.
  destruct (validateProduct (Products.req_body req)) as [r|] eqn:V.
  { exfalso. pose proof (upload_array_accepted _ _ _ w Hacc) as Hup.
    unfold Products.post, Products.upload in H201.
    rewrite (route_run _ _ _ _ _ _ Hup), V in H201.
    apply status_of_Ok in H201. rewrite (validateProduct_rejects _ _ V) in H201. done. }
  destruct (products_post_accepted req w Hacc V) as (r & w' & Hcreate & Hpost).
  rewrite Hpost in *. apply status_of_Ok in H201.
  set (files := stored_file Products.storage <$> Products.parts req) in *.
  set (doc := Products.new_product env (Products.req_body req) files).
  unfold settled, Products.late_save. fold files. fold doc.
  change (p_category doc) with (category (Products.req_body req)).
  destruct (JS.truthy (category (Products.req_body req))) eqn:Hc; [| done].
  destruct (save_answer env) as [t | t e] eqn:Ha; [| done]. simpl.
  destruct (t <? timeoutMs)%N eqn:Ht; [done |]. exfalso.
  pose proof (products_create_by_save (Products.req_body req) files
                (written (path <$> files) w)) as H. cbv zeta in H. fold doc in H.
  rewrite (products_save_raced _ doc _ t Hc Ha), Ht in H.
  destruct H as (msg & w2 & H). rewrite H in Hcreate. injection Hcreate as <- _.
  simpl in H201. done.
Qed.

(** The save that lost the race.  After a create that has passed
    validation and is not answered 201, the world stays as it is when the
    response is sent, unless the datastore resolves the save after the
    budget: the request is answered 504, and the record is stored
    afterwards, with references to files that have been unlinked. *)
Lemma products_create_settles (req : Products.Request) (w : World) :
  accepted Products.storage 10 (Products.parts req) →
  validateProduct (Products.req_body req) = None →
  ¬ answered (Products.post env req w) 201 →
  let files := stored_file Products.storage <$> Products.parts req in
  let doc := Products.new_product env (Products.req_body req) files in
  let w' := world_after (Products.post env req w) in
  let w'' := settled env req w' in
  (JS.truthy (category (Products.req_body req)) = false →
     w'' = w' ∧ same_collections w w')
  ∧ (∀ t e, save_answer env = SaveFails t e → w'' = w' ∧ same_collections w w')
  ∧ (∀ t, JS.truthy (category (Products.req_body req)) = true →
        save_answer env = SaveOk t →
        (timeoutMs ≤ t)%N
        ∧ answered (Products.post env req w) 504
        ∧ products w'' = <[fresh_id env := doc]> (products w)
        ∧ (cloud w'' = cloud w ∧ blogs w'' = blogs w
           ∧ cloud_products w'' = cloud_products w)
        ∧ disk w'' = disk w'
        ∧ p_images doc = filename <$> files
        ∧ (∀ f, f ∈ files →
             Products.image_file (filename f) = path f ∧ path f ∉ disk w'')).
Proof.
  intros Hacc V Hnot files doc w' w''.
  destruct (products_create_compensation req w Hacc V Hnot)
    as (_ & _ & Hgone & Hframe).
  fold files w' in Hgone, Hframe.
  pose proof Hframe as (Hcloud & Hblogs & Hproducts & Hcp).
  split.
  { intros Hc. split; [| done].
    subst w''. unfold settled, Products.late_save. simpl. by rewrite Hc. }
  split.
  { intros t e Ha. split; [| done].
    subst w''. unfold settled, Products.late_save. simpl. rewrite Ha.
    by destruct (negb _). }
  intros t Hc Ha.
  destruct (products_post_accepted req w Hacc V) as (r & w1 & Hcreate & Hpost).
  fold files in Hcreate.
  pose proof (products_create_by_save (Products.req_body req) files
                (written (path <$> files) w)) as H. cbv zeta in H. fold doc in H.
  rewrite (products_save_raced _ doc _ t Hc Ha) in H.
  destruct (t <? timeoutMs)%N eqn:Ht.
  { exfalso. apply Hnot. rewrite Hpost. rewrite H in Hcreate.
    injection Hcreate as <- _. by apply status_of_Ok. }
  apply N.ltb_ge in Ht.
  destruct H as (msg & w2 & H). rewrite H in Hcreate. injection Hcreate as <- _.
  assert (Hlate : w'' = with_products (<[fresh_id env := doc]>) w').
  { subst w''. unfold settled, Products.late_save. fold files. fold doc.
    change (p_category doc) with (category (Products.req_body req)).
    rewrite Hc, Ha. simpl.
    destruct (N.ltb_spec t timeoutMs); [lia | done]. }
  split; [exact Ht |].
  split; [rewrite Hpost; by apply status_of_Ok |].
  split; [rewrite Hlate; simpl; by rewrite Hproducts |].
  split; [by rewrite Hlate |].
  split; [by rewrite Hlate |].
  split; [done |].
  intros f Hf. split.
  - apply list_elem_of_fmap in Hf as (p & -> & _). apply product_image_file.
  - rewrite Hlate. simpl. by apply Hgone.
Qed.

End Lifecycle.

(** ** Compensation of a failed create *)

(** The product create meets the 30-second budget with a 504 and removes
    the uploaded file. *)
Example products_create_timeout :
  let r := Products.post Sample.env_save_slow
             (Sample.product_request EmptyString
                (Sample.product_body "abc" "12.50" "0123456789") [Sample.photo])
             Sample.empty_world in
  answered r 504 ∧ disk (world_after r) = ∅ ∧ products (world_after r) = ∅.
Proof. vm_compute. repeat split. Qed.

(** C4.  A create whose persistence fails is to delete every file
    uploaded in the request.  The blog create with one image and a
    datastore that rejects the save answers 400 and leaves the image on
    the disk with no record: its catch clause only answers. *)
Theorem blog_create_leaves_files :
  let r := Blog.post Sample.env_save_fails Uploads.new_blog Sample.empty_world in
  accepted Blog.storage 10 (Blog.parts Uploads.new_blog)
  ∧ Blog.validateBlogPost (Blog.req_body Uploads.new_blog) = None
  ∧ answered r 400
  ∧ "/app/public/uploads/1700000000000.PNG" ∈ disk (world_after r)
  ∧ blogs (world_after r) = ∅
  ∧ events (world_after r) = [WriteFile "/app/public/uploads/1700000000000.PNG"].
Proof.
  intros r. split; [apply photo_accepted |].
  split; [reflexivity |]. split; [reflexivity |].
  split; [apply (bool_decide_unpack _); vm_compute; exact I |].
  split; vm_compute; reflexivity.
Qed.

(** ** The upload-lifecycle invariant *)

(** C1, as stated, fails: an update of a blog that does not exist is
    answered 404 after its image has been stored; the image stays on the
    disk and no record refers to it. *)
Lemma upload_lifecycle_counterexample :
  ¬ (∀ (env : Env) (req : Blog.Request) (w : World),
       accepted Blog.storage 10 (Blog.parts req) →
       let w' := world_after (Blog.put env req w) in
       ∀ f, f ∈ stored_file Blog.storage <$> Blog.parts req →
         (path f ∉ disk w')
         ∨ ∃ doc, blogs w' !! Blog.params_id req = Some doc
                  ∧ ("/uploads/" +:+ filename f) ∈ b_images doc).
Proof.
  intros H.
  destruct (H Sample.env Uploads.update_absent_blog Sample.empty_world
              (proj2 photo_accepted) (stored_file Blog.storage Sample.photo))
    as [Hgone | (doc & Hdoc & _)].
  - simpl. left.
  - apply Hgone. apply (bool_decide_unpack _). vm_compute. exact I.
  - vm_compute in Hdoc. discriminate.
Qed.

(** C1, amended.  After a create or an update of the local routers that
    is answered with success, the saved record holds a reference for every
    file uploaded in the request (a created record exactly these, an
    updated record its old references followed by these), every such
    reference resolves to the file that was stored, the file is in the
    store, and the request has deleted nothing.  After a product create
    that has passed validation and is not answered 201, every file
    uploaded in the request has been deleted.  When the save was rejected,
    by the schema or by the datastore, the collections are as they were
    and nothing is left to happen.  When the datastore resolves the save
    after the budget of 30 seconds, the race does not cancel it: the
    request is answered 504 and, once that save has settled, the record is
    stored, with references to the files just deleted. *)
Theorem upload_lifecycle_on_success (env : Env) (w : World) :
  (∀ req : Blog.Request,
      accepted Blog.storage 10 (Blog.parts req) →
      answered (Blog.post env req w) 201 →
      let files := stored_file Blog.storage <$> Blog.parts req in
      let w' := world_after (Blog.post env req w) in
      ∃ doc, blogs w' !! fresh_id env = Some doc
             ∧ b_images doc = (λ f, "/uploads/" +:+ filename f) <$> files
             ∧ disk w' = disk w ∪ list_to_set (path <$> files)
             ∧ no_new_unlink w w')
  ∧ (∀ (req : Blog.Request) (old : BlogDoc),
      isValid env (Blog.params_id req) = true →
      blogs w !! Blog.params_id req = Some old →
      accepted Blog.storage 10 (Blog.parts req) →
      answered (Blog.put env req w) 200 →
      let files := stored_file Blog.storage <$> Blog.parts req in
      let w' := world_after (Blog.put env req w) in
      ∃ doc, blogs w' !! Blog.params_id req = Some doc
             ∧ b_images doc = b_images old ++ ((λ f, "/uploads/" +:+ filename f) <$> files)
             ∧ disk w' = disk w ∪ list_to_set (path <$> files)
             ∧ no_new_unlink w w')
  ∧ (∀ req : Products.Request,
      accepted Products.storage 10 (Products.parts req) →
      answered (Products.post env req w) 201 →
      let files := stored_file Products.storage <$> Products.parts req in
      let w' := world_after (Products.post env req w) in
      ∃ doc, products w' !! fresh_id env = Some doc
             ∧ p_images doc = filename <$> files
             ∧ disk w' = disk w ∪ list_to_set (path <$> files)
             ∧ no_new_unlink w w'
             ∧ products w'
               = <[fresh_id env := Products.new_product env (Products.req_body req) files]>
                   (products w)
             ∧ settled env req w' = w')
  ∧ (∀ (req : Products.Request) (old : ProductDoc),
      isValid env (Products.params_id req) = true →
      products w !! Products.params_id req = Some old →
      accepted Products.storage 10 (Products.parts req) →
      answered (Products.put env req w) 200 →
      let files := stored_file Products.storage <$> Products.parts req in
      let w' := world_after (Products.put env req w) in
      ∃ doc, products w' !! Products.params_id req = Some doc
             ∧ p_images doc = p_images old ++ (filename <$> files)
             ∧ disk w' = disk w ∪ list_to_set (path <$> files)
             ∧ no_new_unlink w w')
  ∧ (∀ p : Part,
      Blog.image_file ("/uploads/" +:+ filename (stored_file Blog.storage p))
      = path (stored_file Blog.storage p)
      ∧ Products.image_file (filename (stored_file Products.storage p))
        = path (stored_file Products.storage p))
  ∧ (∀ req : Products.Request,
      accepted Products.storage 10 (Products.parts req) →
      validateProduct (Products.req_body req) = None →
      ¬ answered (Products.post env req w) 201 →
      let files := stored_file Products.storage <$> Products.parts req in
      let doc := Products.new_product env (Products.req_body req) files in
      let w' := world_after (Products.post env req w) in
      let w'' := settled env req w' in
      (answered (Products.post env req w) 500 ∨ answered (Products.post env req w) 504)
      ∧ disk w' = disk w ∖ list_to_set (path <$> files)
      ∧ (∀ f, f ∈ files → (path f ∉ disk w') ∧ Unlink (path f) ∈ events w')
      ∧ (JS.truthy (category (Products.req_body req)) = false →
           w'' = w' ∧ same_collections w w')
      ∧ (∀ t e, save_answer env = SaveFails t e → w'' = w' ∧ same_collections w w')
      ∧ (∀ t, JS.truthy (category (Products.req_body req)) = true →
            save_answer env = SaveOk t →
            (timeoutMs ≤ t)%N
            ∧ answered (Products.post env req w) 504
            ∧ products w'' = <[fresh_id env := doc]> (products w)
            ∧ (cloud w'' = cloud w ∧ blogs w'' = blogs w
               ∧ cloud_products w'' = cloud_products w)
            ∧ disk w'' = disk w'
            ∧ p_images doc = filename <$> files
            ∧ (∀ f, f ∈ files →
                 Products.image_file (filename f) = path f ∧ path f ∉ disk w''))).
Proof.
  split; [intros req; apply blog_post_success |].
  split; [intros req old; apply blog_put_success |].
  split.
  { intros req Hacc H201 files w'.
    destruct (products_post_success env req w Hacc H201) as (doc & H1 & H2 & H3 & H4).
    exists doc. do 4 (split; [assumption |]).
    split; [by apply products_post_stores |].
    by apply products_post_settled. }
  split; [intros req old; apply products_put_success |].
  split; [intros p; split; [apply blog_image_file | apply product_image_file] |].
  intros req Hacc V Hnot files doc w' w''.
  destruct (products_create_compensation env req w Hacc V Hnot) as (H1 & H2 & H3 & _).
  do 3 (split; [assumption |]).
  by apply products_create_settles.
Qed.

Lemma upload_lifecycle_on_success_witness :
  let w' := world_after (Blog.put Sample.env Uploads.update_blog Uploads.blog_world) in
  let late := Products.post Sample.env_save_slow
                (Sample.product_request EmptyString
                   (Sample.product_body "abc" "12.50" "0123456789") [Sample.photo])
                Sample.empty_world in
  let after := settled Sample.env_save_slow
                 (Sample.product_request EmptyString
                    (Sample.product_body "abc" "12.50" "0123456789") [Sample.photo])
                 (world_after late) in
  answered (Blog.put Sample.env Uploads.update_blog Uploads.blog_world) 200
  ∧ (∃ doc, blogs w' !! Uploads.blog_id = Some doc
            ∧ b_images doc = ["/uploads/a.png"; "/uploads/b.png"; "/uploads/c.png";
                              "/uploads/1700000000000.PNG"])
  ∧ "/app/public/uploads/1700000000000.PNG" ∈ disk w'
  ∧ answered late 504
  ∧ p_images <$> (products after !! fresh_id Sample.env_save_slow)
    = Some ["product-1700000000000.png"]
  ∧ disk after = ∅.
Proof.
  intros w' late after.
  assert (H200 : answered (Blog.put Sample.env Uploads.update_blog Uploads.blog_world) 200)
    by reflexivity.
  destruct (upload_lifecycle_on_success Sample.env Uploads.blog_world)
    as (_ & Hput & _).
  destruct (upload_lifecycle_on_success Sample.env_save_slow Sample.empty_world)
    as (_ & _ & _ & _ & _ & Hlate).
  destruct (Hput Uploads.update_blog Uploads.old_blog)
    as (doc & Hdoc & Himg & Hdisk & _).
  - reflexivity.
  - reflexivity.
  - apply photo_accepted.
  - exact H200.
  - destruct (Hlate (Sample.product_request EmptyString
                       (Sample.product_body "abc" "12.50" "0123456789") [Sample.photo]))
      as (_ & Hd & _ & _ & _ & Hslow).
    + apply photo_accepted.
    + reflexivity.
    + intros H. vm_compute in H. discriminate.
    + destruct (Hslow 31000%N) as (_ & H504 & Hstored & _ & Hsame & _); try reflexivity.
      split; [exact H200 |]. split.
      { exists doc. split; [exact Hdoc |]. rewrite Himg. reflexivity. }
      split.
      { subst w'. rewrite Hdisk. apply elem_of_union. right.
        apply elem_of_list_to_set. simpl. left. }
      split; [exact H504 |].
      split.
      { subst after late. rewrite Hstored. rewrite lookup_insert_eq. reflexivity. }
      subst after late. rewrite Hsame, Hd. vm_compute. reflexivity.
Defined.

(** ** The update of the local variant *)




(** ** Delete *)

Section Delete.

Variable env : Env.


Lemma products_delete_run (req : Products.Request) (w : World) :
  isValid env (Products.params_id req) = true →
  match products w !! Products.params_id req with
  | None =>
      Products.delete env req w
      = (Ok (json 404 (Fields [("success", JBool false);
                               ("message", JStr "Product not found")])), w)
  | Some product =>
      ∃ w', Products.delete env req w
            = (Ok (json 200 (Fields [("success", JBool true);
                                     ("message", JStr "Product deleted successfully")])), w')
            ∧ products w' = base.delete (Products.params_id req) (products w)
            ∧ disk w' ⊆ disk w
            ∧ cloud w' = cloud w ∧ blogs w' = blogs w
            ∧ cloud_products w' = cloud_products w
            ∧ unlinked_best_effort "Error deleting image file:"
                (Path.join public_dir <$> p_images product) w w'
  end.
Proof.
  intros Hvalid. unfold Products.delete, findById, try_catch. rewrite Hvalid. simpl.
  destruct (products w !! Products.params_id req) as [product|] eqn:Hfound.
  - rewrite (bind_Ok _ _ w w (Some product)) by (unfold read; by rewrite Hfound).
    destruct (unlink_present_best_effort (Path.join public_dir)
                "Error deleting image file:" (p_images product) w)
      as (w1 & Hrun & (Hc & Hb & Hp & Hcp) & Hbest).
    cbv beta iota zeta. rewrite (bind_Ok _ _ _ _ _ Hrun).
    eexists. split; [reflexivity |]. simpl.
    split; [by rewrite Hp |].
    split.
    { destruct Hbest as (Hdisk & _). rewrite Hdisk. intros x.
      rewrite elem_of_difference. tauto. }
    do 3 (split; [done |]). exact Hbest.
  - by rewrite (bind_Ok _ _ w w None) by (unfold read; by rewrite Hfound).
Qed.



End Delete.

(** The product router on the local disk stores an upload in the
    directory [uploads/products] and keeps the bare file name as the
    reference; its delete route looks for the reference directly below the
    public directory.  A product created with one image and then deleted
    leaves the image on the disk. *)
Example products_delete_misses_created_file :
  let created := Products.post Sample.env
                   (Sample.product_request EmptyString
                      (Sample.product_body "abc" "12.50" "0123456789") [Sample.photo])
                   Sample.empty_world in
  let deleted := Products.delete Sample.env
                   (Sample.product_request (fresh_id Sample.env)
                      (Sample.product_body "abc" "12.50" "0123456789") [])
                   (world_after created) in
  answered created 201
  ∧ p_images <$> (products (world_after created) !! fresh_id Sample.env)
    = Some ["product-1700000000000.png"]
  ∧ answered deleted 200
  ∧ products (world_after deleted) = ∅
  ∧ disk (world_after deleted)
    = {["/app/public/uploads/products/product-1700000000000.png"]}.
Proof. vm_compute. repeat split. Qed.




(** ** Decimal texts *)

Section DecimalText.

Lemma uint_value_pos (u : Decimal.uint) (acc : positive) :
  uint_value u (Npos acc) = Npos (Pos.of_uint_acc u acc).
Proof.
  revert acc. induction u; intros acc; simpl; [done | ..];
    match goal with |- uint_value _ ?a = _ =>
      match goal with |- _ = Npos (Pos.of_uint_acc _ ?b) =>
        replace a with (Npos b) by lia
      end
    end; apply IHu.
Qed.

Lemma uint_value_of_uint (u : Decimal.uint) : uint_value u 0 = N.of_uint u.
Proof.
  induction u; simpl; [done | exact IHu | ..];
    match goal with |- uint_value _ ?a = _ =>
      let p := eval vm_compute in a in change a with p
    end; apply uint_value_pos.
Qed.

Lemma uint_chars_digits (u : Decimal.uint) : Forall dec_digit (uint_chars u).
Proof.
  unfold uint_chars, dec_digit.
  induction u; simpl; [constructor | ..];
    (constructor; [| exact IHu]);
    repeat first [apply list_elem_of_here | apply list_elem_of_further].
Qed.

Lemma digits_uint (u : Decimal.uint) :
  ∀ (acc : N) (cnt : nat),
  JS.digits 10 acc cnt (uint_chars u)
  = (uint_value u acc, (cnt + length (uint_chars u))%nat, []).
Proof.
  unfold uint_chars.
  induction u; intros acc cnt; simpl;
    [by rewrite Nat.add_0_r | ..];
    rewrite IHu; do 2 f_equal; lia.
Qed.


Lemma dec_digit_cases (c : ascii) (P : ascii → Prop) :
  dec_digit c →
  P "0"%char → P "1"%char → P "2"%char → P "3"%char → P "4"%char →
  P "5"%char → P "6"%char → P "7"%char → P "8"%char → P "9"%char → P c.
Proof.
  unfold dec_digit. rewrite !elem_of_cons, elem_of_nil.
  intros [->|[->|[->|[->|[->|[->|[->|[->|[->|[->|[]]]]]]]]]]]; done.
Qed.

Ltac digit_cases H :=
  match type of H with
  | dec_digit ?c => pattern c; apply (dec_digit_cases c _ H)
  end.

Lemma trim_left_digits (l : list ascii) : Forall dec_digit l → JS.trim_left l = l.
Proof.
  intros [|c r Hc _]; [done |].
  digit_cases Hc; reflexivity.
Qed.

Lemma trim_digits (l : list ascii) : Forall dec_digit l → JS.trim l = l.
Proof.
  intros H. unfold JS.trim. rewrite (trim_left_digits l H).
  rewrite trim_left_digits by (by apply Forall_rev).
  apply rev_involutive.
Qed.

(** A non-empty text of decimal digits reads as the number whose
    numeral it is, through [Number] and through [parseInt]. *)
Lemma ToNumber_digits (s : string) (v : N) (k : nat) :
  Forall dec_digit (list_ascii_of_string s) →
  JS.digits 10 0 0 (list_ascii_of_string s) = (v, S k, []) →
  JS.ToNumber s = JS.Fin (inject_Z (Z.of_N v)).
Proof.
  intros Hall Hdigits. unfold JS.ToNumber. rewrite (trim_digits _ Hall).
  assert (Hdec : JS.unsigned_decimal (list_ascii_of_string s)
                 = Some (JS.Fin (inject_Z (Z.of_N v)), [])).
  { unfold JS.unsigned_decimal. rewrite Hdigits.
    destruct (list_ascii_of_string s) as [|c r]; [simpl in Hdigits; congruence |].
    apply Forall_cons in Hall as [Hc _].
    replace (JS.strip_prefix (list_ascii_of_string "Infinity") (c :: r)) with
      (@None (list ascii)) by (digit_cases Hc; reflexivity).
    simpl. unfold JS.scale. simpl. by rewrite Z.mul_1_r. }
  destruct (list_ascii_of_string s) as [|c r]; [simpl in Hdigits; congruence |].
  pose proof Hall as Hall'. apply Forall_cons in Hall' as [Hc Hr].
  destruct (ascii_dec c "0") as [->|Hz].
  - destruct r as [|x r];
      [cbv beta iota zeta delta [JS.sign]; by rewrite Hdec |].
    apply Forall_cons in Hr as [Hx _].
    replace (if Ascii.eqb x "x" || Ascii.eqb x "X" then Some 16%N
             else if Ascii.eqb x "o" || Ascii.eqb x "O" then Some 8%N
             else if Ascii.eqb x "b" || Ascii.eqb x "B" then Some 2%N
             else None) with (@None N)
      by (digit_cases Hx; reflexivity).
    by rewrite Hdec.
  - assert (Hsign : JS.sign (c :: r) = (false, c :: r))
      by (digit_cases Hc; reflexivity).
    clear Hdigits Hall. revert Hz Hsign Hdec.
    digit_cases Hc; intros Hz Hsign Hdec; try done;
      rewrite Hsign, Hdec; reflexivity.
Qed.

Lemma parseInt_digits (s : string) (v : N) (k : nat) :
  Forall dec_digit (list_ascii_of_string s) →
  JS.digits 10 0 0 (list_ascii_of_string s) = (v, S k, []) →
  JS.parseInt s = Some (Z.of_N v).
Proof.
  intros Hall Hdigits. unfold JS.parseInt. rewrite (trim_left_digits _ Hall).
  destruct (list_ascii_of_string s) as [|c r]; [simpl in Hdigits; congruence |].
  pose proof Hall as Hall'. apply Forall_cons in Hall' as [Hc Hr].
  assert (Hsign : JS.sign (c :: r) = (false, c :: r))
    by (digit_cases Hc; reflexivity).
  rewrite Hsign.
  assert (Hradix :
    match c :: r with
    | "0"%char :: x :: r' =>
        if Ascii.eqb x "x" || Ascii.eqb x "X" then (16%N, r') else (10%N, c :: r)
    | _ => (10%N, c :: r)
    end = (10%N, c :: r)).
  { destruct (ascii_dec c "0") as [->|Hz].
    - destruct r as [|x r]; [done |]. apply Forall_cons in Hr as [Hx _].
      digit_cases Hx; reflexivity.
    - clear Hdigits Hall Hsign. revert Hz. digit_cases Hc; intros Hz; done. }
  rewrite Hradix, Hdigits. reflexivity.
Qed.

Lemma Number_toString_chars (n : N) :
  ∃ u, list_ascii_of_string (Number_toString n) = uint_chars u
       ∧ uint_value u 0 = n ∧ uint_chars u ≠ [].
Proof.
  unfold Number_toString, NilZero.string_of_uint.
  pose proof (DecimalN.Unsigned.of_to n) as Hn.
  destruct (N.to_uint n) as [|u|u|u|u|u|u|u|u|u|u] eqn:E.
  { exists (Decimal.D0 Decimal.Nil). split; [done |]. split; [| done].
    simpl in *. done. }
  all: eexists; split; [reflexivity |]; split;
    [by rewrite uint_value_of_uint | done].
Qed.

Lemma ToNumber_toString (n : N) :
  JS.ToNumber (Number_toString n) = JS.Fin (inject_Z (Z.of_N n)).
Proof.
  destruct (Number_toString_chars n) as (u & Hu & Hv & Hne).
  pose proof (digits_uint u 0 0) as Hd. rewrite Hv in Hd.
  destruct (uint_chars u) as [|c r] eqn:E; [done |].
  apply (ToNumber_digits _ n (length r)).
  - rewrite Hu, <- E. apply uint_chars_digits.
  - rewrite Hu. exact Hd.
Qed.

Lemma parseInt_toString (n : N) :
  JS.parseInt (Number_toString n) = Some (Z.of_N n).
Proof.
  destruct (Number_toString_chars n) as (u & Hu & Hv & Hne).
  pose proof (digits_uint u 0 0) as Hd. rewrite Hv in Hd.
  destruct (uint_chars u) as [|c r] eqn:E; [done |].
  apply (parseInt_digits _ n (length r)).
  - rewrite Hu, <- E. apply uint_chars_digits.
  - rewrite Hu. exact Hd.
Qed.


End DecimalText.

(** ** More on the listings *)

Section ListingMore.

Lemma reads_as_toString (n : N) (d : Z) :
  reads_as (Some (Number_toString n)) d (Z.of_N n).
Proof.
  split; [| apply parseInt_toString].
  exists (inject_Z (Z.of_N n)). split; [apply ToNumber_toString | reflexivity].
Qed.

Lemma selected_lookup (docs : gmap string ProductDoc) (c : string) (id : string)
  (d : ProductDoc) :
  c ≠ EmptyString → c ≠ "all" →
  selected p_category (Some c) docs !! id = Some d
  ↔ docs !! id = Some d ∧ p_category d = Some c.
Proof.
  intros Hne Hall. unfold selected.
  rewrite (proj2 (truthy_Some c) Hne). simpl.
  destruct (String.eqb_spec c "all") as [|_]; [done |]. simpl.
  rewrite map_lookup_filter_Some. reflexivity.
Qed.

Lemma selected_unfiltered (docs : gmap string ProductDoc) (c : option string) :
  c = None ∨ c = Some EmptyString ∨ c = Some "all" →
  selected p_category c docs = docs.
Proof. intros [-> | [-> | ->]]; reflexivity. Qed.

Lemma newest_first_elem {D} (key : D → Z) (docs : gmap string D) (id : string) (d : D) :
  (id, d) ∈ newest_first key docs ↔ docs !! id = Some d.
Proof. rewrite newest_first_perm. apply elem_of_map_to_list. Qed.

Lemma pages_concat {A} (l : nat) (L : list A) (n : nat) :
  concat ((λ i, take l (drop (i * l) L)) <$> seq 0 n) = take (n * l) L.
Proof.
  induction n as [|n IH]; [done |].
  rewrite seq_S, fmap_app, concat_app, IH. simpl. rewrite app_nil_r.
  rewrite take_take_drop. f_equal. lia.
Qed.

End ListingMore.

Section ListingTheorems.

Lemma selected_filter (docs : gmap string ProductDoc) (c : string) :
  c ≠ EmptyString → c ≠ "all" →
  selected p_category (Some c) docs = filter (λ kv, p_category (snd kv) = Some c) docs.
Proof.
  intros Hne Hall. unfold selected.
  rewrite (proj2 (truthy_Some c) Hne). simpl.
  by destruct (String.eqb_spec c "all").
Qed.

End ListingTheorems.

(** X1.  The category filter of the product listing is an exact match:
    for a category other than the empty text and [all], every record of
    the answer is a stored product of that category, and the total counts
    the products of that category only; with [all], the empty text or no
    category every product is selected. *)
Theorem listing_category_filter (req : Products.Request) (w : World)
  (c : string) (p l : Z) :
  Products.query_category req = Some c → c ≠ EmptyString → c ≠ "all" →
  reads_as (Products.query_page req) 1 p →
  reads_as (Products.query_limit req) 10 l →
  (1 ≤ p)%Z → (1 ≤ l)%Z →
  (∃ slice,
      listed_products (Products.list_handler req w) = Some slice
      ∧ (∀ id d, (id, d) ∈ slice → products w !! id = Some d ∧ p_category d = Some c))
  ∧ body_field "totalProducts" (Products.list_handler req w)
    = Some (JNum (JS.Fin (inject_Z (Z.of_nat
              (size (filter (λ kv, p_category (snd kv) = Some c) (products w)))))))
  ∧ (∀ other : option string,
      other = None ∨ other = Some EmptyString ∨ other = Some "all" →
      selected p_category other (products w) = products w).
Proof.
  intros Hc Hne Hall Hp Hl Hp1 Hl1.
  destruct (products_listing req w p l Hp Hl Hp1 Hl1) as (n & Hrun & _).
  rewrite Hc in Hrun. rewrite Hrun.
  split; [| split; [| intros other; apply selected_unfiltered]].
  - eexists. split; [reflexivity |].
    intros id d Hin. apply subseteq_take, subseteq_drop in Hin.
    apply newest_first_elem in Hin. by apply selected_lookup in Hin.
  - unfold body_field. simpl. by rewrite selected_filter.
Qed.

Lemma listing_category_filter_witness :
  let req := {| Products.params_id := EmptyString;
                Products.req_body := Sample.product_body "abc" "1" "0123456789";
                Products.parts := [];
                Products.query_category := Some "gifts";
                Products.query_page := Some "2";
                Products.query_limit := Some "10" |} in
  body_field "totalProducts" (Products.list_handler req Catalogue.world)
  = Some (JNum (JS.Fin 15)).
Proof.
  intros req.
  destruct (listing_category_filter req Catalogue.world "gifts" 2 10)
    as (_ & Htotal & _);
    [done | done | done | apply (reads_as_toString 2 1)
     | apply (reads_as_toString 10 10) | lia | lia |].
  rewrite Htotal. vm_compute. reflexivity.
Defined.

(** X2.  The pages of a product listing cover it: with a page size of at
    least 1, the answers for the pages 1 to n, where n pages hold the
    selected records, put one after the other are the selected records
    sorted newest first, each once. *)
Theorem listing_pages_cover (req : Products.Request) (w : World) (l n : nat) :
  Products.query_limit req = Some (Number_toString (N.of_nat l)) →
  (1 ≤ l)%nat →
  (size (selected p_category (Products.query_category req) (products w)) ≤ n * l)%nat →
  ∃ slices,
    Forall2 (λ p slice,
        listed_products
          (Products.list_handler
             (with_page req (Some (Number_toString (N.of_nat p)))) w) = Some slice)
      (seq 1 n) slices
    ∧ concat slices
      = newest_first p_createdAt
          (selected p_category (Products.query_category req) (products w)).
Proof.
  intros Hlimit Hl Hsize.
  set (L := newest_first p_createdAt
              (selected p_category (Products.query_category req) (products w))).
  exists ((λ i, take l (drop (i * l) L)) <$> seq 0 n). split.
  - rewrite <- fmap_S_seq. apply Forall2_fmap, Forall_Forall2_diag, Forall_forall.
    intros i _.
    destruct (products_listing (with_page req (Some (Number_toString (N.of_nat (S i)))))
                w (Z.of_N (N.of_nat (S i))) (Z.of_N (N.of_nat l)))
      as (m & Hrun & _); try lia.
    + apply reads_as_toString.
    + simpl. rewrite Hlimit. apply reads_as_toString.
    + rewrite Hrun. unfold listed_products. simpl. fold L. do 2 f_equal; [lia |].
      f_equal. lia.
  - rewrite pages_concat. apply take_ge. subst L. rewrite newest_first_length. lia.
Qed.

Lemma listing_pages_cover_witness :
  ∃ first second,
    listed_products (Products.list_handler
                       (with_page Catalogue.second_page (Some "1")) Catalogue.world)
      = Some first
    ∧ listed_products (Products.list_handler
                         (with_page Catalogue.second_page (Some "2")) Catalogue.world)
      = Some second
    ∧ first ++ second = newest_first p_createdAt (products Catalogue.world).
Proof.
  destruct (listing_pages_cover Catalogue.second_page Catalogue.world 10 2)
    as (slices & Hall & Hcat).
  - reflexivity.
  - lia.
  - assert (size (products Catalogue.world) = 15) as Hs by (vm_compute; reflexivity).
    change (selected p_category (Products.query_category Catalogue.second_page)
              (products Catalogue.world)) with (products Catalogue.world).
    rewrite Hs. lia.
  - inversion Hall as [|? s1 ? r1 H1 Hrest]; subst.
    inversion Hrest as [|? s2 ? r2 H2 Hnil]; subst.
    inversion Hnil; subst.
    exists s1, s2. split; [exact H1 |]. split; [exact H2 |].
    simpl in Hcat. by rewrite app_nil_r in Hcat.
Defined.

(** X3.  A page past the last one is no error: when the records skipped
    reach the number of selected records, the product listing answers 200
    with an empty list. *)
Theorem listing_past_the_end (req : Products.Request) (w : World) (p l : Z) :
  reads_as (Products.query_page req) 1 p →
  reads_as (Products.query_limit req) 10 l →
  (1 ≤ p)%Z → (1 ≤ l)%Z →
  (Z.of_nat (size (selected p_category (Products.query_category req) (products w)))
   ≤ (p - 1) * l)%Z →
  listed_products (Products.list_handler req w) = Some []
  ∧ world_after (Products.list_handler req w) = w.
Proof.
  intros Hp Hl Hp1 Hl1 Hpast.
  destruct (products_listing req w p l Hp Hl Hp1 Hl1) as (n & Hrun & _).
  rewrite Hrun. split; [| reflexivity].
  unfold listed_products. simpl.
  rewrite drop_ge; [by rewrite take_nil |].
  rewrite newest_first_length. lia.
Qed.

Lemma listing_past_the_end_witness :
  listed_products (Products.list_handler
                     (with_page Catalogue.second_page (Some "3")) Catalogue.world)
  = Some [].
Proof.
  apply (listing_past_the_end (with_page Catalogue.second_page (Some "3"))
           Catalogue.world 3 10).
  - apply (reads_as_toString 3 1).
  - apply (reads_as_toString 10 10).
  - lia.
  - lia.
  - assert (size (products Catalogue.world) = 15) as Hs by (vm_compute; reflexivity).
    change (selected p_category
              (Products.query_category (with_page Catalogue.second_page (Some "3")))
              (products Catalogue.world)) with (products Catalogue.world).
    rewrite Hs. lia.
Defined.





(** ** More on the product create *)

Section CreateMore.

Variable env : Env.

Lemma products_save_outcome (budget : N) (id : string) (d : ProductDoc) (w : World) :
  Products.save env (Some budget) id d w
  = if negb (JS.truthy (p_category d)) then
      (Thrown (mkError "ValidationError"
                 "Product validation failed: category: Path `category` is required."), w)
    else match race budget (save_answer env) with
         | SaveOk _ => (Ok d, with_products (<[id := d]>) w)
         | SaveFails _ e => (Thrown e, w)
         end.
Proof.
  unfold Products.save. destruct (negb (JS.truthy (p_category d))); [done |].
  simpl. by destruct (race budget (save_answer env)).
Qed.

(** The create handler, with the answer of the save in hand. *)
Lemma products_create_outcome (b : ProductBody) (files : list File) (w : World) :
  ∃ doc,
    p_images doc = filename <$> files ∧ p_category doc = category b
    ∧ match Products.save env (Some timeoutMs) (fresh_id env) doc w with
      | (Ok saved, w1) =>
          Products.create env b files w
          = (Ok (json 201 (Whole (JProduct (fresh_id env) saved))), w1)
      | (Thrown e, w1) =>
          ∃ w',
            Products.create env b files w
            = (Ok (json (if String.eqb (err_message e) "Database operation timed out"
                         then 504 else 500)
                     (message_body (if JS.truthy (Some (err_message e))
                                    then err_message e
                                    else "Failed to create product"))), w')
            ∧ disk w' = disk w1 ∖ list_to_set
                          ((λ file, Path.join Products.uploadDir (filename file)) <$> files)
            ∧ same_collections w1 w'
      end.
Proof.
  unfold Products.create.
  match goal with |- context [Products.save env ?bd ?i ?d] =>
    exists d; split; [done |]; split; [done |];
    destruct (Products.save env bd i d w) as [[saved | e] w1] eqn:Hs
  end.
  - apply try_Ok. by rewrite (bind_Ok _ _ _ _ _ Hs).
  - destruct (unlink_logged_run
                (λ file, Path.join Products.uploadDir (filename file))
                "Error deleting file:" files w1)
      as (w2 & Hloop & Hdisk & Hframe & _).
    exists (emit (ConsoleError "Product creation error:") w2). split.
    { rewrite (try_Thrown _ _ w w1 e) by (by rewrite (bind_Thrown _ _ _ _ _ Hs)).
      rewrite (bind_Ok _ _ _ _ _ Hloop). reflexivity. }
    split; [exact Hdisk | exact Hframe].
Qed.

Lemma stored_paths_products (parts : list Part) :
  (λ file, Path.join Products.uploadDir (filename file))
    <$> (stored_file Products.storage <$> parts)
  = stored_paths Products.storage parts.
Proof. unfold stored_paths. rewrite <- !list_fmap_compose. reflexivity. Qed.

Lemma union_difference_same (d p : gset string) : (d ∪ p) ∖ p = d ∖ p.
Proof.
  apply set_eq. intros x. rewrite !elem_of_difference, elem_of_union. tauto.
Qed.

End CreateMore.

(** X6.  The time budget of the product create.  For a valid form with a
    category whose files the upload has taken: when the datastore resolves
    the save in less than 30 seconds the request is answered 201 and the
    record is stored under its new identifier; when the datastore takes 30
    seconds or more, whatever its answer would be, the request is answered
    504, no record is stored by then, and every file of the request has
    been removed. *)
Theorem product_create_time_budget (env : Env) (req : Products.Request) (w : World) :
  accepted Products.storage 10 (Products.parts req) →
  validateProduct (Products.req_body req) = None →
  JS.truthy (category (Products.req_body req)) = true →
  let w' := world_after (Products.post env req w) in
  ((∃ t, save_answer env = SaveOk t ∧ (t < timeoutMs)%N) →
     answered (Products.post env req w) 201
     ∧ is_Some (products w' !! fresh_id env))
  ∧ ((timeoutMs ≤ latency (save_answer env))%N →
     answered (Products.post env req w) 504
     ∧ products w' = products w
     ∧ disk w' = disk w ∖ list_to_set (stored_paths Products.storage (Products.parts req))).
Proof.
  intros Hacc V Hcat w'. subst w'.
  pose proof (upload_array_accepted _ _ _ w Hacc) as Hup.
  unfold Products.post, Products.upload. rewrite (route_run _ _ _ _ _ _ Hup), V.
  set (files := stored_file Products.storage <$> Products.parts req) in *.
  set (w1 := written (path <$> files) w).
  destruct (products_create_outcome env (Products.req_body req) files w1)
    as (doc & Himg & Hdoc & Hcreate).
  rewrite products_save_outcome, Hdoc, Hcat in Hcreate. simpl in Hcreate.
  split.
  - intros (t & Ha & Ht). rewrite Ha in Hcreate. simpl in Hcreate.
    apply N.ltb_lt in Ht. rewrite Ht in Hcreate. rewrite Hcreate.
    split; [reflexivity |]. unfold world_after. simpl.
    rewrite lookup_insert_eq. by eexists.
  - intros Hlate.
    assert (Hrace : race timeoutMs (save_answer env)
                    = SaveFails timeoutMs (mkError "Error" "Database operation timed out")).
    { destruct (save_answer env) as [t | t e]; simpl in *;
        destruct (N.ltb_spec t timeoutMs); (lia || done). }
    rewrite Hrace in Hcreate. destruct Hcreate as (w2 & Hrun & Hdisk & Hframe).
    rewrite Hrun. split; [reflexivity |]. unfold world_after. simpl.
    destruct Hframe as (_ & _ & Hp & _).
    destruct (written_frame (path <$> files) w) as (_ & _ & Hp1 & _).
    split; [fold w1 in Hp1; congruence |].
    rewrite Hdisk. subst files w1. rewrite stored_paths_products, written_disk.
    apply union_difference_same.
Qed.

Lemma product_create_time_budget_witness :
  let req := Sample.product_request EmptyString
               (Sample.product_body "abc" "12.50" "0123456789") [Sample.photo] in
  answered (Products.post Sample.env req Sample.empty_world) 201
  ∧ answered (Products.post Sample.env_save_slow req Sample.empty_world) 504
  ∧ disk (world_after (Products.post Sample.env_save_slow req Sample.empty_world)) = ∅.
Proof.
  intros req.
  destruct (product_create_time_budget Sample.env req Sample.empty_world)
    as [Hfast _]; [apply photo_accepted | reflexivity | reflexivity |].
  destruct (product_create_time_budget Sample.env_save_slow req Sample.empty_world)
    as [_ Hslow]; [apply photo_accepted | reflexivity | reflexivity |].
  destruct Hfast as [H201 _]; [exists 5%N; split; [reflexivity | reflexivity] |].
  destruct Hslow as (H504 & _ & Hdisk); [by vm_compute |].
  split; [exact H201 |]. split; [exact H504 |].
  rewrite Hdisk. vm_compute. reflexivity.
Defined.

(** X7.  The validator does not look at the category, the schema requires
    one.  A valid product form without a category whose files the upload
    has taken is answered 500 by the create, which removes the files of
    the request and stores nothing. *)
Theorem product_create_without_category (env : Env) (req : Products.Request) (w : World) :
  accepted Products.storage 10 (Products.parts req) →
  validateProduct (Products.req_body req) = None →
  JS.truthy (category (Products.req_body req)) = false →
  let w' := world_after (Products.post env req w) in
  answered (Products.post env req w) 500
  ∧ products w' = products w
  ∧ disk w' = disk w ∖ list_to_set (stored_paths Products.storage (Products.parts req)).
Proof.
  intros Hacc V Hcat w'. subst w'.
  pose proof (upload_array_accepted _ _ _ w Hacc) as Hup.
  unfold Products.post, Products.upload. rewrite (route_run _ _ _ _ _ _ Hup), V.
  set (files := stored_file Products.storage <$> Products.parts req) in *.
  set (w1 := written (path <$> files) w).
  destruct (products_create_outcome env (Products.req_body req) files w1)
    as (doc & Himg & Hdoc & Hcreate).
  rewrite products_save_outcome, Hdoc, Hcat in Hcreate. simpl in Hcreate.
  destruct Hcreate as (w2 & Hrun & Hdisk & Hframe).
  rewrite Hrun. split; [reflexivity |]. unfold world_after. simpl.
  destruct Hframe as (_ & _ & Hp & _).
  destruct (written_frame (path <$> files) w) as (_ & _ & Hp1 & _).
  split; [fold w1 in Hp1; congruence |].
  rewrite Hdisk. subst files w1. rewrite stored_paths_products, written_disk.
  apply union_difference_same.
Qed.

Lemma product_create_without_category_witness :
  let req := Sample.product_request EmptyString
               {| title := Some "abc"; tagline := None; price := Some "12.50";
                  category := None; description := Some "0123456789";
                  features := None; specifications := None; tags := None;
                  deletedImages := None |} [Sample.photo] in
  answered (Products.post Sample.env req Sample.empty_world) 500
  ∧ disk (world_after (Products.post Sample.env req Sample.empty_world)) = ∅.
Proof.
  intros req.
  destruct (product_create_without_category Sample.env req Sample.empty_world)
    as (H500 & _ & Hdisk); [apply photo_accepted | reflexivity | reflexivity |].
  split; [exact H500 |]. rewrite Hdisk. vm_compute. reflexivity.
Defined.

(** ** The limits of the upload middleware *)

Section UploadLimits.

Lemma abort_upload_run {A} (stored : list File) (e : Error) (w : World) :
  ∃ w', abort_upload (A := A) stored e w = (Thrown e, w')
        ∧ disk w' = disk w ∖ list_to_set (path <$> stored)
        ∧ same_collections w w'.
Proof.
  unfold abort_upload.
  assert (Hloop : ∀ (l : list File) (w : World), ∃ w',
            for_each l (λ f, try_catch (unlink (path f)) (λ _, mret ())) w = (Ok (), w')
            ∧ disk w' = disk w ∖ list_to_set (path <$> l)
            ∧ same_collections w w').
  { clear. induction l as [|f l IH]; intros w.
    - exists w. split; [done |]. split; [| done]. simpl. by rewrite difference_empty_L.
    - set (w1 := if bool_decide (path f ∈ disk w)
                 then with_disk (λ d, d ∖ {[path f]}) (emit (Unlink (path f)) w)
                 else emit (Unlink (path f)) w).
      assert (Hstep : try_catch (unlink (path f)) (λ _, mret ()) w = (Ok (), w1)).
      { unfold try_catch. rewrite unlink_run. subst w1.
        by destruct (bool_decide (path f ∈ disk w)). }
      assert (Hdisk1 : disk w1 = disk w ∖ {[path f]}).
      { subst w1. destruct (bool_decide (path f ∈ disk w)) eqn:E; [done |].
        apply bool_decide_eq_false in E. simpl. by rewrite difference_absent. }
      assert (Hframe1 : same_collections w w1).
      { subst w1. by destruct (bool_decide (path f ∈ disk w)). }
      destruct (IH w1) as (w2 & Hrun & Hdisk & Hframe).
      exists w2. split.
      { simpl. rewrite (bind_Ok _ _ _ _ _ Hstep). exact Hrun. }
      split.
      { rewrite Hdisk, Hdisk1, fmap_cons. apply difference_cons. }
      destruct Hframe1 as (? & ? & ? & ?), Hframe as (? & ? & ? & ?).
      unfold same_collections. repeat split; congruence. }
  destruct (Hloop stored w) as (w' & Hrun & Hdisk & Hframe).
  exists w'. split; [by rewrite (bind_Ok _ _ _ _ _ Hrun) | done].
Qed.

(** Parts that are not accepted make the middleware fail, with nothing of
    the request left on the disk. *)
Lemma store_parts_rejected (st : Storage) (parts : list Part) :
  ∀ (room : nat) (stored : list File) (w : World),
  ¬ accepted st room parts →
  ∃ e w',
    store_parts st room parts stored w = (Thrown e, w')
    ∧ (err_name e = "MulterError" ∨ ∃ p, p ∈ parts ∧ fileFilter st p = Some e)
    ∧ disk w' ⊆ disk w ∖ list_to_set (path <$> stored)
    ∧ same_collections w w'.
Proof.
  induction parts as [|p parts IH]; intros room stored w Hnot.
  { exfalso. apply Hnot. split; [simpl; lia | constructor]. }
  simpl. destruct room as [|room].
  { destruct (abort_upload_run (A := list File) stored
                (mkError "MulterError" "Unexpected field") w)
      as (w' & Hrun & Hdisk & Hframe).
    exists (mkError "MulterError" "Unexpected field"), w'.
    split; [exact Hrun |]. split; [by left |].
    split; [by rewrite Hdisk | done]. }
  destruct (fileFilter st p) as [e|] eqn:Hfilter.
  { destruct (abort_upload_run (A := list File) stored e w)
      as (w' & Hrun & Hdisk & Hframe).
    exists e, w'. split; [exact Hrun |].
    split; [right; exists p; split; [left | done] |].
    split; [by rewrite Hdisk | done]. }
  unfold writeFile. run_monad.
  set (f := {| filename := name_for st p;
               path := Path.join (destination st) (name_for st p) |}).
  set (w1 := with_disk (λ d, d ∪ {[path f]}) (emit (WriteFile (path f)) w)).
  assert (Hshrink : ∀ X : gset string,
            X ⊆ disk w1 ∖ list_to_set (path <$> (stored ++ [f])) →
            X ⊆ disk w ∖ list_to_set (path <$> stored)).
  { intros X HX x Hx. apply HX in Hx. revert Hx. subst w1. simpl.
    rewrite fmap_app, list_to_set_app_L. simpl.
    rewrite !elem_of_difference, !elem_of_union, elem_of_singleton, elem_of_empty.
    tauto. }
  destruct (N.ltb_spec (fileSize st) (bytes p)) as [Hbig | Hfits].
  { destruct (abort_upload_run (A := list File) (stored ++ [f])
                (mkError "MulterError" "File too large") w1)
      as (w' & Hrun & Hdisk & Hframe).
    exists (mkError "MulterError" "File too large"), w'.
    split; [exact Hrun |]. split; [by left |].
    split; [apply Hshrink; by rewrite Hdisk |].
    destruct Hframe as (? & ? & ? & ?). done. }
  destruct (IH room (stored ++ [f]) w1) as (e & w' & Hrun & Herr & Hdisk & Hframe).
  { intros [Hlen Hall]. apply Hnot. split; [simpl; lia |].
    apply Forall_cons. done. }
  exists e, w'. split; [exact Hrun |].
  split.
  { destruct Herr as [? | (q & Hq & ?)]; [by left |].
    right. exists q. split; [by right | done]. }
  split; [by apply Hshrink |].
  destruct Hframe as (? & ? & ? & ?). done.
Qed.

Lemma route_upload_rejected (upload : M (list File)) (validate : option Response)
  (handler : list File → M Response) (e : Error) (w w' : World) :
  upload w = (Thrown e, w') →
  route upload validate handler w = (Ok (error_middleware e), w').
Proof.
  intros H. unfold route, try_catch. by rewrite (bind_Thrown _ _ _ _ _ H).
Qed.

Lemma upload_error_500 (st : Storage) (parts : list Part) (e : Error) :
  (∀ p e', fileFilter st p = Some e' → err_name e' = "Error") →
  (err_name e = "MulterError" ∨ ∃ p, p ∈ parts ∧ fileFilter st p = Some e) →
  status (error_middleware e) = 500.
Proof.
  intros Hfilter [Hname | (p & _ & Hp)]; unfold error_middleware.
  - by rewrite Hname.
  - by rewrite (Hfilter p e Hp).
Qed.

End UploadLimits.

(** X8.  The limits of the upload.  When a request to create or update a
    product or a blog carries more than 10 files, a file above 5 MiB or,
    for a product, a file whose MIME type is not one of the four image
    types, the request is answered 500 by the error-handling middleware;
    neither the validator nor the handler runs, so the collections are as
    they were, and nothing of the request is left on the disk. *)
Theorem upload_limits (env : Env) (w : World) :
  (∀ req : Products.Request,
      ¬ accepted Products.storage 10 (Products.parts req) →
      (answered (Products.post env req w) 500
       ∧ same_collections w (world_after (Products.post env req w))
       ∧ disk (world_after (Products.post env req w)) ⊆ disk w)
      ∧ (answered (Products.put env req w) 500
         ∧ same_collections w (world_after (Products.put env req w))
         ∧ disk (world_after (Products.put env req w)) ⊆ disk w))
  ∧ (∀ req : Blog.Request,
      ¬ accepted Blog.storage 10 (Blog.parts req) →
      (answered (Blog.post env req w) 500
       ∧ same_collections w (world_after (Blog.post env req w))
       ∧ disk (world_after (Blog.post env req w)) ⊆ disk w)
      ∧ (answered (Blog.put env req w) 500
         ∧ same_collections w (world_after (Blog.put env req w))
         ∧ disk (world_after (Blog.put env req w)) ⊆ disk w)).
Proof.
  split.
  - intros req Hnot.
    destruct (store_parts_rejected Products.storage (Products.parts req) 10 [] w Hnot)
      as (e & w' & Hrun & Herr & Hdisk & Hframe).
    assert (H500 : status (error_middleware e) = 500).
    { apply (upload_error_500 Products.storage (Products.parts req)); [| done].
      intros p e'. simpl. destruct (bool_decide _); [done |]. by intros [= <-]. }
    assert (Hsub : disk w' ⊆ disk w).
    { intros x Hx. apply Hdisk in Hx. by apply elem_of_difference in Hx as [? _]. }
    unfold Products.post, Products.put, Products.upload, upload_array.
    rewrite !(route_upload_rejected _ _ _ _ _ _ Hrun).
    unfold answered, response, world_after. simpl. rewrite H500. done.
  - intros req Hnot.
    destruct (store_parts_rejected Blog.storage (Blog.parts req) 10 [] w Hnot)
      as (e & w' & Hrun & Herr & Hdisk & Hframe).
    assert (H500 : status (error_middleware e) = 500).
    { apply (upload_error_500 Blog.storage (Blog.parts req)); [| done].
      intros p e'. simpl. done. }
    assert (Hsub : disk w' ⊆ disk w).
    { intros x Hx. apply Hdisk in Hx. by apply elem_of_difference in Hx as [? _]. }
    unfold Blog.post, Blog.put, Blog.upload, upload_array.
    rewrite !(route_upload_rejected _ _ _ _ _ _ Hrun).
    unfold answered, response, world_after. simpl. rewrite H500. done.
Qed.

Lemma upload_limits_witness :
  let pdf := {| originalname := "terms.pdf"; mimetype := "application/pdf";
                bytes := 1000; stamp := 1700000000001 |} in
  let req := Sample.product_request EmptyString
               (Sample.product_body "abc" "12.50" "0123456789") [Sample.photo; pdf] in
  answered (Products.post Sample.env req Sample.empty_world) 500
  ∧ disk (world_after (Products.post Sample.env req Sample.empty_world)) = ∅
  ∧ products (world_after (Products.post Sample.env req Sample.empty_world)) = ∅.
Proof.
  intros pdf req.
  destruct (upload_limits Sample.env Sample.empty_world) as [H _].
  destruct (H req) as [(H500 & (_ & _ & Hp & _) & Hdisk) _].
  - intros [_ Hall]. apply Forall_cons in Hall as [_ Hall].
    apply Forall_cons in Hall as [[Hfilter _] _]. vm_compute in Hfilter. discriminate.
  - split; [exact H500 |]. split; [| exact Hp].
    apply set_eq. intros x. split; [apply Hdisk | intros Hx; by apply elem_of_empty in Hx].
Defined.

(** ** What an update may change *)

Section UpdateFrame.

Variable env : Env.

Lemma store_parts_frame (st : Storage) (parts : list Part) :
  ∀ (room : nat) (stored : list File) (w : World),
  same_collections w (snd (store_parts st room parts stored w)).
Proof.
  induction parts as [|p parts IH]; intros room stored w; [done |].
  simpl. destruct room as [|room].
  { destruct (abort_upload_run (A := list File) stored
                (mkError "MulterError" "Unexpected field") w) as (w' & -> & _ & H).
    exact H. }
  destruct (fileFilter st p) as [e|].
  { destruct (abort_upload_run (A := list File) stored e w) as (w' & -> & _ & H).
    exact H. }
  unfold writeFile. run_monad.
  set (f := {| filename := name_for st p;
               path := Path.join (destination st) (name_for st p) |}).
  set (w1 := with_disk (λ d, d ∪ {[path f]}) (emit (WriteFile (path f)) w)).
  destruct (fileSize st <? bytes p)%N.
  - destruct (abort_upload_run (A := list File) (stored ++ [f])
                (mkError "MulterError" "File too large") w1) as (w' & Hrun & _ & H).
    change (same_collections w
              (snd (abort_upload (A := list File) (stored ++ [f])
                      (mkError "MulterError" "File too large") w1))).
    rewrite Hrun. destruct H as (? & ? & ? & ?). done.
  - destruct (IH room (stored ++ [f]) w1) as (? & ? & ? & ?). done.
Qed.

Lemma route_frame (upload : M (list File)) (validate : option Response)
  (handler : list File → M Response) (P : World → World → Prop) (w : World) :
  (∀ w1, same_collections w w1 → P w w1) →
  (∀ files w1, same_collections w w1 → P w (snd (handler files w1))) →
  same_collections w (snd (upload w)) →
  P w (world_after (route upload validate handler w)).
Proof.
  intros Hsame Hhandler Hup. unfold route, try_catch, world_after.
  destruct (upload w) as [[files|e] w1] eqn:E; simpl in Hup.
  - rewrite (bind_Ok _ _ _ _ _ E). destruct validate as [r|]; [by apply Hsame |].
    specialize (Hhandler files w1 Hup).
    by destruct (handler files w1) as [[r|e] w2].
  - rewrite (bind_Thrown _ _ _ _ _ E). by apply Hsame.
Qed.

(** The update of a product answers, and stores at most the record it
    was asked to update. *)
Lemma products_update_cases (id : string) (b : ProductBody) (files : list File)
  (w : World) :
  ∃ r w', Products.update env id b files w = (Ok r, w')
    ∧ disk w' = disk w ∧ cloud w' = cloud w ∧ blogs w' = blogs w
    ∧ cloud_products w' = cloud_products w
    ∧ ((products w' = products w ∧ status r ≠ 200)
       ∨ ∃ old doc, isValid env id = true ∧ products w !! id = Some old
           ∧ products w' = <[id := doc]> (products w)
           ∧ r = json 200 (Whole (JProduct id doc))
           ∧ p_createdAt doc = p_createdAt old ∧ p_updatedAt doc = now env
           ∧ p_images doc = p_images old ++ (filename <$> files)).
Proof.
  unfold Products.update, findById.
  destruct (isValid env id) eqn:Hvalid.
  - destruct (products w !! id) as [old|] eqn:Hfound.
    + unfold try_catch.
      rewrite (bind_Ok _ _ w w (Some old)) by (unfold read; by rewrite Hfound).
      cbv beta iota zeta.
      match goal with |- context [Products.save env ?bd ?i ?d] =>
        destruct (products_save_cases env bd i d w) as [Hs | (e & Hs)]
      end.
      * rewrite (bind_Ok _ _ _ _ _ Hs). eexists _, _. split; [reflexivity |].
        do 4 (split; [done |]). right. eexists old, _.
        do 4 (split; [done |]). done.
      * rewrite (bind_Thrown _ _ _ _ _ Hs). eexists _, _. split; [reflexivity |].
        do 4 (split; [done |]). left. split; [done |]. simpl. lia.
    + eexists _, w. split.
      { apply try_Ok.
        by rewrite (bind_Ok _ _ w w None) by (unfold read; by rewrite Hfound). }
      do 4 (split; [done |]). left. split; [done |]. simpl. lia.
  - eexists _, _. split.
    { rewrite (try_Thrown _ _ w w CastError) by done. reflexivity. }
    do 4 (split; [done |]). left. split; [done |]. simpl. lia.
Qed.

(** The same for a blog. *)
Lemma blog_update_cases (id : string) (b : Blog.ReqBody) (files : list File)
  (w : World) :
  ∃ r w', Blog.update env id b files w = (Ok r, w')
    ∧ w' = with_blogs (λ _, blogs w') w
    ∧ ((blogs w' = blogs w ∧ status r ≠ 200)
       ∨ ∃ old doc, isValid env id = true ∧ blogs w !! id = Some old
           ∧ blogs w' = <[id := doc]> (blogs w)
           ∧ r = json 200 (Whole (JBlog id doc))
           ∧ b_date doc = b_date old
           ∧ b_images doc
             = b_images old ++ ((λ file, "/uploads/" +:+ filename file) <$> files)).
Proof.
  destruct (isValid env id) eqn:Hvalid.
  - destruct (blogs w !! id) as [old|] eqn:Hfound.
    + unfold Blog.update, findById, try_catch. rewrite Hvalid.
      rewrite (bind_Ok _ _ w w (Some old)) by (unfold read; by rewrite Hfound).
      cbv beta iota zeta.
      rewrite (bind_Ok _ _ w w ()) by apply cleanup_after_append.
      match goal with |- context [Blog.save env ?i ?d] =>
        destruct (blog_save_cases env i d w) as [(t & Ha & Hs) | (t & e & Ha & Hs)]
      end.
      * rewrite (bind_Ok _ _ _ _ _ Hs). eexists _, _. split; [reflexivity |].
        split; [by destruct w |]. right. eexists old, _.
        do 4 (split; [done |]). done.
      * rewrite (bind_Thrown _ _ _ _ _ Hs). eexists _, _. split; [reflexivity |].
        split; [by destruct w |]. left. split; [done |]. simpl. lia.
    + rewrite (blog_update_not_found env id b files w Hvalid Hfound).
      eexists _, _. split; [reflexivity |].
      split; [by destruct w |]. left. split; [done |]. simpl. lia.
  - unfold Blog.update, findById. rewrite Hvalid.
    eexists _, _. split.
    { rewrite (try_Thrown _ _ w w CastError) by done. reflexivity. }
    split; [by destruct w |]. left. split; [done |]. simpl. lia.
Qed.

Lemma insert_present_frame {D} (m : gmap string D) (id : string) (old doc : D) :
  m !! id = Some old →
  dom (<[id := doc]> m) = dom m
  ∧ ∀ other, other ≠ id → <[id := doc]> m !! other = m !! other.
Proof.
  intros H. split.
  - apply dom_insert_lookup_L. by rewrite H.
  - intros other Hne. by apply lookup_insert_ne.
Qed.

End UpdateFrame.

(** X9.  An update stores at most one record.  Whatever the request and
    whatever the outcome (rejected upload, rejected form, identifier that
    cannot be cast, unknown identifier, failed or successful save),
    [PUT /:id] of the local product router and of the blog router leaves
    the set of identifiers of its collection as it was, leaves every record
    but the addressed one as it was, and touches no other collection: an
    update never creates a record. *)
Theorem update_touches_one_record (env : Env) (w : World) :
  (∀ req : Products.Request,
      let w' := world_after (Products.put env req w) in
      dom (products w') = dom (products w)
      ∧ (∀ id, id ≠ Products.params_id req → products w' !! id = products w !! id)
      ∧ blogs w' = blogs w ∧ cloud_products w' = cloud_products w ∧ cloud w' = cloud w)
  ∧ (∀ req : Blog.Request,
      let w' := world_after (Blog.put env req w) in
      dom (blogs w') = dom (blogs w)
      ∧ (∀ id, id ≠ Blog.params_id req → blogs w' !! id = blogs w !! id)
      ∧ products w' = products w ∧ cloud_products w' = cloud_products w
      ∧ cloud w' = cloud w).
Proof.
  split.
  - intros req w'. subst w'. unfold Products.put.
    apply (route_frame _ _ _
      (λ w w', dom (products w') = dom (products w)
         ∧ (∀ id, id ≠ Products.params_id req → products w' !! id = products w !! id)
         ∧ blogs w' = blogs w ∧ cloud_products w' = cloud_products w
         ∧ cloud w' = cloud w)).
    + intros w1 (Hc & Hb & Hp & Hcp). rewrite Hp. done.
    + intros files w1 (Hc & Hb & Hp & Hcp).
      destruct (products_update_cases env (Products.params_id req)
                  (Products.req_body req) files w1)
        as (r & w2 & -> & _ & Hc2 & Hb2 & Hcp2 & Hcases).
      simpl. rewrite Hc2, Hb2, Hcp2, Hc, Hb, Hcp, <- Hp.
      destruct Hcases as [[-> _] | (old & doc & _ & Hfound & -> & _)]; [done |].
      destruct (insert_present_frame (products w1) (Products.params_id req) old doc Hfound)
        as [Hdom Hother].
      rewrite Hdom. split; [done |]. split; [| done].
      intros id Hid. by apply Hother.
    + apply store_parts_frame.
  - intros req w'. subst w'. unfold Blog.put.
    apply (route_frame _ _ _
      (λ w w', dom (blogs w') = dom (blogs w)
         ∧ (∀ id, id ≠ Blog.params_id req → blogs w' !! id = blogs w !! id)
         ∧ products w' = products w ∧ cloud_products w' = cloud_products w
         ∧ cloud w' = cloud w)).
    + intros w1 (Hc & Hb & Hp & Hcp). rewrite Hb. done.
    + intros files w1 (Hc & Hb & Hp & Hcp).
      destruct (blog_update_cases env (Blog.params_id req)
                  (Blog.req_body req) files w1)
        as (r & w2 & -> & Hw2 & Hcases).
      simpl. rewrite Hw2. simpl. rewrite Hc, Hp, Hcp, <- Hb.
      destruct Hcases as [[-> _] | (old & doc & _ & Hfound & -> & _)]; [done |].
      destruct (insert_present_frame (blogs w1) (Blog.params_id req) old doc Hfound)
        as [Hdom Hother].
      rewrite Hdom. split; [done |]. split; [| done].
      intros id Hid. by apply Hother.
    + apply store_parts_frame.
Qed.

Lemma update_touches_one_record_witness :
  let req := Sample.product_request Uploads.absent_id
               (Sample.product_body "abc" "12.50" "0123456789") [Sample.photo] in
  products (world_after (Products.put Sample.env req Uploads.product_world))
    !! Uploads.product_id = Some Uploads.two_images.
Proof.
  intros req.
  destruct (update_touches_one_record Sample.env Uploads.product_world) as [H _].
  destruct (H req) as (_ & Hother & _).
  rewrite Hother; [reflexivity | discriminate].
Defined.

Section UpdateAnswer.

Lemma error_middleware_status (e : Error) : status (error_middleware e) ≠ 200.
Proof.
  unfold error_middleware.
  repeat match goal with |- context [if ?c then _ else _] => destruct c end;
    simpl; lia.
Qed.

(** How a route ends: in the error-handling middleware after the upload,
    in the validator, in the handler, or in the error-handling middleware
    after the handler. *)
Lemma route_cases (upload : M (list File)) (validate : option Response)
  (handler : list File → M Response) (w : World) :
  (∃ e, route upload validate handler w = (Ok (error_middleware e), snd (upload w)))
  ∨ (∃ r, validate = Some r
          ∧ route upload validate handler w = (Ok r, snd (upload w)))
  ∨ (∃ files r w2, handler files (snd (upload w)) = (Ok r, w2)
          ∧ route upload validate handler w = (Ok r, w2))
  ∨ (∃ files e w2, handler files (snd (upload w)) = (Thrown e, w2)
          ∧ route upload validate handler w = (Ok (error_middleware e), w2)).
Proof.
  unfold route, try_catch.
  destruct (upload w) as [[files|e] w1] eqn:E.
  - rewrite (bind_Ok _ _ _ _ _ E). destruct validate as [r|].
    + right. left. by exists r.
    + right. right. simpl.
      destruct (handler files w1) as [[r|e] w2] eqn:H.
      * left. by exists files, r, w2.
      * right. by exists files, e, w2.
  - rewrite (bind_Thrown _ _ _ _ _ E). left. by exists e.
Qed.

End UpdateAnswer.

(** X10.  The answer of an update tells what happened to the record.  When
    [PUT /:id] of the local product router is answered 200, the record was
    there, the collection is the old one with the record replaced by the
    one in the answer, which keeps the creation time of the old record and
    carries the time of the update in [updatedAt]; when the answer is
    anything else, the collection is as it was.  The same holds for the
    blog router, whose records keep their [date] and have no [updatedAt]. *)
Theorem update_answer_tells (env : Env) (w : World) :
  (∀ req : Products.Request,
      let res := Products.put env req w in
      (answered res 200 →
         ∃ old doc, products w !! Products.params_id req = Some old
           ∧ products (world_after res) = <[Products.params_id req := doc]> (products w)
           ∧ response res = Some (json 200 (Whole (JProduct (Products.params_id req) doc)))
           ∧ p_createdAt doc = p_createdAt old ∧ p_updatedAt doc = now env)
      ∧ (¬ answered res 200 → products (world_after res) = products w))
  ∧ (∀ req : Blog.Request,
      let res := Blog.put env req w in
      (answered res 200 →
         ∃ old doc, blogs w !! Blog.params_id req = Some old
           ∧ blogs (world_after res) = <[Blog.params_id req := doc]> (blogs w)
           ∧ response res = Some (json 200 (Whole (JBlog (Blog.params_id req) doc)))
           ∧ b_date doc = b_date old)
      ∧ (¬ answered res 200 → blogs (world_after res) = blogs w)).
Proof.
  split.
  - intros req res. subst res. unfold Products.put.
    pose proof (store_parts_frame Products.storage (Products.parts req) 10 [] w)
      as (_ & _ & Hp & _).
    fold (upload_array Products.storage 10 (Products.parts req)) in Hp.
    fold (Products.upload (Products.parts req)) in Hp.
    destruct (route_cases (Products.upload (Products.parts req))
                (validateProduct (Products.req_body req))
                (Products.update env (Products.params_id req) (Products.req_body req)) w)
      as [(e & ->) | [(r & Hv & ->) | [(files & r & w2 & Hh & ->) | (files & e & w2 & Hh & _)]]];
      unfold answered, response, world_after; simpl.
    + pose proof (error_middleware_status e). split; [intros [=]; done | done].
    + pose proof (validateProduct_rejects _ _ Hv) as H400. rewrite H400.
      split; [intros [=] | done].
    + destruct (products_update_cases env (Products.params_id req)
                  (Products.req_body req) files (snd (Products.upload (Products.parts req) w)))
        as (r' & w2' & Hrun & _ & _ & _ & _ & Hcases).
      rewrite Hrun in Hh. injection Hh as -> ->.
      destruct Hcases as [[Hsame Hstatus] | (old & doc & _ & Hfound & Hins & -> & Hc & Hu & _)].
      * split; [intros [=]; done | intros _; by rewrite Hsame].
      * split; [| intros Hn; by destruct Hn].
        intros _. exists old, doc. rewrite <- Hp. done.
    + destruct (products_update_cases env (Products.params_id req)
                  (Products.req_body req) files (snd (Products.upload (Products.parts req) w)))
        as (r' & w2' & Hrun & _).
      rewrite Hrun in Hh. discriminate.
  - intros req res. subst res. unfold Blog.put.
    pose proof (store_parts_frame Blog.storage (Blog.parts req) 10 [] w)
      as (_ & Hb & _ & _).
    fold (upload_array Blog.storage 10 (Blog.parts req)) in Hb.
    fold (Blog.upload (Blog.parts req)) in Hb.
    destruct (route_cases (Blog.upload (Blog.parts req))
                (Blog.validateBlogPost (Blog.req_body req))
                (Blog.update env (Blog.params_id req) (Blog.req_body req)) w)
      as [(e & ->) | [(r & Hv & ->) | [(files & r & w2 & Hh & ->) | (files & e & w2 & Hh & _)]]];
      unfold answered, response, world_after; simpl.
    + pose proof (error_middleware_status e). split; [intros [=]; done | done].
    + pose proof (validateBlogPost_rejects _ _ Hv) as H400. rewrite H400.
      split; [intros [=] | done].
    + destruct (blog_update_cases env (Blog.params_id req)
                  (Blog.req_body req) files (snd (Blog.upload (Blog.parts req) w)))
        as (r' & w2' & Hrun & _ & Hcases).
      rewrite Hrun in Hh. injection Hh as -> ->.
      destruct Hcases as [[Hsame Hstatus] | (old & doc & _ & Hfound & Hins & -> & Hd & _)].
      * split; [intros [=]; done | intros _; by rewrite Hsame].
      * split; [| intros Hn; by destruct Hn].
        intros _. exists old, doc. rewrite <- Hb. done.
    + destruct (blog_update_cases env (Blog.params_id req)
                  (Blog.req_body req) files (snd (Blog.upload (Blog.parts req) w)))
        as (r' & w2' & Hrun & _).
      rewrite Hrun in Hh. discriminate.
Qed.

Lemma update_answer_tells_witness :
  ∃ doc,
    products (world_after (Products.put Sample.env Uploads.delete_product
                             Uploads.product_world))
      = {[Uploads.product_id := doc]}
    ∧ p_createdAt doc = 1690000000000%Z ∧ p_updatedAt doc = 1700000000000%Z.
Proof.
  destruct (update_answer_tells Sample.env Uploads.product_world) as [H _].
  destruct (H Uploads.delete_product) as [H200 _].
  destruct H200 as (old & doc & Hold & Hnew & _ & Hc & Hu); [reflexivity |].
  exists doc. split.
  - rewrite Hnew. apply insert_singleton_eq.
  - vm_compute in Hold. injection Hold as <-. split; [exact Hc | exact Hu].
Defined.

(** ** The names of the stored files *)

Section FileNames.




Lemma Number_toString_numeral (n : N) : numeral (Number_toString n).
Proof.
  unfold numeral. destruct (Number_toString_chars n) as (u & -> & _).
  apply uint_chars_digits.
Qed.


Lemma dot_no_digit : ¬ dec_digit "."%char.
Proof.
  unfold dec_digit. rewrite !elem_of_cons, elem_of_nil.
  intros H. repeat destruct H as [H | H]; done.
Qed.




End FileNames.


Section DistinctFiles.



Lemma product_path_name (p : Part) :
  path (stored_file Products.storage p)
  = Products.uploadDir +:+ "/" +:+ filename (stored_file Products.storage p).
Proof. reflexivity. Qed.

End DistinctFiles.



(** ** The enquiry mailer *)

(** X13.  The mails of an enquiry.  A request to the enquiry endpoint
    hands at most one mail to the relay: exactly one, made of the form,
    when the form is not rejected and the mail account is configured, and
    none otherwise.  It is answered 200 exactly when that mail was
    accepted by the relay, and 400 or 500 otherwise; the handler always
    answers, and it touches neither the disk nor the collections. *)
Theorem enquiry_mail_accounting (env : Env) (b : Enquiry.ReqBody) (w : World) :
  let res := Enquiry.post env b w in
  mails (events (world_after res))
  = mails (events w)
    ++ (if negb (rejected_form b) && configured env then [mail_of env b] else [])
  ∧ (answered res 200 ↔
       rejected_form b = false ∧ configured env = true
       ∧ ∃ messageId, sendMail_answer env = inr messageId)
  ∧ (answered res 200 ∨ answered res 400 ∨ answered res 500)
  ∧ same_collections w (world_after res)
  ∧ disk (world_after res) = disk w.
Proof.
  unfold rejected_form, configured, mail_of, answered, response, world_after,
    Enquiry.post, Enquiry.sendMail, same_collections, mails.
  run_monad.
  destruct (bool_decide (Enquiry.formType b = Some "contact"));
    destruct (bool_decide (Enquiry.formType b = Some "enquiry"));
    destruct (Enquiry.missing b);
    destruct (JS.truthy (EMAIL_USER env));
    destruct (JS.truthy (EMAIL_PASSWORD env));
    simpl;
    try destruct (sendMail_answer env) as [e | messageId];
    simpl; rewrite ?omap_app, ?app_nil_r; simpl; rewrite ?app_nil_r;
    (split; [reflexivity |]);
    (split; [split; [try (intros [=]) | try (intros (? & ? & ? & ?); done)] |]);
    eauto 10.
Qed.

(** ** The life of a product on the local disk *)

Section ProductLife.

Variable env : Env.

Lemma products_delete_found (req : Products.Request) (w : World) (product : ProductDoc) :
  isValid env (Products.params_id req) = true →
  products w !! Products.params_id req = Some product →
  ∃ w', Products.delete env req w
        = (Ok (json 200 (Fields [("success", JBool true);
                                 ("message", JStr "Product deleted successfully")])), w')
        ∧ products w' = base.delete (Products.params_id req) (products w)
        ∧ disk w' = disk w ∖ list_to_set (Path.join public_dir <$> p_images product).
Proof.
  intros Hvalid Hfound. unfold Products.delete, findById, try_catch. rewrite Hvalid. simpl.
  rewrite (bind_Ok _ _ w w (Some product)) by (unfold read; by rewrite Hfound).
  destruct (unlink_present_run (Path.join public_dir) "Error deleting image file:"
              (p_images product) w)
    as (w1 & Hrun & Hdisk & (Hc & Hb & Hp & Hcp) & _).
  cbv beta iota zeta. rewrite (bind_Ok _ _ _ _ _ Hrun).
  eexists. split; [reflexivity |]. simpl. by rewrite Hp.
Qed.

(** Where the delete route looks for a reference made by the router. *)
Lemma router_made_looked_up (img : string) :
  router_made img → Path.join public_dir img = public_dir +:+ "/" +:+ img.
Proof. intros (p & ->). reflexivity. Qed.

Lemma looked_up_outside (img f : string) :
  router_made img → in_upload_dir f → Path.join public_dir img ≠ f.
Proof.
  intros Himg (name & ->) H. rewrite (router_made_looked_up _ Himg) in H.
  destruct Himg as (p & ->). unfold Products.uploadDir in H.
  change (public_dir +:+ "/uploads/products" +:+ "/" +:+ name)
    with (public_dir +:+ "/" +:+ ("uploads/products/" +:+ name)) in H.
  apply (String.app_inj public_dir) in H. apply (String.app_inj "/") in H.
  discriminate H.
Qed.

Lemma products_post_created (req : Products.Request) (w : World) :
  accepted Products.storage 10 (Products.parts req) →
  answered (Products.post env req w) 201 →
  let files := stored_file Products.storage <$> Products.parts req in
  ∃ doc, Products.post env req w
         = (Ok (json 201 (Whole (JProduct (fresh_id env) doc))),
            with_products (<[fresh_id env := doc]>) (written (path <$> files) w))
         ∧ p_images doc = filename <$> files.
Proof.
  intros Hacc H201 files.
  pose proof (upload_array_accepted _ _ _ w Hacc) as Hup. fold files in Hup.
  unfold Products.post, Products.upload in *. rewrite (route_run _ _ _ _ _ _ Hup) in *.
  destruct (validateProduct (Products.req_body req)) as [r|] eqn:V.
  { apply status_of_Ok in H201. rewrite (validateProduct_rejects _ _ V) in H201. done. }
  destruct (products_create_run env (Products.req_body req) files
              (written (path <$> files) w))
    as [(doc & Himg & Hrun) | (code & msg & w2 & Hrun & Hcode & _)]; rewrite Hrun in *.
  - by exists doc.
  - apply status_of_Ok in H201. simpl in H201. lia.
Qed.

End ProductLife.

(** X14.  The delete route of the local product router looks for the
    images in the wrong directory.  The router stores every upload in
    [public/uploads/products] and keeps the bare file name as the
    reference; the delete route joins the reference to [public].  So the
    delete of a record whose references were all made by the router is
    answered 200 and removes the record, and every file of the upload
    directory that was on the disk is still there: the images of a deleted
    product are never reclaimed. *)
Theorem product_delete_leaves_images (env : Env) (req : Products.Request) (w : World)
  (product : ProductDoc) :
  isValid env (Products.params_id req) = true →
  products w !! Products.params_id req = Some product →
  Forall router_made (p_images product) →
  let res := Products.delete env req w in
  answered res 200
  ∧ products (world_after res) = base.delete (Products.params_id req) (products w)
  ∧ (∀ f, in_upload_dir f → f ∈ disk w → f ∈ disk (world_after res))
  ∧ (∀ img, img ∈ p_images product → Products.image_file img ∈ disk w →
       Products.image_file img ∈ disk (world_after res)).
Proof.
  intros Hvalid Hfound Hmade res. subst res.
  destruct (products_delete_found env req w product Hvalid Hfound)
    as (w' & -> & Hproducts & Hdisk).
  unfold answered, response, world_after. simpl.
  split; [done |]. split; [exact Hproducts |].
  assert (Hkept : ∀ f, in_upload_dir f → f ∈ disk w → f ∈ disk w').
  { intros f Hf Hin. rewrite Hdisk, elem_of_difference. split; [done |].
    rewrite elem_of_list_to_set, list_elem_of_fmap. intros (img & -> & Himg).
    rewrite Forall_forall in Hmade.
    by apply (looked_up_outside img (Path.join public_dir img) (Hmade img Himg) Hf). }
  split; [exact Hkept |].
  intros img Himg. apply Hkept.
  rewrite Forall_forall in Hmade. destruct (Hmade img Himg) as (p & ->).
  exists (name_for Products.storage p). reflexivity.
Qed.

Lemma product_delete_leaves_images_witness :
  let product :=
    {| p_title := "Gift box"; p_tagline := None; p_price := JS.Fin 10;
       p_category := Some "gifts"; p_description := "A boxed gift";
       p_features := []; p_specifications := []; p_tags := [];
       p_images := ["product-1700000000000.png"];
       p_createdAt := 1690000000000; p_updatedAt := 1690000000000 |} in
  let w :=
    {| disk := {["/app/public/uploads/products/product-1700000000000.png"]};
       locked := ∅; cloud := ∅; blogs := ∅; products := {[Uploads.product_id := product]};
       cloud_products := ∅; events := [] |} in
  let res := Products.delete Sample.env (product_at Uploads.product_id) w in
  answered res 200
  ∧ "/app/public/uploads/products/product-1700000000000.png" ∈ disk (world_after res).
Proof.
  intros product w res.
  destruct (product_delete_leaves_images Sample.env (product_at Uploads.product_id) w product)
    as (H200 & _ & _ & Hkept).
  - reflexivity.
  - reflexivity.
  - apply Forall_cons. split; [exists Sample.photo; reflexivity | constructor].
  - split; [exact H200 |].
    apply (Hkept "product-1700000000000.png"); [left |].
    apply (bool_decide_unpack _). vm_compute. exact I.
Defined.

(** X15.  The life of a product.  A create that is answered 201 makes a
    record that [GET /:id] then returns as it is in the answer of the
    create, without changing anything; the delete of that record is
    answered 200, after which a second delete and a read of the same
    identifier are answered 404 and change nothing. *)
Theorem product_lifecycle (env : Env) (req : Products.Request) (w : World) :
  accepted Products.storage 10 (Products.parts req) →
  answered (Products.post env req w) 201 →
  isValid env (fresh_id env) = true →
  let id := fresh_id env in
  let w1 := world_after (Products.post env req w) in
  let w2 := world_after (Products.delete env (product_at id) w1) in
  ∃ doc,
    response (Products.post env req w) = Some (json 201 (Whole (JProduct id doc)))
    ∧ Products.get env (product_at id) w1
      = (Ok (json 200 (Fields [("success", JBool true); ("data", JProduct id doc)])), w1)
    ∧ answered (Products.delete env (product_at id) w1) 200
    ∧ products w2 = base.delete id (products w)
    ∧ answered (Products.get env (product_at id) w2) 404
    ∧ answered (Products.delete env (product_at id) w2) 404
    ∧ world_after (Products.get env (product_at id) w2) = w2
    ∧ world_after (Products.delete env (product_at id) w2) = w2.
Proof.
  intros Hacc H201 Hvalid id w1 w2.
  assert (Hid : id = fresh_id env) by done. clearbody id. subst id.
  destruct (products_post_created env req w Hacc H201) as (doc & Hpost & _).
  set (files := stored_file Products.storage <$> Products.parts req) in Hpost.
  assert (Hw1 : products w1 !! fresh_id env = Some doc).
  { subst w1. rewrite Hpost. apply lookup_insert_eq. }
  assert (Hp1 : products w1 = <[fresh_id env := doc]> (products w)).
  { subst w1. rewrite Hpost. unfold world_after. simpl.
    destruct (written_frame (path <$> files) w) as (_ & _ & -> & _). done. }
  destruct (products_delete_found env (product_at (fresh_id env)) w1 doc Hvalid Hw1)
    as (w2' & Hdel & Hp2 & _).
  assert (Hw2 : w2 = w2') by (subst w2; by rewrite Hdel).
  assert (Hgone : products w2 !! fresh_id env = None).
  { rewrite Hw2, Hp2. apply lookup_delete_eq. }
  exists doc. split; [by rewrite Hpost |].
  split.
  { unfold Products.get, findById, try_catch. simpl. rewrite Hvalid. simpl.
    by rewrite (bind_Ok _ _ w1 w1 (Some doc)) by (unfold read; by rewrite Hw1). }
  split; [by rewrite Hdel |].
  split.
  { rewrite Hw2, Hp2, Hp1. apply delete_insert_eq. }
  assert (Hget2 : Products.get env (product_at (fresh_id env)) w2
            = (Ok (json 404 (Fields [("success", JBool false);
                        ("message", JStr "Product not found");
                        ("error", JStr "The requested product could not be found in the database")])),
               w2)).
  { unfold Products.get, findById, try_catch. simpl. rewrite Hvalid. simpl.
    by rewrite (bind_Ok _ _ w2 w2 None) by (unfold read; by rewrite Hgone). }
  pose proof (products_delete_run env (product_at (fresh_id env)) w2 Hvalid) as Hdel2.
  change (Products.params_id (product_at (fresh_id env))) with (fresh_id env) in Hdel2.
  rewrite Hgone in Hdel2.
  rewrite Hget2, Hdel2. done.
Qed.

Lemma product_lifecycle_witness :
  let req := Sample.product_request EmptyString
               (Sample.product_body "abc" "12.50" "0123456789") [Sample.photo] in
  let id := fresh_id Sample.env in
  let w1 := world_after (Products.post Sample.env req Sample.empty_world) in
  answered (Products.get Sample.env (product_at id) w1) 200
  ∧ answered (Products.get Sample.env (product_at id)
                (world_after (Products.delete Sample.env (product_at id) w1))) 404.
Proof.
  intros req id w1.
  destruct (product_lifecycle Sample.env req Sample.empty_world)
    as (doc & _ & Hget & _ & _ & H404 & _).
  - destruct photo_accepted as [H _]. exact H.
  - reflexivity.
  - reflexivity.
  - split; [| exact H404].
    subst w1 id. rewrite Hget. reflexivity.
Defined.

(** ** The create of the Cloudinary router *)

Section CloudCreate.

Variable env : Env.

(** Every upload is started; each one that succeeds leaves its image on
    Cloudinary. *)
Lemma upload_each_run (sources : list string) :
  ∀ w : World,
  ∃ w', CloudProducts.upload_each env sources w = (Ok (uploaded_image env <$> sources), w')
    ∧ cloud w' = cloud w ∪ list_to_set (uploaded_ids env sources)
    ∧ disk w' = disk w ∧ blogs w' = blogs w ∧ products w' = products w
    ∧ cloud_products w' = cloud_products w
    ∧ destroyed (events w') = destroyed (events w).
Proof.
  induction sources as [|s sources IH]; intros w.
  { exists w. split; [done |]. split; [| done].
    change (uploaded_ids env []) with (@nil string).
    by rewrite list_to_set_nil, union_empty_r_L. }
  set (w1 := match upload_answer env s with
             | inl _ => emit (CloudUpload s) w
             | inr (_, id) => with_cloud (λ c, c ∪ {[id]}) (emit (CloudUpload s) w)
             end).
  assert (Hstep : try_catch (img ← cloud_upload env s; mret (inr img))
                    (λ e, mret (inl e)) w
                  = (Ok (uploaded_image env s), w1)).
  { unfold cloud_upload, uploaded_image. subst w1. run_monad.
    by destruct (upload_answer env s) as [e | [u i]]. }
  destruct (IH w1) as (w2 & Hrun & Hcloud & Hd & Hb & Hp & Hcp & Hev).
  exists w2. split.
  { simpl. rewrite (bind_Ok _ _ _ _ _ Hstep), (bind_Ok _ _ _ _ _ Hrun). done. }
  split.
  { rewrite Hcloud. subst w1. unfold uploaded_ids.
    change (omap ?f (s :: sources))
      with (match f s with Some y => y :: omap f sources | None => omap f sources end).
    cbv beta. destruct (upload_answer env s) as [e | [u i]]; [done |].
    rewrite list_to_set_cons. simpl. symmetry. apply (assoc_L (∪)). }
  subst w1. rewrite Hd, Hb, Hp, Hcp, Hev.
  destruct (upload_answer env s) as [e | [u i]]; simpl;
    unfold destroyed; rewrite omap_app; simpl; by rewrite app_nil_r.
Qed.

(** The compensation: a destroy is tried for the file name of every
    file, and a failure is logged. *)
Lemma destroy_files_run (files : list File) :
  ∀ w : World,
  ∃ w', for_each files (λ file,
          try_catch (cloud_destroy env (filename file))
                    (λ _, console_error "Error deleting uploaded image:")) w = (Ok (), w')
    ∧ (∀ x, x ∈ cloud w' ↔
         x ∈ cloud w ∧ ¬ (x ∈ filename <$> files ∧ destroy_rejects env x = None))
    ∧ disk w' = disk w ∧ blogs w' = blogs w ∧ products w' = products w
    ∧ cloud_products w' = cloud_products w
    ∧ destroyed (events w') = destroyed (events w) ++ (filename <$> files).
Proof.
  induction files as [|f files IH]; intros w.
  { exists w. split; [done |]. split.
    { intros x. rewrite fmap_nil, elem_of_nil. tauto. }
    by rewrite app_nil_r. }
  set (w1 := match destroy_rejects env (filename f) with
             | Some _ => emit (ConsoleError "Error deleting uploaded image:")
                           (emit (CloudDestroy (filename f)) w)
             | None => with_cloud (λ c, c ∖ {[filename f]})
                         (emit (CloudDestroy (filename f)) w)
             end).
  assert (Hstep : try_catch (cloud_destroy env (filename f))
                    (λ _, console_error "Error deleting uploaded image:") w
                  = (Ok (), w1)).
  { unfold cloud_destroy. subst w1. run_monad.
    by destruct (destroy_rejects env (filename f)). }
  destruct (IH w1) as (w2 & Hrun & Hcloud & Hd & Hb & Hp & Hcp & Hev).
  exists w2. split.
  { simpl. rewrite (bind_Ok _ _ _ _ _ Hstep). exact Hrun. }
  split.
  { intros x. rewrite Hcloud, fmap_cons, elem_of_cons. subst w1.
    destruct (destroy_rejects env (filename f)) as [e|] eqn:R; simpl.
    - split; [| tauto]. intros [Hx Hn]. split; [done |].
      intros [[-> | Hin] Hr]; [congruence | tauto].
    - rewrite elem_of_difference, elem_of_singleton. split.
      + intros [[Hx Hne] Hn]. split; [done |].
        intros [[-> | Hin] Hr]; [done | tauto].
      + intros [Hx Hn]. split; [| tauto]. split; [done |].
        intros ->. apply Hn. split; [by left | done]. }
  subst w1. rewrite Hd, Hb, Hp, Hcp, Hev.
  destruct (destroy_rejects env (filename f)); simpl;
    unfold destroyed; rewrite !omap_app; simpl; rewrite ?app_nil_r, <- ?app_assoc; done.
Qed.

Lemma json_list_cases (v : option string) (w : World) :
  (∃ l, CloudProducts.json_list env v w = (Ok l, w))
  ∨ (∃ e, CloudProducts.json_list env v w = (Thrown e, w)).
Proof.
  unfold CloudProducts.json_list. destruct (JS.truthy v); [| left; by exists []].
  destruct (JSON_parse env (default EmptyString v)) as [e | l];
    [right; by exists e | left; by exists l].
Qed.

Lemma cloud_save_cases (id : string) (d : CloudProductDoc) (w : World) :
  (JS.truthy (c_category d) = true ∧ (∃ t, save_answer env = SaveOk t)
   ∧ CloudProducts.save env id d w = (Ok d, with_cloud_products (<[id := d]>) w))
  ∨ (∃ e, CloudProducts.save env id d w = (Thrown e, w)).
Proof.
  unfold CloudProducts.save. destruct (JS.truthy (c_category d)); simpl.
  - destruct (save_answer env) as [t | t e]; [left | right; by exists e].
    split; [done |]. split; [by exists t | done].
  - right. by eexists.
Qed.

(** What the body of the [try] does: it stores a record with the
    uploaded images, or throws with only Cloudinary changed. *)
Lemma cloud_create_body (b : ProductBody) (files : list File) (w : World) :
  ∃ w1, cloud w1 = cloud w ∪ list_to_set (uploaded_ids env (path <$> files))
    ∧ disk w1 = disk w ∧ blogs w1 = blogs w ∧ products w1 = products w
    ∧ cloud_products w1 = cloud_products w
    ∧ destroyed (events w1) = destroyed (events w)
    ∧ ((∃ doc images,
          CloudProducts.all_or_first_error (uploaded_image env <$> (path <$> files))
            = inr images
          ∧ c_images doc = images
          ∧ CloudProducts.create env b files w
            = (Ok (json 201 (Fields [("success", JBool true);
                                     ("message", JStr "Product created successfully");
                                     ("data", JCloudProduct (fresh_id env) doc)])),
               with_cloud_products (<[fresh_id env := doc]>) w1))
       ∨ (∃ e,
          CloudProducts.create env b files w
          = (for_each files (λ file,
               try_catch (cloud_destroy env (filename file))
                         (λ _, console_error "Error deleting uploaded image:")) ;;
             console_error "Error creating product:" ;;
             mret (json 500 (Fields [("success", JBool false);
                                     ("message", JStr "Failed to create product");
                                     ("error", JStr (err_message e))]))) w1)).
Proof.
  destruct (upload_each_run (path <$> files) w)
    as (w1 & Hup & Hcloud & Hd & Hb & Hp & Hcp & Hev).
  exists w1. do 6 (split; [done |]).
  unfold CloudProducts.create.
  change (map path files) with (path <$> files).
  destruct (CloudProducts.all_or_first_error (uploaded_image env <$> (path <$> files)))
    as [e | images] eqn:Hall.
  { right. exists e.
    assert (Hupload : CloudProducts.upload_all env (path <$> files) w = (Thrown e, w1)).
    { unfold CloudProducts.upload_all.
      rewrite (bind_Ok _ _ _ _ _ Hup). by rewrite Hall. }
    unfold try_catch at 1. by rewrite (bind_Thrown _ _ _ _ _ Hupload). }
  assert (Hupload : CloudProducts.upload_all env (path <$> files) w = (Ok images, w1)).
  { unfold CloudProducts.upload_all.
    rewrite (bind_Ok _ _ _ _ _ Hup). by rewrite Hall. }
  destruct (json_list_cases (features b) w1) as [(fs & Hfs) | (e & Hfs)].
  2:{ right. exists e. unfold try_catch at 1.
      rewrite (bind_Ok _ _ _ _ _ Hupload). by rewrite (bind_Thrown _ _ _ _ _ Hfs). }
  destruct (json_list_cases (specifications b) w1) as [(ss & Hss) | (e & Hss)].
  2:{ right. exists e. unfold try_catch at 1.
      rewrite (bind_Ok _ _ _ _ _ Hupload), (bind_Ok _ _ _ _ _ Hfs).
      by rewrite (bind_Thrown _ _ _ _ _ Hss). }
  destruct (json_list_cases (tags b) w1) as [(ts & Hts) | (e & Hts)].
  2:{ right. exists e. unfold try_catch at 1.
      rewrite (bind_Ok _ _ _ _ _ Hupload), (bind_Ok _ _ _ _ _ Hfs),
        (bind_Ok _ _ _ _ _ Hss).
      by rewrite (bind_Thrown _ _ _ _ _ Hts). }
  pose (doc := {| c_title := default EmptyString (title b);
                  c_tagline := tagline b;
                  c_price := JS.parseFloat (default EmptyString (price b));
                  c_category := category b;
                  c_description := default EmptyString (description b);
                  c_features := fs; c_specifications := ss; c_tags := ts;
                  c_images := images;
                  c_createdAt := now env; c_updatedAt := now env |}).
  destruct (cloud_save_cases (fresh_id env) doc w1) as [(_ & _ & Hs) | (e & Hs)].
  - left. exists doc, images. split; [done |]. split; [done |].
    apply try_Ok.
    rewrite (bind_Ok _ _ _ _ _ Hupload), (bind_Ok _ _ _ _ _ Hfs),
      (bind_Ok _ _ _ _ _ Hss), (bind_Ok _ _ _ _ _ Hts).
    fold doc. by rewrite (bind_Ok _ _ _ _ _ Hs).
  - right. exists e. unfold try_catch at 1.
    rewrite (bind_Ok _ _ _ _ _ Hupload), (bind_Ok _ _ _ _ _ Hfs),
      (bind_Ok _ _ _ _ _ Hss), (bind_Ok _ _ _ _ _ Hts).
    fold doc. by rewrite (bind_Thrown _ _ _ _ _ Hs).
Qed.

End CloudCreate.

Section CloudCreateOutcome.

Lemma all_or_first_error_length (rs : list (Error + CloudImage)) (images : list CloudImage) :
  CloudProducts.all_or_first_error rs = inr images → length images = length rs.
Proof.
  revert images. induction rs as [|[e | img] rs IH]; intros images; simpl.
  - by intros [= <-].
  - done.
  - destruct (CloudProducts.all_or_first_error rs) as [e | imgs]; [done |].
    intros [= <-]. simpl. f_equal. by apply IH.
Qed.

End CloudCreateOutcome.

(** X16.  The create of the Cloudinary router and its compensation.  The
    handler uploads every file of the request, and answers 201 or 500.  On
    201 the record is stored with one image per file, Cloudinary holds the
    identifiers it handed out, and no destroy was called.  On 500 no record
    is stored and one destroy is called per file of the request, for its
    [filename]: afterwards Cloudinary holds what it held and what the
    handler uploaded, less the file names whose destroy succeeded.  So an
    image the handler uploaded stays on Cloudinary, referenced by no
    record, unless its identifier is the file name of a file of the
    request. *)
Theorem cloud_create_compensates_by_file_name
  (env : Env) (b : ProductBody) (files : list File) (w : World) :
  let res := CloudProducts.create env b files w in
  let w' := world_after res in
  (answered res 201 ∨ answered res 500)
  ∧ (answered res 201 →
       ∃ doc, cloud_products w' = <[fresh_id env := doc]> (cloud_products w)
         ∧ CloudProducts.all_or_first_error (uploaded_image env <$> (path <$> files))
           = inr (c_images doc)
         ∧ length (c_images doc) = length files
         ∧ cloud w' = cloud w ∪ list_to_set (uploaded_ids env (path <$> files))
         ∧ destroyed (events w') = destroyed (events w))
  ∧ (answered res 500 →
       cloud_products w' = cloud_products w
       ∧ destroyed (events w') = destroyed (events w) ++ (filename <$> files)
       ∧ ∀ x, x ∈ cloud w' ↔
           (x ∈ cloud w ∨ x ∈ uploaded_ids env (path <$> files))
           ∧ ¬ (x ∈ filename <$> files ∧ destroy_rejects env x = None))
  ∧ disk w' = disk w ∧ blogs w' = blogs w ∧ products w' = products w.
Proof.
  intros res w'. subst w' res.
  destruct (cloud_create_body env b files w)
    as (w1 & Hcloud & Hd & Hb & Hp & Hcp & Hev & [(doc & images & Hall & Himg & Hrun) | (e & Hrun)]).
  - rewrite Hrun. unfold answered, response, world_after. simpl.
    split; [by left |]. split; [| split; [intros [=] | done]].
    intros _. exists doc. rewrite Hcp, Himg.
    split; [done |]. split; [done |].
    split; [| done].
    by rewrite (all_or_first_error_length _ _ Hall), !length_fmap.
  - destruct (destroy_files_run env files w1)
      as (w2 & Hloop & Hcloud2 & Hd2 & Hb2 & Hp2 & Hcp2 & Hev2).
    rewrite Hrun, (bind_Ok _ _ _ _ _ Hloop).
    unfold answered, response, world_after. simpl.
    split; [by right |]. split; [intros [=] |].
    split; [| by rewrite Hd2, Hb2, Hp2].
    intros _. split; [by rewrite Hcp2 |]. split.
    + unfold destroyed in *. rewrite omap_app. simpl. rewrite app_nil_r.
      by rewrite Hev2, Hev.
    + intros x. rewrite Hcloud2, Hcloud, elem_of_union, elem_of_list_to_set. done.
Qed.

Lemma cloud_create_compensates_by_file_name_witness :
  let file := {| filename := "upload-1"; path := "tmp/upload-1" |} in
  let res := CloudProducts.create Sample.env_save_fails
               (Sample.product_body "abc" "12.50" "0123456789") [file]
               Sample.empty_world in
  answered res 500
  ∧ cloud_products (world_after res) = ∅
  ∧ destroyed (events (world_after res)) = ["upload-1"]
  ∧ "products/tmp/upload-1" ∈ cloud (world_after res).
Proof.
  intros file res.
  destruct (cloud_create_compensates_by_file_name Sample.env_save_fails
              (Sample.product_body "abc" "12.50" "0123456789") [file]
              Sample.empty_world)
    as (_ & _ & H500 & _).
  destruct H500 as (Hcp & Hcalls & Hcloud); [reflexivity |].
  split; [reflexivity |]. split; [exact Hcp |]. split; [exact Hcalls |].
  apply Hcloud. split.
  - right. left.
  - intros [Hin _]. apply list_elem_of_singleton in Hin. discriminate Hin.
Defined.

(** ** The update of the Cloudinary router and the images it uploads *)

Section CloudUpdate.

Variable env : Env.

(** The step of the update that uploads the new images. *)
Lemma cloud_update_uploads (images : list CloudImage) (files : list File) (w : World) :
  ∃ w1, cloud w1 = cloud w ∪ list_to_set (uploaded_ids env (path <$> files))
    ∧ disk w1 = disk w ∧ blogs w1 = blogs w ∧ products w1 = products w
    ∧ cloud_products w1 = cloud_products w
    ∧ destroyed (events w1) = destroyed (events w)
    ∧ ((∃ new,
          CloudProducts.all_or_first_error (uploaded_image env <$> (path <$> files)) = inr new
          ∧ match files with
            | [] => mret images
            | _ :: _ =>
                newImages ← CloudProducts.upload_all env (map path files);
                mret (images ++ newImages)
            end w = (Ok (images ++ new), w1))
       ∨ (∃ e,
          match files with
          | [] => mret images
          | _ :: _ =>
              newImages ← CloudProducts.upload_all env (map path files);
              mret (images ++ newImages)
          end w = (Thrown e, w1))).
Proof.
  destruct files as [|f files].
  { exists w. split.
    { change (uploaded_ids env (path <$> [])) with (@nil string).
      by rewrite list_to_set_nil, union_empty_r_L. }
    do 5 (split; [done |]). left. exists []. split; [done |]. by rewrite app_nil_r. }
  destruct (upload_each_run env (path <$> f :: files) w)
    as (w1 & Hup & Hcloud & Hd & Hb & Hp & Hcp & Hev).
  exists w1. do 6 (split; [done |]).
  change (map path (f :: files)) with (path <$> f :: files).
  destruct (CloudProducts.all_or_first_error (uploaded_image env <$> (path <$> f :: files)))
    as [e | new] eqn:Hall.
  - right. exists e.
    assert (Hupload : CloudProducts.upload_all env (path <$> f :: files) w = (Thrown e, w1)).
    { unfold CloudProducts.upload_all.
      rewrite (bind_Ok _ _ _ _ _ Hup). by rewrite Hall. }
    by rewrite (bind_Thrown _ _ _ _ _ Hupload).
  - left. exists new. split; [done |].
    assert (Hupload : CloudProducts.upload_all env (path <$> f :: files) w = (Ok new, w1)).
    { unfold CloudProducts.upload_all.
      rewrite (bind_Ok _ _ _ _ _ Hup). by rewrite Hall. }
    by rewrite (bind_Ok _ _ _ _ _ Hupload).
Qed.

Lemma delete_marked_none (deleted : option (string + list string))
  (images : list CloudImage) (w : World) :
  (∀ ids, deleted ≠ Some (inr ids)) →
  CloudProducts.delete_marked env deleted images w = (Ok images, w).
Proof.
  intros H. destruct deleted as [[s | ids] |]; [done | | done].
  by destruct (H ids).
Qed.

Lemma destroyed_logged (msg : string) (w : World) :
  destroyed (events (emit (ConsoleError msg) w)) = destroyed (events w).
Proof. unfold destroyed. simpl. by rewrite omap_app, app_nil_r. Qed.

Lemma cloud_update_run (id : string) (b : ProductBody) (files : list File) (w : World)
  (product : CloudProductDoc) :
  isValid env id = true →
  cloud_products w !! id = Some product →
  (∀ ids, deletedImages b ≠ Some (inr ids)) →
  ∃ w1, cloud w1 = cloud w ∪ list_to_set (uploaded_ids env (path <$> files))
    ∧ cloud_products w1 = cloud_products w
    ∧ destroyed (events w1) = destroyed (events w)
    ∧ ((∃ doc new,
          CloudProducts.all_or_first_error (uploaded_image env <$> (path <$> files)) = inr new
          ∧ c_images doc = c_images product ++ new
          ∧ c_createdAt doc = c_createdAt product ∧ c_updatedAt doc = now env
          ∧ CloudProducts.update env id b files w
            = (Ok (json 200 (Fields [("success", JBool true);
                                     ("message", JStr "Product updated successfully");
                                     ("data", JCloudProduct id doc)])),
               with_cloud_products (<[id := doc]>) w1))
       ∨ (∃ e,
          CloudProducts.update env id b files w
          = (Ok (json 500 (Fields [("success", JBool false);
                                   ("message", JStr "Failed to update product");
                                   ("error", JStr (err_message e))])),
             emit (ConsoleError "Error updating product:") w1))).
Proof.
  intros Hvalid Hfound Hnone.
  pose proof (delete_marked_none (deletedImages b) (c_images product) w Hnone) as Hdm.
  assert (Hread : read (λ w0 : World, cloud_products w0 !! id) w = (Ok (Some product), w)).
  { unfold read. by rewrite Hfound. }
  destruct (cloud_update_uploads (c_images product) files w)
    as (w1 & Hcloud & Hd & Hb & Hp & Hcp & Hev & Hstep).
  exists w1. do 3 (split; [done |]).
  unfold CloudProducts.update, findById. rewrite Hvalid.
  destruct Hstep as [(new & Hall & Hstep) | (e & Hstep)].
  2:{ right. exists e. unfold try_catch.
      rewrite (bind_Ok _ _ _ _ _ Hread). cbv beta iota zeta.
      rewrite (bind_Ok _ _ _ _ _ Hdm). by rewrite (bind_Thrown _ _ _ _ _ Hstep). }
  destruct (json_list_cases env (features b) w1) as [(fs & Hfs) | (e & Hfs)].
  2:{ right. exists e. unfold try_catch.
      rewrite (bind_Ok _ _ _ _ _ Hread). cbv beta iota zeta.
      rewrite (bind_Ok _ _ _ _ _ Hdm), (bind_Ok _ _ _ _ _ Hstep).
      by rewrite (bind_Thrown _ _ _ _ _ Hfs). }
  destruct (json_list_cases env (specifications b) w1) as [(ss & Hss) | (e & Hss)].
  2:{ right. exists e. unfold try_catch.
      rewrite (bind_Ok _ _ _ _ _ Hread). cbv beta iota zeta.
      rewrite (bind_Ok _ _ _ _ _ Hdm), (bind_Ok _ _ _ _ _ Hstep), (bind_Ok _ _ _ _ _ Hfs).
      by rewrite (bind_Thrown _ _ _ _ _ Hss). }
  destruct (json_list_cases env (tags b) w1) as [(ts & Hts) | (e & Hts)].
  2:{ right. exists e. unfold try_catch.
      rewrite (bind_Ok _ _ _ _ _ Hread). cbv beta iota zeta.
      rewrite (bind_Ok _ _ _ _ _ Hdm), (bind_Ok _ _ _ _ _ Hstep), (bind_Ok _ _ _ _ _ Hfs),
        (bind_Ok _ _ _ _ _ Hss).
      by rewrite (bind_Thrown _ _ _ _ _ Hts). }
  pose (doc := {| c_title := default EmptyString (title b);
                  c_tagline := tagline b;
                  c_price := JS.parseFloat (default EmptyString (price b));
                  c_category := category b;
                  c_description := default EmptyString (description b);
                  c_features := fs; c_specifications := ss; c_tags := ts;
                  c_images := c_images product ++ new;
                  c_createdAt := c_createdAt product; c_updatedAt := now env |}).
  destruct (cloud_save_cases env id doc w1) as [(_ & _ & Hs) | (e & Hs)].
  - left. exists doc, new. do 4 (split; [done |]). unfold try_catch.
    rewrite (bind_Ok _ _ _ _ _ Hread). cbv beta iota zeta.
    rewrite (bind_Ok _ _ _ _ _ Hdm), (bind_Ok _ _ _ _ _ Hstep), (bind_Ok _ _ _ _ _ Hfs),
      (bind_Ok _ _ _ _ _ Hss), (bind_Ok _ _ _ _ _ Hts).
    fold doc. by rewrite (bind_Ok _ _ _ _ _ Hs).
  - right. exists e. unfold try_catch.
    rewrite (bind_Ok _ _ _ _ _ Hread). cbv beta iota zeta.
    rewrite (bind_Ok _ _ _ _ _ Hdm), (bind_Ok _ _ _ _ _ Hstep), (bind_Ok _ _ _ _ _ Hfs),
      (bind_Ok _ _ _ _ _ Hss), (bind_Ok _ _ _ _ _ Hts).
    fold doc. by rewrite (bind_Thrown _ _ _ _ _ Hs).
Qed.

End CloudUpdate.

(** X17.  The update of the Cloudinary router does not take back what it
    uploads.  For an update of an existing record without a list of images
    to remove: the handler answers 200 or 500; in both cases Cloudinary
    holds afterwards what it held and every image the handler uploaded, and
    no destroy was called.  On 200 the record keeps its images, followed by
    one image per file, keeps its creation time and carries the time of the
    update.  On 500 the record is as it was, so the uploaded images are
    referenced by no record. *)
Theorem cloud_update_keeps_uploads
  (env : Env) (id : string) (b : ProductBody) (files : list File) (w : World)
  (product : CloudProductDoc) :
  isValid env id = true →
  cloud_products w !! id = Some product →
  (∀ ids, deletedImages b ≠ Some (inr ids)) →
  let res := CloudProducts.update env id b files w in
  let w' := world_after res in
  (answered res 200 ∨ answered res 500)
  ∧ cloud w' = cloud w ∪ list_to_set (uploaded_ids env (path <$> files))
  ∧ destroyed (events w') = destroyed (events w)
  ∧ (answered res 200 →
       ∃ doc new, cloud_products w' = <[id := doc]> (cloud_products w)
         ∧ CloudProducts.all_or_first_error (uploaded_image env <$> (path <$> files))
           = inr new
         ∧ c_images doc = c_images product ++ new
         ∧ length new = length files
         ∧ c_createdAt doc = c_createdAt product ∧ c_updatedAt doc = now env)
  ∧ (answered res 500 → cloud_products w' = cloud_products w).
Proof.
  intros Hvalid Hfound Hnone res w'. subst w' res.
  destruct (cloud_update_run env id b files w product Hvalid Hfound Hnone)
    as (w1 & Hcloud & Hcp & Hev
        & [(doc & new & Hall & Himg & Hc & Hu & ->) | (e & ->)]);
    unfold answered, response, world_after, snd.
  - simpl. split; [by left |]. split; [done |]. split; [done |].
    split; [| intros [=]].
    intros _. exists doc, new. rewrite Hcp.
    do 3 (split; [done |]). split; [| done].
    by rewrite (all_or_first_error_length _ _ Hall), !length_fmap.
  - rewrite (destroyed_logged _ w1). simpl.
    split; [by right |]. split; [done |]. split; [done |].
    split; [intros [=] | done].
Qed.

Lemma cloud_update_keeps_uploads_witness :
  let file := {| filename := "upload-1"; path := "tmp/upload-1" |} in
  let b := Sample.product_body "abc" "12.50" "0123456789" in
  let res := CloudProducts.update Sample.env_save_fails Gallery.id b [file] Gallery.world in
  answered res 500
  ∧ cloud_products (world_after res) = cloud_products Gallery.world
  ∧ "products/tmp/upload-1" ∈ cloud (world_after res).
Proof.
  intros file b res.
  destruct (cloud_update_keeps_uploads Sample.env_save_fails Gallery.id b [file]
              Gallery.world Gallery.product)
    as (_ & Hcloud & _ & _ & H500).
  - reflexivity.
  - reflexivity.
  - intros ids. discriminate.
  - split; [reflexivity |]. split; [apply H500; reflexivity |].
    subst res. rewrite Hcloud. apply elem_of_union. right.
    apply elem_of_list_to_set. left.
Defined.

(** ** Comma-separated fields of a product form *)

Section CommaLists.






End CommaLists.



(** ** The sitemap *)

Section SitemapLinks.

Variable env : Sitemap.Env.

Lemma pages_cases (prefix freq : string) (prio : Q) (docs : list Sitemap.Doc) :
  (∃ ds, docs = Sitemap.dated <$> ds
         ∧ Sitemap.pages env prefix freq prio docs
           = inr (map (λ d, {| Sitemap.url := prefix +:+ fst d;
                               Sitemap.changefreq := freq;
                               Sitemap.priority := prio;
                               Sitemap.lastmod := Some (Sitemap.toISOString env (snd d)) |}) ds))
  ∨ (Exists (λ doc, Sitemap.updatedAt doc = None) docs
     ∧ Sitemap.pages env prefix freq prio docs = inl Sitemap.TypeError).
Proof.
  induction docs as [|[id [t|]] docs IH]; simpl.
  - left. by exists [].
  - destruct IH as [(ds & -> & ->) | [Hex ->]].
    + left. by exists ((id, t) :: ds).
    + right. split; [by apply Exists_cons_tl | done].
  - right. split; [by apply Exists_cons_hd | done].
Qed.

Lemma dated_inj (ds ds' : list (string * Z)) :
  Sitemap.dated <$> ds = Sitemap.dated <$> ds' → ds = ds'.
Proof.
  revert ds'. induction ds as [|[i t] ds IH]; intros [|[i' t'] ds']; try done.
  rewrite !fmap_cons. intros [= -> -> H]. f_equal. by apply IH.
Qed.

Lemma dated_not_missing (ds : list (string * Z)) :
  ¬ Exists (λ doc, Sitemap.updatedAt doc = None) (Sitemap.dated <$> ds).
Proof.
  induction ds as [|d ds IH]; rewrite ?fmap_cons; intros H; inversion H; subst; done.
Qed.

Lemma fixed_urls_NoDup : NoDup fixed_urls.
Proof. apply (bool_decide_unpack _). vm_compute. exact I. Qed.

Lemma fixed_urls_prefix (u : string) :
  u ∈ fixed_urls →
  String.prefix "/products/" u = false ∧ String.prefix "/blog/" u = false.
Proof.
  unfold fixed_urls. intros H. apply list_elem_of_In in H. vm_compute in H.
  repeat destruct H as [<- | H]; try (split; reflexivity). destruct H.
Qed.

Lemma prefix_app (p s : string) : String.prefix p (p +:+ s) = true.
Proof.
  induction p as [|c p IH]; simpl; [by destruct s |].
  destruct (ascii_dec c c); [exact IH | done].
Qed.

Lemma NoDup_prefixed (p : string) (ids : list string) :
  NoDup ids → NoDup ((λ i, p +:+ i) <$> ids).
Proof. apply NoDup_fmap_2. intros x y. apply String.app_inj. Qed.

End SitemapLinks.

Section SitemapRoute.

Variable env : Sitemap.Env.

Lemma settle_run {A} (r : Error + A) (w : World) :
  Sitemap.settle r w = match r with inl e => (Thrown e, w) | inr a => (Ok a, w) end.
Proof. by destruct r. Qed.

(** The links the generator makes, or the failure it logs. *)
Lemma sitemap_links_cases (w : World) :
  (∃ ps bs,
     Sitemap.find_products env = inr (Sitemap.dated <$> ps)
     ∧ Sitemap.find_blogs env = inr (Sitemap.dated <$> bs)
     ∧ Sitemap.generateSitemap env w
       = Sitemap.settle (Sitemap.streamToPromise env (Sitemap.baseUrl env)
                           (Sitemap.links_of env ps bs)) w)
  ∨ ((∀ ps bs xml, ¬ sitemap_made env ps bs xml)
     ∧ ∃ e, Sitemap.generateSitemap env w
            = (Thrown e, emit (ConsoleError "Error generating sitemap:") w)).
Proof.
  unfold Sitemap.generateSitemap, sitemap_made, try_catch, mbind, M_bind.
  rewrite settle_run.
  destruct (Sitemap.find_products env) as [e | products].
  { right. split; [intros ? ? ? (? & _); done | by exists e]. }
  rewrite settle_run.
  destruct (Sitemap.find_blogs env) as [e | blogs].
  { right. split; [intros ? ? ? (_ & ? & _); done | by exists e]. }
  rewrite settle_run.
  destruct (pages_cases env "/products/" "weekly" (9 # 10) products)
    as [(ps & -> & ->) | [Hex ->]].
  2:{ right. split; [| by eexists].
      intros ps bs xml ([= ->] & _). by apply (dated_not_missing ps). }
  rewrite settle_run.
  destruct (pages_cases env "/blog/" "monthly" (7 # 10) blogs)
    as [(bs & -> & ->) | [Hex ->]].
  2:{ right. split; [| by eexists].
      intros ps' bs xml (_ & [= ->] & _). by apply (dated_not_missing bs). }
  left. by exists ps, bs.
Qed.

(** The generator, case by case: the text; a failure that the function
    logs; or a failure of the stream, which it does not log. *)
Lemma generateSitemap_cases (w : World) :
  (∃ ps bs xml, sitemap_made env ps bs xml
     ∧ Sitemap.generateSitemap env w = (Ok xml, w))
  ∨ ((∀ ps bs xml, ¬ sitemap_made env ps bs xml)
     ∧ ∃ e, Sitemap.generateSitemap env w
            = (Thrown e, emit (ConsoleError "Error generating sitemap:") w))
  ∨ ((∀ ps bs xml, ¬ sitemap_made env ps bs xml)
     ∧ (∃ ps bs e,
          Sitemap.find_products env = inr (Sitemap.dated <$> ps)
          ∧ Sitemap.find_blogs env = inr (Sitemap.dated <$> bs)
          ∧ Sitemap.streamToPromise env (Sitemap.baseUrl env)
              (Sitemap.links_of env ps bs) = inl e)
     ∧ ∃ e, Sitemap.generateSitemap env w = (Thrown e, w)).
Proof.
  destruct (sitemap_links_cases w) as [(ps & bs & Hp & Hb & ->) | H]; [| by right; left].
  rewrite settle_run.
  destruct (Sitemap.streamToPromise env (Sitemap.baseUrl env) (Sitemap.links_of env ps bs))
    as [e | xml] eqn:Hxml.
  - right. right. split; [| split; [by exists ps, bs, e | by exists e]].
    intros ps' bs' xml (Hp' & Hb' & Hx).
    rewrite Hp in Hp'. rewrite Hb in Hb'.
    injection Hp' as Hp'. injection Hb' as Hb'.
    apply dated_inj in Hp' as <-. apply dated_inj in Hb' as <-. congruence.
  - left. by exists ps, bs, xml.
Qed.

End SitemapRoute.

(** X19.  The sitemap is made whole or not at all.  [GET /sitemap.xml] is
    answered 200 with the text of the sitemap stream exactly when both
    queries answer, every product and blog read has an [updatedAt] and the
    stream answers; otherwise (a query rejects, one document has no date,
    the stream fails) it is answered 500 with the text
    [Error generating sitemap], and the route logs the failure.  The
    generator logs it too, except when it is the stream that fails: its
    promise is returned without an [await].  The links handed to the stream
    are the five fixed pages, the ten category pages, one page per product
    and one per blog, in this order; their addresses are pairwise distinct
    when the identifiers of the products are and those of the blogs are. *)
Theorem sitemap_whole_or_nothing (env : Sitemap.Env) (w : World) :
  let res := Sitemap.get env w in
  (∀ ps bs xml, sitemap_made env ps bs xml →
     res = (Ok (json 200 (Whole (JStr xml))), w)
     ∧ length (Sitemap.links_of env ps bs) = (15 + length ps + length bs)%nat
     ∧ (NoDup (fst <$> ps) → NoDup (fst <$> bs) →
        NoDup (Sitemap.url <$> Sitemap.links_of env ps bs)))
  ∧ ((∀ ps bs xml, ¬ sitemap_made env ps bs xml) →
     response res = Some (json 500 (Whole (JStr "Error generating sitemap")))
     ∧ (events (world_after res)
        = events w ++ [ConsoleError "Error generating sitemap:";
                       ConsoleError "Error serving sitemap:"]
        ∨ (events (world_after res) = events w ++ [ConsoleError "Error serving sitemap:"]
           ∧ ∃ ps bs e,
               Sitemap.find_products env = inr (Sitemap.dated <$> ps)
               ∧ Sitemap.find_blogs env = inr (Sitemap.dated <$> bs)
               ∧ Sitemap.streamToPromise env (Sitemap.baseUrl env)
                   (Sitemap.links_of env ps bs) = inl e)))
  ∧ (answered res 200 ↔ ∃ ps bs xml, sitemap_made env ps bs xml).
Proof.
  intros res. subst res.
  assert (Hlinks : ∀ ps bs,
    length (Sitemap.links_of env ps bs) = (15 + length ps + length bs)%nat
    ∧ (NoDup (fst <$> ps) → NoDup (fst <$> bs) →
       NoDup (Sitemap.url <$> Sitemap.links_of env ps bs))).
  { intros ps bs. unfold Sitemap.links_of. split.
    { rewrite !length_app, !length_map. simpl. lia. }
    intros Hps Hbs. rewrite app_assoc, !fmap_app.
    fold fixed_urls.
    change (map ?f ?l) with (f <$> l). rewrite <- !list_fmap_compose.
    assert (Hp : (Sitemap.url ∘ (λ d : string * Z,
                {| Sitemap.url := "/products/" +:+ fst d; Sitemap.changefreq := "weekly";
                   Sitemap.priority := 9 # 10;
                   Sitemap.lastmod := Some (Sitemap.toISOString env (snd d)) |})) <$> ps
               = (λ i, "/products/" +:+ i) <$> (fst <$> ps)).
    { by rewrite <- list_fmap_compose. }
    assert (Hb : (Sitemap.url ∘ (λ d : string * Z,
                {| Sitemap.url := "/blog/" +:+ fst d; Sitemap.changefreq := "monthly";
                   Sitemap.priority := 7 # 10;
                   Sitemap.lastmod := Some (Sitemap.toISOString env (snd d)) |})) <$> bs
               = (λ i, "/blog/" +:+ i) <$> (fst <$> bs)).
    { by rewrite <- list_fmap_compose. }
    rewrite Hp, Hb.
    apply NoDup_app. split; [apply fixed_urls_NoDup |]. split.
    - intros u Hu. destruct (fixed_urls_prefix u Hu) as [Hnp Hnb].
      rewrite elem_of_app, !list_elem_of_fmap.
      intros [(i & -> & _) | (i & -> & _)].
      + by rewrite prefix_app in Hnp.
      + by rewrite prefix_app in Hnb.
    - apply NoDup_app. split; [by apply NoDup_prefixed |].
      split; [| by apply NoDup_prefixed].
      intros u. rewrite !list_elem_of_fmap. intros (i & -> & _) (j & Hj & _).
      discriminate Hj. }
  assert (Hfail : ∀ e w1, Sitemap.generateSitemap env w = (Thrown e, w1) →
            Sitemap.get env w
            = (Ok (json 500 (Whole (JStr "Error generating sitemap"))),
               emit (ConsoleError "Error serving sitemap:") w1)).
  { intros e w1 Hrun. unfold Sitemap.get.
    rewrite (try_Thrown _ _ w w1 e); [done |].
    by rewrite (bind_Thrown _ _ _ _ _ Hrun). }
  destruct (generateSitemap_cases env w)
    as [(ps & bs & xml & Hmade & Hrun)
       | [(Hnot & e & Hrun) | (Hnot & Hstream & e & Hrun)]].
  - assert (Hget : Sitemap.get env w = (Ok (json 200 (Whole (JStr xml))), w)).
    { unfold Sitemap.get. apply try_Ok. by rewrite (bind_Ok _ _ _ _ _ Hrun). }
    split; [| split].
    + intros ps' bs' xml' Hmade'. split; [| apply Hlinks].
      rewrite Hget. destruct Hmade as (Hp & Hb & Hx), Hmade' as (Hp' & Hb' & Hx').
      rewrite Hp in Hp'. rewrite Hb in Hb'.
      injection Hp' as Hp'. injection Hb' as Hb'.
      apply dated_inj in Hp' as <-. apply dated_inj in Hb' as <-. congruence.
    + intros Hnot. by destruct (Hnot ps bs xml).
    + rewrite Hget. split; [intros _; by exists ps, bs, xml | done].
  - rewrite (Hfail _ _ Hrun).
    split; [| split].
    + intros ps bs xml Hmade. by destruct (Hnot ps bs xml).
    + intros _. split; [done |]. left.
      unfold world_after. simpl. by rewrite <- app_assoc.
    + split; [intros [=] |].
      intros (ps & bs & xml & Hmade). by destruct (Hnot ps bs xml).
  - rewrite (Hfail _ _ Hrun).
    split; [| split].
    + intros ps bs xml Hmade. by destruct (Hnot ps bs xml).
    + intros _. split; [done |]. right. split; [done | exact Hstream].
    + split; [intros [=] |].
      intros (ps & bs & xml & Hmade). by destruct (Hnot ps bs xml).
Qed.

Lemma sitemap_whole_or_nothing_witness :
  answered (Sitemap.get Sitemap.sample Sample.empty_world) 200
  ∧ length (Sitemap.links_of Sitemap.sample
              [("65a000000000000000000001", 1700000000000%Z)]
              [("65a0000000000000000000b1", 1690000000000%Z)]) = 17%nat.
Proof.
  destruct (sitemap_whole_or_nothing Sitemap.sample Sample.empty_world) as (Hmade & _ & _).
  destruct (Hmade [("65a000000000000000000001", 1700000000000%Z)]
                  [("65a0000000000000000000b1", 1690000000000%Z)]
                  (String.concat " "
                     (map (λ l, "https://bngifthouse.com" +:+ Sitemap.url l)
                        (Sitemap.links_of Sitemap.sample
                           [("65a000000000000000000001", 1700000000000%Z)]
                           [("65a0000000000000000000b1", 1690000000000%Z)]))))
    as (Hget & Hlen & _).
  - split; [reflexivity |]. split; reflexivity.
  - split; [by rewrite Hget | exact Hlen].
Defined.

(** ** How an uploaded file is served *)

Section StaticFiles.

Lemma split_dot_free (s : string) : dot_free s → split_on "." s = [s].
Proof.
  unfold dot_free. induction s as [|c s IH]; simpl; [done |].
  rewrite not_elem_of_cons. intros [Hc Hs].
  destruct (Ascii.eqb_spec c "."%char) as [-> | _]; [done |].
  by rewrite (IH Hs).
Qed.

Lemma split_segments (a e : string) :
  dot_free e →
  ∃ h t, split_on "." (a +:+ String "." e) = h :: t ∧ last t = Some e.
Proof.
  intros He. induction a as [|c a (h & t & IH & Hlast)]; simpl.
  - exists EmptyString, [e]. by rewrite (split_dot_free _ He).
  - rewrite IH. destruct (Ascii.eqb c ".").
    + exists EmptyString, (h :: t). split; [done |].
      destruct t; [done | exact Hlast].
    + by exists (String c h), t.
Qed.

Lemma split_last_segment (a e : string) :
  dot_free e →
  last (split_on "." (a +:+ String "." e)) = Some e.
Proof.
  intros He. destruct (split_segments a e He) as (h & t & -> & Hlast).
  destruct t; [done | exact Hlast].
Qed.

Lemma dot_free_app (a b : string) : dot_free a → dot_free b → dot_free (a +:+ b).
Proof.
  unfold dot_free. induction a as [|c a IH]; simpl; [done |].
  rewrite !not_elem_of_cons. intros [Hc Ha] Hb. split; [done |]. by apply IH.
Qed.

Lemma numeral_dot_free (s : string) : numeral s → dot_free s.
Proof.
  unfold numeral, dot_free. intros H Hin.
  rewrite Forall_forall in H. by apply dot_no_digit, H.
Qed.

Lemma lower_ascii_dot (c : ascii) : lower_ascii c = "."%char → c = "."%char.
Proof.
  destruct c as [[] [] [] [] [] [] [] []]; vm_compute; intros H; first [done | discriminate H].
Qed.

Lemma lower_ascii_idem (c : ascii) : lower_ascii (lower_ascii c) = lower_ascii c.
Proof. destruct c as [[] [] [] [] [] [] [] []]; reflexivity. Qed.

Lemma toLowerCase_cons (c : ascii) (s : string) :
  toLowerCase (String c s) = String (lower_ascii c) (toLowerCase s).
Proof. reflexivity. Qed.

Lemma toLowerCase_idem (s : string) : toLowerCase (toLowerCase s) = toLowerCase s.
Proof.
  induction s as [|c s IH]; [done |].
  by rewrite !toLowerCase_cons, lower_ascii_idem, IH.
Qed.

Lemma toLowerCase_dot_free (s : string) : dot_free s → dot_free (toLowerCase s).
Proof.
  unfold dot_free. induction s as [|c s IH]; [done |].
  rewrite toLowerCase_cons. simpl. rewrite !not_elem_of_cons.
  intros [Hc Hs]. split; [| by apply IH].
  intros H. apply Hc. symmetry. by apply lower_ascii_dot.
Qed.

Lemma last_dot_suffix_dot_free (l e : list ascii) :
  Path.last_dot_suffix l = Some e →
  ∃ r, e = "."%char :: r ∧ "."%char ∉ r.
Proof.
  induction l as [|c l IH]; simpl; [done |].
  destruct (Path.last_dot_suffix l) as [s|] eqn:E.
  - intros [= <-]. by apply IH.
  - destruct (Ascii.eqb c ".") eqn:Hc; [| done].
    apply Ascii.eqb_eq in Hc as ->. intros [= <-]. exists l. split; [done |].
    clear IH. induction l as [|d l IH]; [apply not_elem_of_nil |].
    simpl in E. destruct (Path.last_dot_suffix l) as [s|]; [done |].
    destruct (Ascii.eqb_spec d "."%char) as [-> | Hd]; [done |].
    apply not_elem_of_cons. split; [done | by apply IH].
Qed.

(** An extension is empty, or a dot and a text without a dot. *)
Lemma extname_cases (p : string) :
  Path.extname p = EmptyString
  ∨ ∃ r, Path.extname p = String "." r ∧ dot_free r.
Proof.
  unfold Path.extname.
  destruct (Path.basename (list_ascii_of_string p)) as [|c l]; [by left |].
  destruct (_ && _); [by left |].
  destruct (Path.last_dot_suffix l) as [e|] eqn:E; [| by left].
  destruct (last_dot_suffix_dot_free _ _ E) as (r & -> & Hr).
  right. exists (string_of_list_ascii r). split; [done |].
  unfold dot_free. by rewrite list_ascii_of_string_of_list_ascii.
Qed.

Lemma member_slash (s : string) : Static.member (String "/" s) = Static.Undefined.
Proof. reflexivity. Qed.

End StaticFiles.

Section ServedFiles.

Lemma append_assoc (a b c : string) : (a +:+ b) +:+ c = a +:+ (b +:+ c).
Proof.
  induction a as [|x a IH]; [done |].
  change (String x ((a +:+ b) +:+ c) = String x (a +:+ (b +:+ c))). by rewrite IH.
Qed.

Lemma append_empty (a : string) : a +:+ EmptyString = a.
Proof.
  induction a as [|x a IH]; [done |].
  change (String x (a +:+ EmptyString) = String x a). by rewrite IH.
Qed.

(** Where the two storages put a file: the directory, a stem without a
    dot, and the extension of the original name, which the product storage
    puts in lower case. *)
Lemma product_path_shape (p : Part) :
  ∃ stem, dot_free stem
    ∧ path (stored_file Products.storage p)
      = String "/" stem +:+ toLowerCase (Path.extname (originalname p)).
Proof.
  exists ("app/public/uploads/products/product-" +:+ Number_toString (stamp p)).
  split.
  - apply dot_free_app; [| apply numeral_dot_free, Number_toString_numeral].
    apply (bool_decide_unpack _). vm_compute. exact I.
  - rewrite product_path_name.
    change (String "/" ("app/public/uploads/products/product-" +:+ Number_toString (stamp p)))
      with ("/app/public/uploads/products/product-" +:+ Number_toString (stamp p)).
    rewrite append_assoc. reflexivity.
Qed.

Lemma blog_path_shape (p : Part) :
  ∃ stem, dot_free stem
    ∧ path (stored_file Blog.storage p)
      = String "/" stem +:+ Path.extname (originalname p).
Proof.
  exists ("app/public/uploads/" +:+ Number_toString (stamp p)).
  split.
  - apply dot_free_app; [| apply numeral_dot_free, Number_toString_numeral].
    apply (bool_decide_unpack _). vm_compute. exact I.
  - rewrite <- blog_image_file.
    change (String "/" ("app/public/uploads/" +:+ Number_toString (stamp p)))
      with ("/app/public/uploads/" +:+ Number_toString (stamp p)).
    rewrite append_assoc. reflexivity.
Qed.

Lemma served_shape (stem e : string) :
  dot_free stem →
  e = EmptyString ∨ (∃ r, e = String "." r ∧ dot_free r) →
  Static.setHeaders (String "/" stem +:+ e)
  = match e with
    | EmptyString => None
    | String _ r =>
        match Static.member (toLowerCase r) with
        | Static.Undefined => None
        | m => Some m
        end
    end.
Proof.
  intros Hstem [-> | (r & -> & Hr)]; unfold Static.setHeaders, Static.ext.
  - rewrite append_empty, split_dot_free.
    + change (default EmptyString (last [String "/" stem])) with (String "/" stem).
      rewrite toLowerCase_cons.
      change (lower_ascii "/") with "/"%char. by rewrite member_slash.
    + unfold dot_free in *. simpl. apply not_elem_of_cons. done.
  - by rewrite (split_last_segment _ _ Hr).
Qed.

End ServedFiles.

(** X20.  How an uploaded file is served.  For a file stored by the
    product router or by the blog router, the [Content-Type] that the
    static route below [/uploads] sets is decided by the extension of the
    name the file had on the client, read without regard to case; the
    MIME type that the upload filter accepted plays no part.  A file
    whose original name has no extension gets no [Content-Type] from the
    route, and one whose extension is [jpg], [jpeg], [png], [gif] or
    [webp] in any case gets the type of the table. *)
Theorem stored_file_content_type (p : Part) (st : Storage) :
  st = Products.storage ∨ st = Blog.storage →
  (Path.extname (originalname p) = EmptyString →
     Static.setHeaders (path (stored_file st p)) = None)
  ∧ (∀ r, Path.extname (originalname p) = String "." r →
       Static.setHeaders (path (stored_file st p))
       = match Static.member (toLowerCase r) with
         | Static.Undefined => None
         | m => Some m
         end)
  ∧ (∀ r type, Path.extname (originalname p) = String "." r →
       (toLowerCase r, type) ∈ Static.contentTypes →
       Static.setHeaders (path (stored_file st p)) = Some (Static.Own type)).
Proof.
  intros Hst.
  assert (Hserved : Static.setHeaders (path (stored_file st p))
            = match Path.extname (originalname p) with
              | EmptyString => None
              | String _ r =>
                  match Static.member (toLowerCase r) with
                  | Static.Undefined => None
                  | m => Some m
                  end
              end).
  { destruct Hst as [-> | ->].
    - destruct (product_path_shape p) as (stem & Hstem & ->).
      destruct (extname_cases (originalname p)) as [E | (r & E & Hr)]; rewrite E.
      + change (toLowerCase EmptyString) with EmptyString.
        by rewrite (served_shape stem EmptyString Hstem) by (by left).
      + rewrite toLowerCase_cons.
        rewrite (served_shape stem (String (lower_ascii ".") (toLowerCase r)) Hstem).
        * by rewrite toLowerCase_idem.
        * right. exists (toLowerCase r). split; [done | by apply toLowerCase_dot_free].
    - destruct (blog_path_shape p) as (stem & Hstem & ->).
      apply served_shape; [done |]. apply extname_cases. }
  rewrite Hserved. split; [by intros -> |]. split; [by intros r -> |].
  intros r type -> Hin.
  unfold Static.contentTypes in Hin. rewrite !elem_of_cons, elem_of_nil in Hin.
  destruct Hin as [[= -> ->] | [[= -> ->] | [[= -> ->] | [[= -> ->] | [[= -> ->] | []]]]]];
    reflexivity.
Qed.

Lemma stored_file_content_type_witness :
  Static.setHeaders (path (stored_file Products.storage Sample.photo))
  = Some (Static.Own "image/png")
  ∧ Static.setHeaders (path (stored_file Blog.storage Sample.photo))
    = Some (Static.Own "image/png").
Proof.
  split.
  - destruct (stored_file_content_type Sample.photo Products.storage) as (_ & _ & H);
      [by left |].
    apply (H "PNG"); [reflexivity |].
    apply (bool_decide_unpack _). vm_compute. exact I.
  - destruct (stored_file_content_type Sample.photo Blog.storage) as (_ & _ & H);
      [by right |].
    apply (H "PNG"); [reflexivity |].
    apply (bool_decide_unpack _). vm_compute. exact I.
Defined.

(** ** Updates of an identifier that cannot be cast *)

(** X21.  An update whose identifier is not well formed.  Neither [PUT]
    route checks the identifier before the query: the cast fails inside
    the handler, whose catch clause answers 500 in the product router and
    400 in the blog router.  By then the upload middleware has stored the
    files of the request, which stay on the disk; no record is changed. *)
Theorem update_malformed_id (env : Env) (w : World) :
  (∀ req : Products.Request,
      isValid env (Products.params_id req) = false →
      accepted Products.storage 10 (Products.parts req) →
      validateProduct (Products.req_body req) = None →
      let res := Products.put env req w in
      answered res 500
      ∧ products (world_after res) = products w
      ∧ disk (world_after res)
        = disk w ∪ list_to_set (stored_paths Products.storage (Products.parts req)))
  ∧ (∀ req : Blog.Request,
      isValid env (Blog.params_id req) = false →
      accepted Blog.storage 10 (Blog.parts req) →
      Blog.validateBlogPost (Blog.req_body req) = None →
      let res := Blog.put env req w in
      answered res 400
      ∧ blogs (world_after res) = blogs w
      ∧ disk (world_after res)
        = disk w ∪ list_to_set (stored_paths Blog.storage (Blog.parts req))).
Proof.
  split.
  - intros req Hid Hacc Hv res. subst res.
    pose proof (upload_array_accepted _ _ _ w Hacc) as Hup.
    unfold Products.put, Products.upload. rewrite (route_run _ _ _ _ _ _ Hup), Hv.
    set (w1 := written _ w).
    assert (Hrun : Products.update env (Products.params_id req) (Products.req_body req)
                     (stored_file Products.storage <$> Products.parts req) w1
                   = (Ok (json 500 (message_body "Cast to ObjectId failed")),
                      emit (ConsoleError "Error updating product:") w1)).
    { unfold Products.update, findById. rewrite Hid.
      by rewrite (try_Thrown _ _ w1 w1 CastError). }
    rewrite Hrun. unfold answered, response, world_after. simpl.
    split; [done |]. subst w1. unfold stored_paths.
    destruct (written_frame (path <$> (stored_file Products.storage <$> Products.parts req)) w)
      as (_ & _ & -> & _).
    split; [done | apply written_disk].
  - intros req Hid Hacc Hv res. subst res.
    pose proof (upload_array_accepted _ _ _ w Hacc) as Hup.
    unfold Blog.put, Blog.upload. rewrite (route_run _ _ _ _ _ _ Hup), Hv.
    set (w1 := written _ w).
    assert (Hrun : Blog.update env (Blog.params_id req) (Blog.req_body req)
                     (stored_file Blog.storage <$> Blog.parts req) w1
                   = (Ok (json 400 (message_body "Cast to ObjectId failed")), w1)).
    { unfold Blog.update, findById. rewrite Hid.
      by rewrite (try_Thrown _ _ w1 w1 CastError). }
    rewrite Hrun. unfold answered, response, world_after. simpl.
    split; [done |]. subst w1. unfold stored_paths.
    destruct (written_frame (path <$> (stored_file Blog.storage <$> Blog.parts req)) w)
      as (_ & -> & _).
    split; [done | apply written_disk].
Qed.

Lemma update_malformed_id_witness :
  let req := Sample.product_request "not-an-id"
               (Sample.product_body "abc" "12.50" "0123456789") [Sample.photo] in
  answered (Products.put Sample.env req Sample.empty_world) 500
  ∧ disk (world_after (Products.put Sample.env req Sample.empty_world))
    = {["/app/public/uploads/products/product-1700000000000.png"]}.
Proof.
  intros req.
  destruct (update_malformed_id Sample.env Sample.empty_world) as [H _].
  destruct (H req) as (H500 & _ & Hdisk).
  - reflexivity.
  - destruct photo_accepted as [Hp _]. exact Hp.
  - reflexivity.
  - split; [exact H500 |]. rewrite Hdisk.
    apply set_eq. intros x. vm_compute. tauto.
Defined.

(** ** The router whose upload middleware stores on Cloudinary *)

Section UploadedDelete.

Variable destroy : option string → M unit.
Variable env : Env.

(** The calls touch Cloudinary, not the datastore. *)
Hypothesis destroy_frame :
  ∀ id w, cloud_products (snd (destroy id w)) = cloud_products w.

Lemma destroy_loop_cases (images : list CloudImage) :
  ∀ w : World,
  (∃ w', for_each images (λ image, destroy (public_id image)) w = (Ok (), w')
         ∧ cloud_products w' = cloud_products w)
  ∨ (∃ e w' done image w0,
        for_each images (λ image, destroy (public_id image)) w = (Thrown e, w')
        ∧ cloud_products w' = cloud_products w
        ∧ done ++ [image] `prefix_of` images
        ∧ destroy (public_id image) w0 = (Thrown e, w')).
Proof.
  induction images as [|img images IH]; intros w.
  { left. by exists w. }
  pose proof (destroy_frame (public_id img) w) as Hframe.
  simpl. destruct (destroy (public_id img) w) as [[[]|e] w1] eqn:Hstep; simpl in Hframe.
  - rewrite (bind_Ok _ _ _ _ _ Hstep).
    destruct (IH w1) as [(w' & Hrun & Hcp) | (e & w' & done & image & w0 & Hrun & Hcp & Hpre & Hthrow)].
    + left. exists w'. split; [done | congruence].
    + right. exists e, w', (img :: done), image, w0.
      split; [done |]. split; [congruence |]. split; [| done].
      by apply prefix_cons.
  - rewrite (bind_Thrown _ _ _ _ _ Hstep).
    right. exists e, w1, [], img, w. split; [done |]. split; [done |].
    split; [| done]. by exists images.
Qed.

Lemma uploaded_delete_cases (req : CloudProducts.Request) (w : World)
  (product : CloudProductDoc) :
  isValid env (CloudProducts.params_id req) = true →
  cloud_products w !! CloudProducts.params_id req = Some product →
  (∃ w1, for_each (c_images product) (λ image, destroy (public_id image)) w = (Ok (), w1)
         ∧ UploadedProducts.delete destroy env req w
           = (Ok (json 200 (Fields [("success", JBool true);
                                    ("message", JStr "Product deleted successfully")])),
              with_cloud_products (base.delete (CloudProducts.params_id req)) w1)
         ∧ cloud_products w1 = cloud_products w)
  ∨ (∃ e w1, for_each (c_images product) (λ image, destroy (public_id image)) w
             = (Thrown e, w1)
         ∧ UploadedProducts.delete destroy env req w
           = (Ok (json 500 (Fields [("success", JBool false);
                                    ("message", JStr "Failed to delete product")])),
              emit (ConsoleError "Error deleting product:") w1)
         ∧ cloud_products w1 = cloud_products w).
Proof.
  intros Hvalid Hfound.
  assert (Hread : findById env cloud_products (CloudProducts.params_id req) w
                  = (Ok (Some product), w)).
  { unfold findById, read. by rewrite Hvalid, Hfound. }
  unfold UploadedProducts.delete. rewrite Hvalid. simpl negb. cbv iota.
  destruct (destroy_loop_cases (c_images product) w)
    as [(w1 & Hrun & Hcp) | (e & w1 & _ & _ & _ & Hrun & Hcp & _)].
  - left. exists w1. split; [done |]. split; [| done].
    apply try_Ok. rewrite (bind_Ok _ _ _ _ _ Hread). cbv beta iota.
    by rewrite (bind_Ok _ _ _ _ _ Hrun).
  - right. exists e, w1. split; [done |]. split; [| done].
    rewrite (try_Thrown _ _ w w1 e); [done |].
    rewrite (bind_Ok _ _ _ _ _ Hread). cbv beta iota.
    by rewrite (bind_Thrown _ _ _ _ _ Hrun).
Qed.

End UploadedDelete.

(** X22.  The delete route of the router whose images are put on
    Cloudinary by the upload middleware is all or nothing.  The images of
    the record are destroyed one after the other, and no call is guarded:
    whatever [upload.destroy] does, as long as it leaves the datastore
    alone, the request is answered 200 and the record is removed exactly
    when every call returns; the first call that throws ends the loop, the
    request is answered 500 and the record stays.  In particular a record
    whose first image cannot be destroyed cannot be deleted. *)
Theorem uploaded_delete_all_or_nothing
  (destroy : option string → M unit) (env : Env)
  (req : CloudProducts.Request) (w : World) (product : CloudProductDoc) :
  (∀ id w, cloud_products (snd (destroy id w)) = cloud_products w) →
  isValid env (CloudProducts.params_id req) = true →
  cloud_products w !! CloudProducts.params_id req = Some product →
  let res := UploadedProducts.delete destroy env req w in
  let loop := for_each (c_images product) (λ image, destroy (public_id image)) w in
  (answered res 200 ∨ answered res 500)
  ∧ (answered res 200 ↔ ∃ w1, loop = (Ok (), w1))
  ∧ (answered res 200 →
       cloud_products (world_after res)
       = base.delete (CloudProducts.params_id req) (cloud_products w))
  ∧ (answered res 500 → cloud_products (world_after res) = cloud_products w)
  ∧ (∀ image rest e w1,
       c_images product = image :: rest →
       destroy (public_id image) w = (Thrown e, w1) →
       answered res 500
       ∧ world_after res = emit (ConsoleError "Error deleting product:") w1).
Proof.
  intros Hframe Hvalid Hfound res loop. subst res loop.
  destruct (uploaded_delete_cases destroy env Hframe req w product Hvalid Hfound)
    as [(w1 & Hloop & -> & Hcp) | (e & w1 & Hloop & -> & Hcp)];
    unfold answered, response, world_after; simpl; rewrite Hloop.
  - split; [by left |]. split; [split; [by exists w1 | done] |].
    split; [by rewrite Hcp |]. split; [intros [=] |].
    intros image rest e w2 Himg Hthrow. exfalso.
    rewrite Himg in Hloop. simpl in Hloop.
    by rewrite (bind_Thrown _ _ _ _ _ Hthrow) in Hloop.
  - split; [by right |]. split; [split; [intros [=] | intros (? & [=])] |].
    split; [intros [=] |]. split; [done |].
    intros image rest e' w2 Himg Hthrow.
    rewrite Himg in Hloop. simpl in Hloop.
    rewrite (bind_Thrown _ _ _ _ _ Hthrow) in Hloop.
    injection Hloop as -> ->. done.
Qed.

Lemma uploaded_delete_all_or_nothing_witness :
  let req := {| CloudProducts.params_id := Gallery.id;
                CloudProducts.req_body := Gallery.body |} in
  let res := UploadedProducts.delete (destroy_on_cloudinary Gallery.env) Gallery.env req
               Gallery.world in
  answered res 500
  ∧ cloud_products (world_after res) = cloud_products Gallery.world.
Proof.
  intros req res.
  destruct (uploaded_delete_all_or_nothing (destroy_on_cloudinary Gallery.env) Gallery.env
              req Gallery.world Gallery.product)
    as (_ & _ & _ & H500 & _).
  - intros id w. unfold destroy_on_cloudinary, cloud_destroy, mbind, M_bind, effect, throw.
    simpl. by destruct (String.eqb (default "undefined" id) "products/b").
  - reflexivity.
  - reflexivity.
  - split; [reflexivity |]. apply H500. reflexivity.
Defined.

(** ** The create of that router *)

Section UploadedCreate.

Variable env : Env.

Lemma uploaded_create_cases (b : ProductBody) (files : list File) (w : World) :
  (∃ doc, c_images doc = uploaded_by_middleware files
     ∧ UploadedProducts.create env b files w
       = (Ok (json 201 (Fields [("success", JBool true);
                                ("message", JStr "Product created successfully");
                                ("data", JCloudProduct (fresh_id env) doc)])),
          with_cloud_products (<[fresh_id env := doc]>) w))
  ∨ UploadedProducts.create env b files w
    = (Ok (json 500 (Fields [("success", JBool false);
                             ("message", JStr "Failed to create product")])),
       emit (ConsoleError "Error creating product:") w).
Proof.
  unfold UploadedProducts.create.
  destruct (json_list_cases env (features b) w) as [(fs & Hfs) | (e & Hfs)].
  2:{ right. rewrite (try_Thrown _ _ w w e); [done |].
      by rewrite (bind_Thrown _ _ _ _ _ Hfs). }
  destruct (json_list_cases env (specifications b) w) as [(ss & Hss) | (e & Hss)].
  2:{ right. rewrite (try_Thrown _ _ w w e); [done |].
      rewrite (bind_Ok _ _ _ _ _ Hfs). by rewrite (bind_Thrown _ _ _ _ _ Hss). }
  destruct (json_list_cases env (tags b) w) as [(ts & Hts) | (e & Hts)].
  2:{ right. rewrite (try_Thrown _ _ w w e); [done |].
      rewrite (bind_Ok _ _ _ _ _ Hfs), (bind_Ok _ _ _ _ _ Hss).
      by rewrite (bind_Thrown _ _ _ _ _ Hts). }
  pose (doc := {| c_title := default EmptyString (title b);
                  c_tagline := tagline b;
                  c_price := JS.parseFloat (default EmptyString (price b));
                  c_category := category b;
                  c_description := default EmptyString (description b);
                  c_features := fs; c_specifications := ss; c_tags := ts;
                  c_images := uploaded_by_middleware files;
                  c_createdAt := now env; c_updatedAt := now env |}).
  destruct (cloud_save_cases env (fresh_id env) doc w) as [(_ & _ & Hs) | (e & Hs)].
  - left. exists doc. split; [done |]. apply try_Ok.
    rewrite (bind_Ok _ _ _ _ _ Hfs), (bind_Ok _ _ _ _ _ Hss), (bind_Ok _ _ _ _ _ Hts).
    fold doc. by rewrite (bind_Ok _ _ _ _ _ Hs).
  - right. rewrite (try_Thrown _ _ w w e); [done |].
    rewrite (bind_Ok _ _ _ _ _ Hfs), (bind_Ok _ _ _ _ _ Hss), (bind_Ok _ _ _ _ _ Hts).
    fold doc. by rewrite (bind_Thrown _ _ _ _ _ Hs).
Qed.

End UploadedCreate.

(** X23.  The create of that router has no compensation.  The handler
    answers 201 or 500.  On 201 the record is stored with one image per
    file of the request, whose address and identifier are the [path] and the
    [filename] of the file.  On 500 the handler has logged the error and
    done nothing else: no destroy is called, Cloudinary holds what it
    held, so every image that the upload middleware stored for the request
    stays there, referenced by no record. *)
Theorem uploaded_create_no_compensation
  (env : Env) (b : ProductBody) (files : list File) (w : World) :
  let res := UploadedProducts.create env b files w in
  (answered res 201 ∨ answered res 500)
  ∧ (answered res 201 →
       ∃ doc, world_after res = with_cloud_products (<[fresh_id env := doc]>) w
         ∧ c_images doc = uploaded_by_middleware files)
  ∧ (answered res 500 →
       world_after res = emit (ConsoleError "Error creating product:") w
       ∧ destroyed (events (world_after res)) = destroyed (events w)
       ∧ ∀ file, file ∈ files → filename file ∈ cloud w →
           filename file ∈ cloud (world_after res))
  ∧ (JS.truthy (category b) = false → answered res 500).
Proof.
  intros res. subst res.
  assert (Hcat : JS.truthy (category b) = false →
            ∀ doc w', UploadedProducts.create env b files w
                      ≠ (Ok (json 201 (Fields [("success", JBool true);
                               ("message", JStr "Product created successfully");
                               ("data", JCloudProduct (fresh_id env) doc)])), w')).
  { intros Hc doc w'. unfold UploadedProducts.create, try_catch.
    destruct (json_list_cases env (features b) w) as [(fs & Hfs) | (e & Hfs)];
      [| by rewrite (bind_Thrown _ _ _ _ _ Hfs)].
    rewrite (bind_Ok _ _ _ _ _ Hfs).
    destruct (json_list_cases env (specifications b) w) as [(ss & Hss) | (e & Hss)];
      [| by rewrite (bind_Thrown _ _ _ _ _ Hss)].
    rewrite (bind_Ok _ _ _ _ _ Hss).
    destruct (json_list_cases env (tags b) w) as [(ts & Hts) | (e & Hts)];
      [| by rewrite (bind_Thrown _ _ _ _ _ Hts)].
    rewrite (bind_Ok _ _ _ _ _ Hts).
    unfold CloudProducts.save. simpl. rewrite Hc. simpl. done. }
  destruct (uploaded_create_cases env b files w) as [(doc & Himg & Hrun) | Hrun].
  - rewrite Hrun. unfold answered, response, world_after. simpl.
    split; [by left |]. split; [intros _; by exists doc |].
    split; [intros [=] |].
    intros Hc. by destruct (Hcat Hc doc _ Hrun).
  - rewrite Hrun. unfold answered, response, world_after. simpl.
    split; [by right |]. split; [intros [=] |].
    split; [| done]. intros _. split; [done |]. split; [| done].
    unfold destroyed. by rewrite omap_app, app_nil_r.
Qed.

Lemma uploaded_create_no_compensation_witness :
  let file := {| filename := "products/new"; path := "https://res.cloudinary.com/new" |} in
  let w := with_cloud (λ c, c ∪ {["products/new"]}) Gallery.world in
  let res := UploadedProducts.create Sample.env_save_fails
               (Sample.product_body "abc" "12.50" "0123456789") [file] w in
  answered res 500
  ∧ "products/new" ∈ cloud (world_after res)
  ∧ cloud_products (world_after res) = cloud_products Gallery.world.
Proof.
  intros file w res.
  destruct (uploaded_create_no_compensation Sample.env_save_fails
              (Sample.product_body "abc" "12.50" "0123456789") [file] w)
    as (_ & _ & H500 & _).
  destruct H500 as (Hw & _ & Hkept); [reflexivity |].
  split; [reflexivity |]. split.
  - apply (Hkept file); [left |].
    apply (bool_decide_unpack _). vm_compute. exact I.
  - subst res. by rewrite Hw.
Defined.
